(** * Global Style Token modules (modules.py): a shallow embedding

    The four classes of [modules.py] ([ReferenceEncoder], [STL],
    [MultiHeadAttention], [GST]) are translated method by method.  Python
    integers are [Z]; a tensor is its shape together with an indexing
    function; Python exceptions are an explicit result type; the mutable
    module object and the log of method calls are threaded through a small
    state-and-exception monad. *)

From Stdlib Require Import String.
From Stdlib Require Import ZArith List Lia Bool.
Import ListNotations.
Local Open Scope Z_scope.

(** ** Python exceptions and results *)

Inductive exn : Type :=
| IndexError
| ZeroDivisionError
| TypeError
| ValueError
| RuntimeError.

Inductive result (A : Type) : Type :=
| Ok (a : A)
| Raise (e : exn).
Arguments Ok {A} a.
Arguments Raise {A} e.

Definition rbind {A B} (r : result A) (k : A -> result B) : result B :=
  match r with
  | Ok a => k a
  | Raise e => Raise e
  end.

Definition rmap {A B} (f : A -> B) (r : result A) : result B :=
  rbind r (fun a => Ok (f a)).

Declare Scope result_scope.
Delimit Scope result_scope with res.
Notation "x <- c ;; k" := (rbind c (fun x => k))
  (at level 61, c at next level, right associativity) : result_scope.
Local Open Scope result_scope.

(** Python's [a // b] on integers: floor division, [ZeroDivisionError] on a
    zero divisor.  [Z.div] rounds towards minus infinity like Python does. *)
Definition floordiv (a b : Z) : result Z :=
  if b =? 0 then Raise ZeroDivisionError else Ok (a / b).

(** [range(n)] for an integer [n]: empty when [n <= 0]. *)
Definition range (n : Z) : list Z := map Z.of_nat (seq 0 (Z.to_nat n)).

(** ** ReferenceEncoder.calculate_channels (lines 62-65) *)

Fixpoint calculate_channels_loop (n : nat) (L kernel_size stride pad : Z)
  : result Z :=
  match n with
  | O => Ok L
  | S n' =>
      q <- floordiv (L - kernel_size + 2 * pad) stride ;;
      calculate_channels_loop n' (q + 1) kernel_size stride pad
  end.

Definition calculate_channels (L kernel_size stride pad n_convs : Z)
  : result Z :=
  calculate_channels_loop (Z.to_nat n_convs) L kernel_size stride pad.

(** Ceiling of [a / b] for a positive [b]. *)
Definition ceil_div (a b : Z) : Z := - ((- a) / b).

(** One stride-2 stage of the frequency recurrence, as the spec words it:
    [L := floor((L - 3 + 2) / 2) + 1]. *)
Definition halve_stage (L : Z) : Z := (L - 3 + 2) / 2 + 1.


(** ** Tensors

    A tensor is its shape and an indexing function from multi-indices to
    scalars.  The scalar type [F] stands for torch's float32: every
    definition below is parametric in it.  A value of this type is a dense
    row-major (contiguous) tensor: strides are not part of it. *)

Record tensor (F : Type) : Type := mkT {
  shape : list Z;
  data : list Z -> F
}.
Arguments mkT {F} shape data.
Arguments shape {F} t.
Arguments data {F} t idx.

Definition numel (s : list Z) : Z := fold_right Z.mul 1 s.

Definition len {A} (l : list A) : Z := Z.of_nat (length l).

(** Replace position [n] of a multi-index or of a shape. *)
Fixpoint set_nth (n : nat) (v : Z) (l : list Z) : list Z :=
  match l, n with
  | [], _ => []
  | _ :: l', O => v :: l'
  | x :: l', S n' => x :: set_nth n' v l'
  end.

Fixpoint insert_at (n : nat) (v : Z) (l : list Z) : list Z :=
  match n, l with
  | O, _ => v :: l
  | S n', x :: l' => x :: insert_at n' v l'
  | S _, [] => [v]
  end.

Fixpoint remove_at (n : nat) (l : list Z) : list Z :=
  match l, n with
  | [], _ => []
  | _ :: l', O => l'
  | x :: l', S n' => x :: remove_at n' l'
  end.

Definition swap_at (i j : nat) (l : list Z) : list Z :=
  set_nth i (nth j l 0) (set_nth j (nth i l 0) l).

(** Row-major linearisation of a multi-index and its inverse. *)
Fixpoint ravel (s idx : list Z) : Z :=
  match s, idx with
  | _ :: s', i :: idx' => i * numel s' + ravel s' idx'
  | _, _ => 0
  end.

Fixpoint unravel (s : list Z) (flat : Z) : list Z :=
  match s with
  | [] => []
  | _ :: s' => flat / numel s' :: unravel s' (flat mod numel s')
  end.

Section ShapeOps.
Context {F : Type}.
Implicit Types x : tensor F.

(** [x.size(i)] *)
Definition size x (i : nat) : result Z :=
  match nth_error (shape x) i with
  | Some d => Ok d
  | None => Raise IndexError
  end.

(** Size inference of [view]: one entry may be [-1]; the others must be
    non-negative; the element counts must agree. *)
Fixpoint infer_scan (req : list Z) (newsize : Z) (infer : option nat)
         (pos : nat) : result (Z * option nat) :=
  match req with
  | [] => Ok (newsize, infer)
  | d :: req' =>
      if d =? -1 then
        match infer with
        | Some _ => Raise RuntimeError
        | None => infer_scan req' newsize (Some pos) (S pos)
        end
      else if 0 <=? d then infer_scan req' (newsize * d) infer (S pos)
      else Raise RuntimeError
  end.

Definition infer_size (n : Z) (req : list Z) : result (list Z) :=
  p <- infer_scan req 1 None 0 ;;
  let '(newsize, infer) := p in
  match infer with
  | None => if n =? newsize then Ok req else Raise RuntimeError
  | Some pos =>
      if (n =? newsize) || ((0 <? newsize) && (n mod newsize =? 0)) then
        if newsize =? 0 then Raise RuntimeError
        else Ok (set_nth pos (n / newsize) req)
      else Raise RuntimeError
  end.

(** [x.view(req)] for a contiguous [x]: the entries are re-read in
    row-major order under the new sizes. *)
Definition view x (req : list Z) : result (tensor F) :=
  s <- infer_size (numel (shape x)) req ;;
  Ok (mkT s (fun idx => data x (unravel (shape x) (ravel s idx)))).

(** [x.transpose(i, j)] *)
Definition transpose x (i j : nat) : result (tensor F) :=
  if (Nat.ltb i (length (shape x))) && (Nat.ltb j (length (shape x))) then
    Ok (mkT (swap_at i j (shape x)) (fun idx => data x (swap_at i j idx)))
  else Raise IndexError.

(** [x.squeeze(0)]: drops dimension 0 when its size is 1. *)
Definition squeeze0 x : tensor F :=
  match shape x with
  | d :: s' =>
      if d =? 1 then mkT s' (fun idx => data x (0 :: idx)) else x
  | [] => x
  end.

(** [x.unsqueeze(i)] *)
Definition unsqueeze x (i : nat) : result (tensor F) :=
  if Nat.leb i (length (shape x)) then
    Ok (mkT (insert_at i 1 (shape x)) (fun idx => data x (remove_at i idx)))
  else Raise IndexError.

(** [x.expand(req)]: [-1] keeps a size, a size-1 dimension is repeated,
    extra leading entries add dimensions. *)
Fixpoint expand_dims (s req : list Z) : result (list Z) :=
  match s, req with
  | [], [] => Ok []
  | d :: s', r :: req' =>
      rest <- expand_dims s' req' ;;
      if r =? -1 then Ok (d :: rest)
      else if r =? d then Ok (d :: rest)
      else if (d =? 1) && (0 <=? r) then Ok (r :: rest)
      else Raise RuntimeError
  | _, _ => Raise RuntimeError
  end.

Definition bcast_index (s idx : list Z) : list Z :=
  map (fun di => if fst di =? 1 then 0 else snd di)
      (combine s (skipn (length idx - length s) idx)).

Definition expand x (req : list Z) : result (tensor F) :=
  let k := (length req - length (shape x))%nat in
  if Nat.ltb (length req) (length (shape x)) then Raise RuntimeError
  else if forallb (fun r => 0 <=? r) (firstn k req) then
    rest <- expand_dims (shape x) (skipn k req) ;;
    Ok (mkT (firstn k req ++ rest)
            (fun idx => data x (bcast_index (shape x) idx)))
  else Raise RuntimeError.

(** [torch.split(x, split_size, dim)]: chunks of [split_size] along
    [dim], the last one possibly shorter. *)
Definition split x (split_size : Z) (dim : nat) : result (list (tensor F)) :=
  match nth_error (shape x) dim with
  | None => Raise IndexError
  | Some dim_size =>
      if split_size <? 0 then Raise RuntimeError
      else if (split_size =? 0) && negb (dim_size =? 0) then
        Raise RuntimeError
      else
        let num_splits :=
          if split_size =? 0 then 1
          else Z.max ((dim_size + split_size - 1) / split_size) 1 in
        let last_split_size :=
          split_size - (split_size * num_splits - dim_size) in
        Ok (map (fun i =>
                   let length_i :=
                     if i <? num_splits - 1 then split_size
                     else last_split_size in
                   mkT (set_nth dim length_i (shape x))
                       (fun idx =>
                          data x (set_nth dim (i * split_size + nth dim idx 0)
                                          idx)))
                (range num_splits))
  end.

Definition shape_eqb (s1 s2 : list Z) : bool :=
  Nat.eqb (length s1) (length s2)
  && forallb (fun p => fst p =? snd p) (combine s1 s2).

(** [torch.stack(ts, dim=0)]: all tensors must have one shape. *)
Definition stack0 (ts : list (tensor F)) : result (tensor F) :=
  match ts with
  | [] => Raise RuntimeError
  | t0 :: _ =>
      if forallb (fun t => shape_eqb (shape t) (shape t0)) ts then
        Ok (mkT (len ts :: shape t0)
                (fun idx =>
                   data (nth (Z.to_nat (hd 0 idx)) ts t0) (tl idx)))
      else Raise RuntimeError
  end.

(** [torch.cat(ts, dim)]: shapes agree off [dim], sizes add up along it. *)
Fixpoint cat_locate (ts : list (tensor F)) (dim : nat) (i : Z) (t0 : tensor F)
  : tensor F * Z :=
  match ts with
  | [] => (t0, i)
  | t :: ts' =>
      let d := nth dim (shape t) 0 in
      if i <? d then (t, i) else cat_locate ts' dim (i - d) t0
  end.

Definition cat (ts : list (tensor F)) (dim : nat) : result (tensor F) :=
  match ts with
  | [] => Raise RuntimeError
  | t0 :: _ =>
      if negb (Nat.ltb dim (length (shape t0))) then Raise IndexError
      else if forallb (fun t => shape_eqb (set_nth dim 0 (shape t))
                                          (set_nth dim 0 (shape t0))) ts
      then
        let total := fold_right Z.add 0
                                (map (fun t => nth dim (shape t) 0) ts) in
        Ok (mkT (set_nth dim total (shape t0))
                (fun idx =>
                   let '(t, off) := cat_locate ts dim (nth dim idx 0) t0 in
                   data t (set_nth dim off idx)))
      else Raise RuntimeError
  end.

End ShapeOps.

(** ** Module objects

    One record per [nn.Module] class the source instantiates or defines.
    Fields hold the attributes the code reads; learned parameters and
    buffers are tensors. *)

Record Conv2d (F : Type) : Type := mkConv2d {
  conv_in_channels : Z;
  conv_out_channels : Z;
  conv_kernel_size : Z;
  conv_stride : Z;
  conv_padding : Z;
  conv_weight : tensor F;
  conv_bias : tensor F
}.

Record BatchNorm2d (F : Type) : Type := mkBatchNorm2d {
  bn_num_features : Z;
  bn_training : bool;
  bn_weight : tensor F;
  bn_bias : tensor F;
  bn_running_mean : tensor F;
  bn_running_var : tensor F;
  bn_num_batches_tracked : Z
}.

Record GRU (F : Type) : Type := mkGRU {
  gru_input_size : Z;
  gru_hidden_size : Z;
  gru_weight_ih : tensor F;
  gru_weight_hh : tensor F;
  gru_bias_ih : tensor F;
  gru_bias_hh : tensor F
}.

Record Linear (F : Type) : Type := mkLinear {
  lin_in_features : Z;
  lin_out_features : Z;
  lin_weight : tensor F
}.

Record MultiHeadAttention (F : Type) : Type := mkMultiHeadAttention {
  num_units : Z;
  num_heads : Z;
  key_dim : Z;
  W_query : Linear F;
  W_key : Linear F;
  W_value : Linear F
}.

Record STL (F : Type) : Type := mkSTL {
  embed : tensor F;
  attention : MultiHeadAttention F
}.

Record ReferenceEncoder (F : Type) : Type := mkReferenceEncoder {
  convs : list (Conv2d F);
  bns : list (BatchNorm2d F);
  gru : GRU F;
  n_mel_channels : Z;
  ref_enc_gru_size : Z
}.

Record GST (F : Type) : Type := mkGST {
  encoder : ReferenceEncoder F;
  stl : STL F
}.

Arguments mkConv2d {F}.
Arguments conv_in_channels {F}.
Arguments conv_out_channels {F}.
Arguments conv_kernel_size {F}.
Arguments conv_stride {F}.
Arguments conv_padding {F}.
Arguments conv_weight {F}.
Arguments conv_bias {F}.
Arguments mkBatchNorm2d {F}.
Arguments bn_num_features {F}.
Arguments bn_training {F}.
Arguments bn_weight {F}.
Arguments bn_bias {F}.
Arguments bn_running_mean {F}.
Arguments bn_running_var {F}.
Arguments bn_num_batches_tracked {F}.
Arguments mkGRU {F}.
Arguments gru_input_size {F}.
Arguments gru_hidden_size {F}.
Arguments gru_weight_ih {F}.
Arguments gru_weight_hh {F}.
Arguments gru_bias_ih {F}.
Arguments gru_bias_hh {F}.
Arguments mkLinear {F}.
Arguments lin_in_features {F}.
Arguments lin_out_features {F}.
Arguments lin_weight {F}.
Arguments mkMultiHeadAttention {F}.
Arguments num_units {F}.
Arguments num_heads {F}.
Arguments key_dim {F}.
Arguments W_query {F}.
Arguments W_key {F}.
Arguments W_value {F}.
Arguments mkSTL {F}.
Arguments embed {F}.
Arguments attention {F}.
Arguments mkReferenceEncoder {F}.
Arguments convs {F}.
Arguments bns {F}.
Arguments gru {F}.
Arguments n_mel_channels {F}.
Arguments ref_enc_gru_size {F}.
Arguments mkGST {F}.
Arguments encoder {F}.
Arguments stl {F}.

(** The hyper-parameter object read by the constructors. *)
Record hparams : Type := mkHparams {
  hp_ref_enc_filters : list Z;
  hp_n_mel_channels : Z;
  hp_ref_enc_gru_size : Z;
  hp_token_num : Z;
  hp_token_embedding_size : Z;
  hp_num_heads : Z
}.

(** ** Scalar arithmetic and numeric kernels

    The float32 arithmetic and the numeric kernels of torch's layers are an
    interface: the source only composes them.  Shapes, exceptions and the
    data movement between the kernels are defined below for every
    instance. *)

Class Numeric (F : Type) : Type := {
  fzero : F;
  fone : F;
  fadd : F -> F -> F;
  fmul : F -> F -> F;
  fdiv : F -> F -> F;
  frelu : F -> F;
  ftanh : F -> F;
  (** Python's [n ** 0.5] for an integer [n], as a scalar *)
  pow_half : Z -> F;
  (** softmax of one row *)
  softmax_row : list F -> list F;
  (** contents of a freshly allocated or randomly initialised parameter *)
  param_init : String.string -> list Z -> F;
  (** value kernels of convolution, batch normalisation and the GRU *)
  conv2d_kernel : Conv2d F -> tensor F -> list Z -> F;
  batch_norm_kernel : BatchNorm2d F -> tensor F -> list Z -> F;
  batch_norm_running_mean : BatchNorm2d F -> tensor F -> list Z -> F;
  batch_norm_running_var : BatchNorm2d F -> tensor F -> list Z -> F;
  gru_kernel : GRU F -> tensor F -> option (list Z) -> list Z -> F
}.

Section NumericOps.
Context {F : Type} `{Numeric F}.
Implicit Types x : tensor F.

Definition map_tensor (f : F -> F) x : tensor F :=
  mkT (shape x) (fun idx => f (data x idx)).

(** [torch.tanh], [F.relu], and division of a tensor by a Python float *)
Definition tanh x : tensor F := map_tensor ftanh x.
Definition relu x : tensor F := map_tensor frelu x.
Definition div_scalar x (c : F) : tensor F :=
  map_tensor (fun v => fdiv v c) x.

(** Sum of [f 0 .. f (n-1)], accumulated left to right. *)
Definition fsum (n : Z) (f : Z -> F) : F :=
  fold_left (fun acc i => fadd acc (f i)) (range n) fzero.

(** [torch.matmul] on operands of rank at least 2: the last two
    dimensions are multiplied, the leading ones broadcast (aligned to the
    right).  Both operands of the source come out of [torch.stack]
    applied to a split along dimension 2, so vector operands do not
    occur. *)
Fixpoint broadcast_rev (a b : list Z) : result (list Z) :=
  match a, b with
  | [], _ => Ok b
  | _, [] => Ok a
  | d1 :: a', d2 :: b' =>
      rest <- broadcast_rev a' b' ;;
      if d1 =? d2 then Ok (d1 :: rest)
      else if d1 =? 1 then Ok (d2 :: rest)
      else if d2 =? 1 then Ok (d1 :: rest)
      else Raise RuntimeError
  end.

Definition broadcast_shapes (a b : list Z) : result (list Z) :=
  rmap (@rev Z) (broadcast_rev (rev a) (rev b)).

Definition matmul (a b : tensor F) : result (tensor F) :=
  let ra := length (shape a) in
  let rb := length (shape b) in
  if Nat.ltb ra 2 || Nat.ltb rb 2 then Raise RuntimeError
  else
    let batch_a := firstn (ra - 2) (shape a) in
    let batch_b := firstn (rb - 2) (shape b) in
    let m := nth (ra - 2) (shape a) 0 in
    let k := nth (ra - 1) (shape a) 0 in
    let k' := nth (rb - 2) (shape b) 0 in
    let p := nth (rb - 1) (shape b) 0 in
    if k =? k' then
      batch <- broadcast_shapes batch_a batch_b ;;
      Ok (mkT (batch ++ [m; p])
              (fun idx =>
                 let r := length idx in
                 let bidx := firstn (r - 2) idx in
                 let i := nth (r - 2) idx 0 in
                 let j := nth (r - 1) idx 0 in
                 fsum k (fun c =>
                   fmul (data a (bcast_index batch_a bidx ++ [i; c]))
                        (data b (bcast_index batch_b bidx ++ [c; j])))))
    else Raise RuntimeError.

(** [F.softmax(x, dim)] *)
Definition softmax x (dim : nat) : result (tensor F) :=
  match nth_error (shape x) dim with
  | None => Raise IndexError
  | Some d =>
      Ok (mkT (shape x)
              (fun idx =>
                 nth (Z.to_nat (nth dim idx 0))
                     (softmax_row
                        (map (fun j => data x (set_nth dim j idx))
                             (range d)))
                     fzero))
  end.

(** A parameter tensor of the given shape; allocation rejects a negative
    dimension. *)
Definition alloc (name : String.string) (s : list Z) : result (tensor F) :=
  if forallb (fun d => 0 <=? d) s then Ok (mkT s (param_init name))
  else Raise RuntimeError.

Definition full (s : list Z) (v : F) : tensor F := mkT s (fun _ => v).

End NumericOps.

(** ** State, call log and exceptions

    A computation reads and updates a state [S] (the module object [self])
    and appends to the log of calls to the methods that [modules.py]
    defines; it ends with a value or a Python exception. *)

Definition log : Type := list String.string.

Definition M (S A : Type) : Type := S -> log -> result A * S * log.

Definition ret {S A} (a : A) : M S A := fun s l => (Ok a, s, l).

Definition bind {S A B} (m : M S A) (k : A -> M S B) : M S B :=
  fun s l =>
    match m s l with
    | (Ok a, s', l') => k a s' l'
    | (Raise e, s', l') => (Raise e, s', l')
    end.

Definition lift {S A} (r : result A) : M S A := fun s l => (r, s, l).

Definition get {S} : M S S := fun s l => (Ok s, s, l).

Definition put {S} (s' : S) : M S unit := fun _ l => (Ok tt, s', l).

Definition called {S} (name : String.string) : M S unit :=
  fun s l => (Ok tt, s, l ++ [name]).

(** Run a computation on a sub-object of the state. *)
Definition zoom {S T A} (proj : S -> T) (upd : T -> S -> S) (m : M T A)
  : M S A :=
  fun s l => let '(r, t', l') := m (proj s) l in (r, upd t' s, l').

Declare Scope monad_scope.
Delimit Scope monad_scope with M.
Notation "x <- c ;; k" := (bind c (fun x => k))
  (at level 61, c at next level, right associativity) : monad_scope.
Notation "c ;;; k" := (bind c (fun _ => k))
  (at level 61, right associativity) : monad_scope.

Fixpoint mapM {S A B} (f : A -> M S B) (l : list A) : M S (list B) :=
  match l with
  | [] => ret []
  | a :: l' => (b <- f a ;; bs <- mapM f l' ;; ret (b :: bs))%M
  end.

(** The same traversal for computations that can only raise. *)
Fixpoint mapR {A B} (f : A -> result B) (l : list A) : result (list B) :=
  match l with
  | [] => Ok []
  | a :: l' => b <- f a ;; bs <- mapR f l' ;; Ok (b :: bs)
  end.

(** ** Python's [len]

    [len(obj)] calls the [__len__] method of the class of [obj] and raises
    [TypeError] when the class has none.  [nn.ModuleList] defines
    [__len__]; [nn.Module] does not, and [ReferenceEncoder] adds none. *)

Record pyclass (Self : Type) : Type := mkClass {
  cls_name : String.string;
  cls_len : option (Self -> Z)
}.
Arguments mkClass {Self}.
Arguments cls_name {Self}.
Arguments cls_len {Self}.

Definition py_len {Self} (C : pyclass Self) (self : Self) : result Z :=
  match cls_len C with
  | Some f => Ok (f self)
  | None => Raise TypeError
  end.

Definition ModuleList_class (A : Type) : pyclass (list A) :=
  mkClass "ModuleList"%string (Some len).

Definition ReferenceEncoder_class (F : Type) : pyclass (ReferenceEncoder F) :=
  mkClass "ReferenceEncoder"%string None.

(** [l[-1]] *)
Definition py_last (l : list Z) : result Z :=
  match rev l with
  | x :: _ => Ok x
  | [] => Raise IndexError
  end.

(** ** The layers of torch.nn the source instantiates *)

(** What [self.gru] is called on: a padded batch or a packed sequence. *)
Inductive gru_input (F : Type) : Type :=
| Padded (x : tensor F)
| Packed (x : tensor F) (lengths : list Z).
Arguments Padded {F} x.
Arguments Packed {F} x lengths.

Section Layers.
Context {F : Type} `{Numeric F}.

(** [nn.Conv2d(in_channels, out_channels, kernel_size=(k,k), stride=(s,s),
    padding=(p,p))] *)
Definition Conv2d_init (cin cout k s p : Z) : result (Conv2d F) :=
  w <- alloc "Conv2d.weight"%string [cout; cin; k; k] ;;
  b <- alloc "Conv2d.bias"%string [cout] ;;
  Ok (mkConv2d cin cout k s p w b).

(** Output extent of one spatial axis. *)
Definition conv_out_size (c : Conv2d F) (L : Z) : Z :=
  (L + 2 * conv_padding c - conv_kernel_size c) / conv_stride c + 1.

(** [Conv2d.forward]: the weight must have at least one output channel,
    the input as many channels as the weight expects, and the padded input
    must not be smaller than the kernel; each violation is a
    [RuntimeError]. *)
Definition Conv2d_forward (c : Conv2d F) (x : tensor F) : result (tensor F) :=
  match shape x with
  | [n; ci; h; w] =>
      if conv_out_channels c <? 1 then Raise RuntimeError
      else if negb (ci =? conv_in_channels c) then Raise RuntimeError
      else if conv_stride c <=? 0 then Raise RuntimeError
      else if (h + 2 * conv_padding c <? conv_kernel_size c)
              || (w + 2 * conv_padding c <? conv_kernel_size c)
      then Raise RuntimeError
      else Ok (mkT [n; conv_out_channels c; conv_out_size c h;
                    conv_out_size c w]
                   (conv2d_kernel c x))
  | _ => Raise RuntimeError
  end.

(** [nn.BatchNorm2d(num_features)]: a new module is in training mode. *)
Definition BatchNorm2d_init (num_features : Z) : result (BatchNorm2d F) :=
  if num_features <? 0 then Raise RuntimeError
  else Ok (mkBatchNorm2d num_features true
             (full [num_features] fone) (full [num_features] fzero)
             (full [num_features] fzero) (full [num_features] fone) 0).

(** [BatchNorm2d.forward]: in training mode the call counts the batch and
    replaces the running statistics. *)
Definition BatchNorm2d_forward (x : tensor F) : M (BatchNorm2d F) (tensor F) :=
  (self <- get ;;
   match shape x with
   | [n; c; h; w] =>
       (if bn_training self then
          put (mkBatchNorm2d (bn_num_features self) (bn_training self)
                 (bn_weight self) (bn_bias self)
                 (bn_running_mean self) (bn_running_var self)
                 (bn_num_batches_tracked self + 1))
        else ret tt) ;;;
       if bn_training self && (n * (h * w) =? 1) then lift (Raise ValueError)
       else if negb (c =? bn_num_features self) then lift (Raise RuntimeError)
       else
         (if bn_training self then
            put (mkBatchNorm2d (bn_num_features self) (bn_training self)
                   (bn_weight self) (bn_bias self)
                   (mkT [bn_num_features self]
                        (batch_norm_running_mean self x))
                   (mkT [bn_num_features self]
                        (batch_norm_running_var self x))
                   (bn_num_batches_tracked self + 1))
          else ret tt) ;;;
         ret (mkT (shape x) (batch_norm_kernel self x))
   | _ => lift (Raise ValueError)
   end)%M.

(** [nn.GRU(input_size, hidden_size, batch_first=True)]: both sizes must
    be greater than zero, otherwise the constructor raises [ValueError]. *)
Definition GRU_init (input_size hidden_size : Z) : result (GRU F) :=
  if input_size <=? 0 then Raise ValueError
  else if hidden_size <=? 0 then Raise ValueError
  else
    w_ih <- alloc "GRU.weight_ih_l0"%string [3 * hidden_size; input_size] ;;
    w_hh <- alloc "GRU.weight_hh_l0"%string [3 * hidden_size; hidden_size] ;;
    b_ih <- alloc "GRU.bias_ih_l0"%string [3 * hidden_size] ;;
    b_hh <- alloc "GRU.bias_hh_l0"%string [3 * hidden_size] ;;
    Ok (mkGRU input_size hidden_size w_ih w_hh b_ih b_hh).

(** The final hidden state [h_n] returned by [GRU.forward]. *)
Definition GRU_forward (g : GRU F) (input : gru_input F) : result (tensor F) :=
  let '(x, lengths) :=
    match input with
    | Padded x => (x, None)
    | Packed x lengths => (x, Some lengths)
    end in
  match shape x with
  | [n; t; i] =>
      if negb (i =? gru_input_size g) then Raise RuntimeError
      else if t <=? 0 then Raise RuntimeError
      else Ok (mkT [1; n; gru_hidden_size g] (gru_kernel g x lengths))
  | [t; i] =>
      if negb (i =? gru_input_size g) then Raise RuntimeError
      else if t <=? 0 then Raise RuntimeError
      else Ok (mkT [1; gru_hidden_size g] (gru_kernel g x lengths))
  | _ => Raise RuntimeError
  end.

(** [nn.utils.rnn.pack_padded_sequence(x, lengths, batch_first=True,
    enforce_sorted=False)] *)
Definition pack_padded_sequence (x : tensor F) (lengths : list Z)
  : result (gru_input F) :=
  match shape x with
  | n :: t :: _ =>
      if (len lengths =? n)
         && forallb (fun l => (0 <? l) && (l <=? t)) lengths
      then Ok (Packed x lengths)
      else Raise RuntimeError
  | _ => Raise RuntimeError
  end.

(** [nn.Linear(in_features, out_features, bias=False)] *)
Definition Linear_init (in_features out_features : Z) : result (Linear F) :=
  w <- alloc "Linear.weight"%string [out_features; in_features] ;;
  Ok (mkLinear in_features out_features w).

Definition Linear_forward (l : Linear F) (x : tensor F) : result (tensor F) :=
  let last := (length (shape x) - 1)%nat in
  match rev (shape x) with
  | d :: _ =>
      if d =? lin_in_features l then
        Ok (mkT (set_nth last (lin_out_features l) (shape x))
                (fun idx =>
                   fsum (lin_in_features l) (fun i =>
                     fmul (data x (set_nth last i idx))
                          (data (lin_weight l) [nth last idx 0; i]))))
      else Raise RuntimeError
  | [] => Raise RuntimeError
  end.

End Layers.

(** ** The classes of modules.py *)

(** The local variables of [MultiHeadAttention.forward]: the three
    projections, the chunk width, the per-head tensors, the scaled scores
    (line 119), the attention weights (line 120), the per-head outputs
    (line 123) and the returned tensor (line 124). *)
Record attention_locals (F : Type) : Type := mkLocals {
  loc_querys : tensor F;
  loc_keys : tensor F;
  loc_values : tensor F;
  loc_split_size : Z;
  loc_querys4 : tensor F;
  loc_keys4 : tensor F;
  loc_values4 : tensor F;
  loc_scaled : tensor F;
  loc_scores : tensor F;
  loc_out4 : tensor F;
  loc_out : tensor F
}.
Arguments mkLocals {F}.
Arguments loc_querys {F}.
Arguments loc_keys {F}.
Arguments loc_values {F}.
Arguments loc_split_size {F}.
Arguments loc_querys4 {F}.
Arguments loc_keys4 {F}.
Arguments loc_values4 {F}.
Arguments loc_scaled {F}.
Arguments loc_scores {F}.
Arguments loc_out4 {F}.
Arguments loc_out {F}.

Section Modules.
Context {F : Type} `{Numeric F}.

(** *** MultiHeadAttention (lines 90-126) *)

Definition MultiHeadAttention_init (query_dim key_dim num_units num_heads : Z)
  : M unit (MultiHeadAttention F) :=
  (called "MultiHeadAttention.__init__"%string ;;;
   wq <- lift (Linear_init query_dim num_units) ;;
   wk <- lift (Linear_init key_dim num_units) ;;
   wv <- lift (Linear_init key_dim num_units) ;;
   ret (mkMultiHeadAttention num_units num_heads key_dim wq wk wv))%M.

(** Lines 114-116: [torch.stack(torch.split(x, split_size, dim=2), dim=0)] *)
Definition split_heads (x : tensor F) (split_size : Z) : result (tensor F) :=
  chunks <- split x split_size 2 ;;
  stack0 chunks.

(** Lines 118-119: the scaled scores. *)
Definition attention_scores (self : MultiHeadAttention F)
           (querys keys : tensor F) : result (tensor F) :=
  keys_t <- transpose keys 2 3 ;;
  scores <- matmul querys keys_t ;;
  Ok (div_scalar scores (pow_half (key_dim self))).

(** Line 124: [torch.cat(torch.split(out, 1, dim=0), dim=3).squeeze(0)] *)
Definition merge_heads (out : tensor F) : result (tensor F) :=
  parts <- split out 1 0 ;;
  merged <- cat parts 3 ;;
  Ok (squeeze0 merged).

(** The body of [forward], returning every local variable at the
    [return] statement. *)
Definition MultiHeadAttention_locals (self : MultiHeadAttention F)
           (query key : tensor F) : result (attention_locals F) :=
  querys <- Linear_forward (W_query self) query ;;
  keys <- Linear_forward (W_key self) key ;;
  values <- Linear_forward (W_value self) key ;;
  split_size <- floordiv (num_units self) (num_heads self) ;;
  querys4 <- split_heads querys split_size ;;
  keys4 <- split_heads keys split_size ;;
  values4 <- split_heads values split_size ;;
  scaled <- attention_scores self querys4 keys4 ;;
  scores <- softmax scaled 3 ;;
  out4 <- matmul scores values4 ;;
  out <- merge_heads out4 ;;
  Ok (mkLocals querys keys values split_size querys4 keys4 values4
               scaled scores out4 out).

Definition MultiHeadAttention_forward (self : MultiHeadAttention F)
           (query key : tensor F) : result (tensor F) :=
  rmap loc_out (MultiHeadAttention_locals self query key).

(** Per-head scaled dot-product attention written index by index, on the
    projected tensors [q], [k], [v] of shape [N x T x num_units] and for
    head [h] of width [s]: the reference the tensor pipeline is compared
    with. *)
Definition head_score (self : MultiHeadAttention F) (q k : tensor F)
           (s h n i j : Z) : F :=
  fdiv (fsum s (fun c => fmul (data q [n; i; h * s + c])
                              (data k [n; j; h * s + c])))
       (pow_half (key_dim self)).

Definition head_weight (self : MultiHeadAttention F) (q k : tensor F)
           (s T_k h n i j : Z) : F :=
  nth (Z.to_nat j)
      (softmax_row (map (head_score self q k s h n i) (range T_k)))
      fzero.

Definition head_output (self : MultiHeadAttention F) (q k v : tensor F)
           (s T_k h n i c : Z) : F :=
  fsum T_k (fun j => fmul (head_weight self q k s T_k h n i j)
                          (data v [n; j; h * s + c])).

(** *** STL (lines 67-88) *)

Definition STL_init (hp : hparams) : M unit (STL F) :=
  (called "STL.__init__"%string ;;;
   d <- lift (floordiv (hp_token_embedding_size hp) (hp_num_heads hp)) ;;
   embed0 <- lift (alloc "STL.embed"%string [hp_token_num hp; d]) ;;
   let d_q := hp_ref_enc_gru_size hp in
   d_k <- lift (floordiv (hp_token_embedding_size hp) (hp_num_heads hp)) ;;
   att <- MultiHeadAttention_init d_q d_k (hp_token_embedding_size hp)
                                  (hp_num_heads hp) ;;
   let embed1 := mkT (shape embed0) (param_init "init.normal_"%string) in
   ret (mkSTL embed1 att))%M.

Definition STL_forward (inputs : tensor F) : M (STL F) (tensor F) :=
  (called "STL.forward"%string ;;;
   self <- get ;;
   N <- lift (size inputs 0) ;;
   query <- lift (unsqueeze inputs 1) ;;
   keys0 <- lift (unsqueeze (tanh (embed self)) 0) ;;
   keys <- lift (expand keys0 [N; -1; -1]) ;;
   called "MultiHeadAttention.forward"%string ;;;
   style_embed <- lift (MultiHeadAttention_forward (attention self) query keys) ;;
   ret style_embed)%M.

(** *** ReferenceEncoder (lines 6-65) *)

Definition ReferenceEncoder_init (hp : hparams) : M unit (ReferenceEncoder F) :=
  (called "ReferenceEncoder.__init__"%string ;;;
   let K := length (hp_ref_enc_filters hp) in
   let filters := 1 :: hp_ref_enc_filters hp in
   convs <- mapM (fun i => lift (Conv2d_init (nth i filters 0)
                                             (nth (S i) filters 0) 3 2 1))
                 (seq 0 K) ;;
   bns <- mapM (fun i => lift (BatchNorm2d_init
                                 (nth i (hp_ref_enc_filters hp) 0)))
               (seq 0 K) ;;
   called "ReferenceEncoder.calculate_channels"%string ;;;
   out_channels <- lift (calculate_channels (hp_n_mel_channels hp) 3 2 1
                                            (Z.of_nat K)) ;;
   last_filter <- lift (py_last (hp_ref_enc_filters hp)) ;;
   gru <- lift (GRU_init (last_filter * out_channels)
                         (hp_ref_enc_gru_size hp)) ;;
   ret (mkReferenceEncoder convs bns gru (hp_n_mel_channels hp)
                           (hp_ref_enc_gru_size hp)))%M.

(** Lines 43-46: the loop over [zip(self.convs, self.bns)]; the state is
    the list of batch-norm modules still to be visited. *)
Fixpoint conv_stack (cs : list (Conv2d F)) (out : tensor F)
  : M (list (BatchNorm2d F)) (tensor F) :=
  match cs with
  | [] => ret out
  | conv :: cs' =>
      (bs <- get ;;
       match bs with
       | [] => ret out
       | bn :: _ =>
           out1 <- lift (Conv2d_forward conv out) ;;
           out2 <- zoom (fun s => hd bn s) (fun b s => b :: tl s)
                        (BatchNorm2d_forward out1) ;;
           zoom (@tl _) (fun t s => hd bn s :: t)
                (conv_stack cs' (relu out2))
       end)%M
  end.

Definition set_bns (bs : list (BatchNorm2d F)) (self : ReferenceEncoder F)
  : ReferenceEncoder F :=
  mkReferenceEncoder (convs self) bs (gru self) (n_mel_channels self)
                     (ref_enc_gru_size self).

(** Lines 41-60, for a contiguous [inputs]; an input in another layout is
    the subject of [ReferenceEncoder_forward_strided].  [input_lengths] is
    a one-dimensional integer tensor, here a list;
    [torch.ceil(lengths.float() / 2 ** k)] followed by [astype(int)] is the
    integer ceiling.  [self.gru.flatten_parameters()] (line 58) re-lays out
    the weights in memory and changes no value. *)
Definition ReferenceEncoder_forward (inputs : tensor F)
           (input_lengths : option (list Z))
  : M (ReferenceEncoder F) (tensor F) :=
  (called "ReferenceEncoder.forward"%string ;;;
   self <- get ;;
   n <- lift (size inputs 0) ;;
   out <- lift (view inputs [n; 1; -1; n_mel_channels self]) ;;
   out <- zoom bns set_bns (conv_stack (convs self) out) ;;
   out <- lift (transpose out 1 2) ;;
   N <- lift (size out 0) ;;
   T <- lift (size out 1) ;;
   out <- lift (view out [N; T; -1]) ;;
   packed <- match input_lengths with
             | None => ret (Padded out)
             | Some lengths =>
                 k <- lift (py_len (ReferenceEncoder_class F) self) ;;
                 let lengths' := map (fun l => ceil_div l (2 ^ k)) lengths in
                 lift (pack_padded_sequence out lengths')
             end ;;
   h_n <- lift (GRU_forward (gru self) packed) ;;
   ret (squeeze0 h_n))%M.

(** *** GST (lines 128-138) *)

Definition GST_init (hp : hparams) : M unit (GST F) :=
  (called "GST.__init__"%string ;;;
   enc <- ReferenceEncoder_init hp ;;
   st <- STL_init hp ;;
   ret (mkGST enc st))%M.

Definition set_encoder (e : ReferenceEncoder F) (self : GST F) : GST F :=
  mkGST e (stl self).

Definition set_stl (s : STL F) (self : GST F) : GST F :=
  mkGST (encoder self) s.

Definition GST_forward (inputs : tensor F) (input_lengths : option (list Z))
  : M (GST F) (tensor F) :=
  (called "GST.forward"%string ;;;
   enc_out <- zoom encoder set_encoder
                   (ReferenceEncoder_forward inputs input_lengths) ;;
   style_embed <- zoom stl set_stl (STL_forward enc_out) ;;
   ret style_embed)%M.

(** The learned parameters ([nn.Parameter]s) of a model, in the order of
    [model.parameters()]; the running statistics and batch counters of the
    batch-norm layers are buffers, not parameters. *)
Definition Linear_parameters (l : Linear F) : list (tensor F) :=
  [lin_weight l].

Definition MultiHeadAttention_parameters (m : MultiHeadAttention F)
  : list (tensor F) :=
  Linear_parameters (W_query m) ++ Linear_parameters (W_key m)
  ++ Linear_parameters (W_value m).

Definition STL_parameters (s : STL F) : list (tensor F) :=
  embed s :: MultiHeadAttention_parameters (attention s).

Definition conv_parameters (c : Conv2d F) : list (tensor F) :=
  [conv_weight c; conv_bias c].

Definition bn_parameters (b : BatchNorm2d F) : list (tensor F) :=
  [bn_weight b; bn_bias b].

Definition ReferenceEncoder_parameters (e : ReferenceEncoder F)
  : list (tensor F) :=
  flat_map conv_parameters (convs e)
  ++ flat_map bn_parameters (bns e)
  ++ [gru_weight_ih (gru e); gru_weight_hh (gru e);
      gru_bias_ih (gru e); gru_bias_hh (gru e)].

Definition GST_parameters (g : GST F) : list (tensor F) :=
  ReferenceEncoder_parameters (encoder g) ++ STL_parameters (stl g).

End Modules.

(** Run a constructor: no object exists yet and the call log is empty. *)
Definition construct {A} (m : M unit A) : result A * log :=
  let '(r, _, l) := m tt [] in (r, l).

(** Run a method on an object: the result, the object afterwards, and the
    calls made. *)
Definition run {S A} (m : M S A) (self : S) : result A * S * log :=
  m self [].

(** ** Scenario of the specification *)

Definition scenario_hparams : hparams :=
  mkHparams [32; 32; 64; 64; 128; 128] 80 128 10 256 8.

(** Arithmetic erased: an instance that keeps shapes, exceptions, state
    updates and the call log, and nothing of the values. *)
#[export] Instance shape_only : Numeric unit := {
  fzero := tt;
  fone := tt;
  fadd := fun _ _ => tt;
  fmul := fun _ _ => tt;
  fdiv := fun _ _ => tt;
  frelu := fun _ => tt;
  ftanh := fun _ => tt;
  pow_half := fun _ => tt;
  softmax_row := fun r => r;
  param_init := fun _ _ => tt;
  conv2d_kernel := fun _ _ _ => tt;
  batch_norm_kernel := fun _ _ _ => tt;
  batch_norm_running_mean := fun _ _ _ => tt;
  batch_norm_running_var := fun _ _ _ => tt;
  gru_kernel := fun _ _ _ _ => tt
}.

(** A batch of the given shape with all-ones entries. *)
Definition ones {F} `{Numeric F} (s : list Z) : tensor F := full s fone.

(** ** Observations on a run *)

Definition outcome {S A} (o : result A * S * log) : result A := fst (fst o).

Definition final_state {S A} (o : result A * S * log) : S := snd (fst o).

Definition final_log {S A} (o : result A * S * log) : log := snd o.

(** A computation leaves an observation of the state unchanged. *)
Definition preserves {S A X} (obs : S -> X) (m : M S A) : Prop :=
  forall s l, obs (final_state (m s l)) = obs s.

(** A computation only appends calls taken from [allowed] to the log. *)
Definition logs_only {S A} (allowed : list String.string) (m : M S A) : Prop :=
  forall s l, exists k, final_log (m s l) = l ++ k /\ incl k allowed.

(** A computation never returns a value. *)
Definition always_raises {S A} (m : M S A) : Prop :=
  forall s l, exists e, outcome (m s l) = Raise e.

(** Number of calls to a method in a log. *)
Definition calls_to (name : String.string) (l : log) : nat :=
  count_occ String.string_dec l name.

(** Shape of the value returned by the top-level model built from [hp] and
    called once on [inputs]. *)
Definition GST_output_shape {F} `{Numeric F} (hp : hparams)
           (inputs : tensor F) (input_lengths : option (list Z))
  : result (list Z) :=
  g <- fst (construct (GST_init hp)) ;;
  rmap shape (outcome (run (GST_forward inputs input_lengths) g)).

(** Same for the sequence encoder alone. *)
Definition ReferenceEncoder_output_shape {F} `{Numeric F} (hp : hparams)
           (inputs : tensor F) (input_lengths : option (list Z))
  : result (list Z) :=
  e <- fst (construct (ReferenceEncoder_init hp)) ;;
  rmap shape (outcome (run (ReferenceEncoder_forward inputs input_lengths) e)).

(** ** Well-formed attention blocks

    What [MultiHeadAttention.__init__] establishes between the attributes
    of a block built for queries of width [query_dim], together with the
    configuration invariant of the specification: [num_heads] divides
    [num_units], the quotient being [split_size]. *)
Definition MultiHeadAttention_wf {F} (self : MultiHeadAttention F)
           (query_dim split_size : Z) : Prop :=
  lin_in_features (W_query self) = query_dim
  /\ lin_in_features (W_key self) = key_dim self
  /\ lin_in_features (W_value self) = key_dim self
  /\ lin_out_features (W_query self) = num_units self
  /\ lin_out_features (W_key self) = num_units self
  /\ lin_out_features (W_value self) = num_units self
  /\ 0 < num_heads self
  /\ 0 < split_size
  /\ num_units self = num_heads self * split_size.

(** Sizes with which the constructors succeed and every layer has at
    least one channel, apart from any divisibility. *)
Definition hparams_sizes_ok (hp : hparams) : Prop :=
  hp_ref_enc_filters hp <> []
  /\ Forall (fun f => 1 <= f) (hp_ref_enc_filters hp)
  /\ 1 <= hp_n_mel_channels hp
  /\ 0 < hp_ref_enc_gru_size hp
  /\ 0 <= hp_token_num hp
  /\ 0 <= hp_token_embedding_size hp
  /\ 0 < hp_num_heads hp.

(** Everything the pipeline of [MultiHeadAttention.forward] computes, index
    by index, for a batch of [N] examples with [T_q] query positions and
    [T_k] key positions and heads of width [s]. *)
Definition locals_spec {F} `{Numeric F} (self : MultiHeadAttention F)
           (N T_q T_k s : Z) (loc : attention_locals F) : Prop :=
  let heads := num_heads self in
  loc_split_size loc = s
  /\ shape (loc_querys loc) = [N; T_q; num_units self]
  /\ shape (loc_keys loc) = [N; T_k; num_units self]
  /\ shape (loc_values loc) = [N; T_k; num_units self]
  /\ shape (loc_querys4 loc) = [heads; N; T_q; s]
  /\ shape (loc_keys4 loc) = [heads; N; T_k; s]
  /\ shape (loc_values4 loc) = [heads; N; T_k; s]
  /\ shape (loc_scaled loc) = [heads; N; T_q; T_k]
  /\ shape (loc_scores loc) = [heads; N; T_q; T_k]
  /\ shape (loc_out4 loc) = [heads; N; T_q; s]
  /\ shape (loc_out loc) = [N; T_q; num_units self]
  /\ (forall h n i c, 0 <= h < heads ->
        data (loc_querys4 loc) [h; n; i; c]
        = data (loc_querys loc) [n; i; h * s + c])
  /\ (forall h n i c, 0 <= h < heads ->
        data (loc_keys4 loc) [h; n; i; c]
        = data (loc_keys loc) [n; i; h * s + c])
  /\ (forall h n i c, 0 <= h < heads ->
        data (loc_values4 loc) [h; n; i; c]
        = data (loc_values loc) [n; i; h * s + c])
  /\ (forall h n i j, 0 <= h < heads -> 0 <= n < N ->
        data (loc_scaled loc) [h; n; i; j]
        = head_score self (loc_querys loc) (loc_keys loc) s h n i j)
  /\ (forall h n i j, 0 <= h < heads -> 0 <= n < N ->
        data (loc_scores loc) [h; n; i; j]
        = head_weight self (loc_querys loc) (loc_keys loc) s T_k h n i j)
  /\ (forall h n i c, 0 <= h < heads -> 0 <= n < N ->
        data (loc_out4 loc) [h; n; i; c]
        = head_output self (loc_querys loc) (loc_keys loc) (loc_values loc)
                      s T_k h n i c)
  /\ (forall h n i c, 0 <= h < heads -> 0 <= c < s ->
        data (loc_out loc) [n; i; h * s + c]
        = data (loc_out4 loc) [h; n; i; c]).

(** ** Symbolic arithmetic

    The free instance: a scalar is the expression that computes it.  Two
    runs agree here exactly when they perform the same arithmetic on the
    same operands. *)
#[local] Unset Elimination Schemes.
Inductive sym : Type :=
| SZero
| SOne
| SAdd (a b : sym)
| SMul (a b : sym)
| SDiv (a b : sym)
| SRelu (a : sym)
| STanh (a : sym)
| SPowHalf (n : Z)
| SSoftmax (row : list sym) (j : nat)
| SInput (idx : list Z)
| SParam (name : String.string) (idx : list Z)
| SKernel (name : String.string) (idx : list Z).
#[local] Set Elimination Schemes.

#[export] Instance symbolic : Numeric sym := {
  fzero := SZero;
  fone := SOne;
  fadd := SAdd;
  fmul := SMul;
  fdiv := SDiv;
  frelu := SRelu;
  ftanh := STanh;
  pow_half := SPowHalf;
  softmax_row := fun r => map (SSoftmax r) (seq 0 (length r));
  param_init := SParam;
  conv2d_kernel := fun _ _ => SKernel "conv2d"%string;
  batch_norm_kernel := fun _ _ => SKernel "batch_norm"%string;
  batch_norm_running_mean := fun _ _ => SKernel "running_mean"%string;
  batch_norm_running_var := fun _ _ => SKernel "running_var"%string;
  gru_kernel := fun _ _ _ => SKernel "gru"%string
}.

(** A symbolic input tensor: entry [idx] is the symbol [SInput idx]. *)
Definition sym_input (s : list Z) : tensor sym := mkT s SInput.

(** ** Small concrete objects for the examples

    An attention block with 2 heads of width 4 whose keys have 5 features
    before projection, so that [key_dim] (5) differs from
    [num_units / num_heads] (4); a query batch and a key batch for it. *)
Definition example_block : MultiHeadAttention sym :=
  mkMultiHeadAttention 8 2 5
    (mkLinear 3 8 (mkT [8; 3] (SParam "W_query.weight"%string)))
    (mkLinear 5 8 (mkT [8; 5] (SParam "W_key.weight"%string)))
    (mkLinear 5 8 (mkT [8; 5] (SParam "W_value.weight"%string))).

Definition example_query : tensor sym := sym_input [2; 1; 3].

Definition example_key : tensor sym :=
  mkT [2; 4; 5] (SParam "key"%string).


(** ** Well-formed sequence encoders

    What [ReferenceEncoder.__init__] establishes: convolution [i] maps the
    channels of stage [i] to those of stage [i+1] with kernel 3, stride 2
    and padding 1, batch-norm [i] has the channels of stage [i+1], and the
    GRU is as wide as the last stage's channels times the collapsed
    frequency size. *)
Definition conv_ok {F} (c : Conv2d F) (cin cout : Z) : Prop :=
  conv_in_channels c = cin /\ conv_out_channels c = cout
  /\ conv_kernel_size c = 3 /\ conv_stride c = 2 /\ conv_padding c = 1.

Inductive stack_ok {F} : Z -> list (Conv2d F) -> list (BatchNorm2d F) -> Z
                         -> Prop :=
| stack_nil c : stack_ok c [] [] c
| stack_cons cin cmid cout conv bn cs bs :
    conv_ok conv cin cmid -> bn_num_features bn = cmid ->
    stack_ok cmid cs bs cout ->
    stack_ok cin (conv :: cs) (bn :: bs) cout.

(** Every convolution of a list has at least one output channel. *)
Definition channels_positive {F} (cs : list (Conv2d F)) : Prop :=
  Forall (fun c => 1 <= conv_out_channels c) cs.

Definition ReferenceEncoder_wf {F} (e : ReferenceEncoder F) : Prop :=
  exists channels_final,
    stack_ok 1 (convs e) (bns e) channels_final
    /\ 0 <= channels_final
    /\ 1 <= n_mel_channels e
    /\ gru_input_size (gru e)
       = channels_final
         * Nat.iter (length (convs e)) halve_stage (n_mel_channels e).

(** ** Further objects for the examples

    An attention block with 6 units and 4 heads: the chunk width is
    [6 // 4 = 1], which divides 6 although 4 does not. *)
Definition example_block_6_4 : MultiHeadAttention sym :=
  mkMultiHeadAttention 6 4 5
    (mkLinear 3 6 (mkT [6; 3] (SParam "W_query.weight"%string)))
    (mkLinear 5 6 (mkT [6; 5] (SParam "W_key.weight"%string)))
    (mkLinear 5 6 (mkT [6; 5] (SParam "W_value.weight"%string))).

(** A style-token layer around [example_block], with a bank of 4 tokens. *)
Definition example_stl : STL sym :=
  mkSTL (mkT [4; 5] (SParam "embed"%string)) example_block.

(** A batch regrouped: example [n] of the new batch is example [sigma n]
    of the old one. *)
Definition reindex_batch {F} (sigma : Z -> Z) (x : tensor F) : tensor F :=
  mkT (shape x)
      (fun idx => match idx with
                  | n :: rest => data x (sigma n :: rest)
                  | [] => data x []
                  end).

(** The same attention block with another head count. *)
Definition with_num_heads {F} (m : Z) (self : MultiHeadAttention F)
  : MultiHeadAttention F :=
  mkMultiHeadAttention (num_units self) m (key_dim self)
                       (W_query self) (W_key self) (W_value self).

(** A small configuration: two stride-2 stages with 2 and 3 channels on 5
    mel channels, a GRU of width 4, 3 tokens of total width 6, 2 heads. *)
Definition small_hparams : hparams := mkHparams [2; 3] 5 4 3 6 2.

(** ** The sequence handed to the GRU

    Lines 41-50 of [ReferenceEncoder.forward]: everything the method does
    before the lengths are looked at and the GRU is run. *)
Definition ReferenceEncoder_features {F} `{Numeric F} (inputs : tensor F)
  : M (ReferenceEncoder F) (tensor F) :=
  (called "ReferenceEncoder.forward"%string ;;;
   self <- get ;;
   n <- lift (size inputs 0) ;;
   out <- lift (view inputs [n; 1; -1; n_mel_channels self]) ;;
   out <- zoom bns set_bns (conv_stack (convs self) out) ;;
   out <- lift (transpose out 1 2) ;;
   N <- lift (size out 0) ;;
   T <- lift (size out 1) ;;
   lift (view out [N; T; -1]))%M.

(** ** Evaluation mode

    [module.eval()] clears the training flag of a module and of all its
    sub-modules; of the modules used here only batch normalisation reads
    the flag. *)
Definition BatchNorm2d_eval {F} (b : BatchNorm2d F) : BatchNorm2d F :=
  mkBatchNorm2d (bn_num_features b) false (bn_weight b) (bn_bias b)
                (bn_running_mean b) (bn_running_var b)
                (bn_num_batches_tracked b).

Definition ReferenceEncoder_eval {F} (e : ReferenceEncoder F)
  : ReferenceEncoder F :=
  mkReferenceEncoder (convs e) (map BatchNorm2d_eval (bns e)) (gru e)
                     (n_mel_channels e) (ref_enc_gru_size e).

Definition GST_eval {F} (g : GST F) : GST F :=
  mkGST (ReferenceEncoder_eval (encoder g)) (stl g).

(** What one call of a batch-norm layer does to its batch counter. *)
Definition counted {F} (b : BatchNorm2d F) : Z :=
  if bn_training b then bn_num_batches_tracked b + 1
  else bn_num_batches_tracked b.

(** ** Memory layout of the input

    A value of type [tensor] is a dense, row-major ("contiguous") tensor.
    The tensors the program computes are of this kind wherever [view] is
    applied to them: line 50 calls [.contiguous()] first.  The argument of
    [forward] is whatever the caller passes, and line 42 applies [view] to
    it as it is.  [view] never copies: it succeeds only if the requested
    sizes can be laid over the strides of its argument, and raises
    [RuntimeError] otherwise.  An input is therefore given below by its
    entries (a [tensor]) together with its strides. *)

(** Element count of a shape with empty dimensions counted as 1. *)
Definition dense_numel (s : list Z) : Z :=
  fold_right (fun d acc => Z.max d 1 * acc) 1 s.

(** Strides of the dense row-major layout of a shape. *)
Fixpoint contiguous_strides (s : list Z) : list Z :=
  match s with
  | [] => []
  | _ :: s' => dense_numel s' :: contiguous_strides s'
  end.

(** The inner loop of torch's stride computation for [view]: view
    dimensions (innermost first) are placed in the current chunk while the
    chunk is not full or the dimension has size 1.  Returns the dimensions
    left, the elements placed, and the strides given. *)
Fixpoint take_view (vs : list Z) (view_numel tensor_numel base : Z)
  : list Z * Z * list Z :=
  match vs with
  | [] => ([], view_numel, [])
  | v :: vs' =>
      if (view_numel <? tensor_numel) || (v =? 1) then
        let '(rest, vn, strs) :=
          take_view vs' (view_numel * v) tensor_numel base in
        (rest, vn, view_numel * base :: strs)
      else (vs, view_numel, [])
  end.

(** The outer loop: the dimensions of the tensor, innermost first, each
    with its stride, are grouped into chunks that are dense in memory; a
    chunk ends at the outermost dimension and wherever the next dimension
    has a size other than 1 and a stride other than the extent of the
    chunk.  Each chunk must be filled exactly by view dimensions. *)
Fixpoint compute_chunks (olds : list (Z * Z)) (vs : list Z)
         (base tensor_numel view_numel : Z) : option (list Z) :=
  match olds with
  | [] => match vs with [] => Some [] | _ :: _ => None end
  | (d, _) :: olds' =>
      let tn := tensor_numel * d in
      let chunk_end :=
        match olds' with
        | [] => true
        | (d', s') :: _ => negb (d' =? 1) && negb (s' =? tn * base)
        end in
      if chunk_end then
        let '(vs', vn, strs) := take_view vs view_numel tn base in
        if vn =? tn then
          let base' := match olds' with (_, s') :: _ => s' | [] => base end in
          option_map (app strs) (compute_chunks olds' vs' base' 1 1)
        else None
      else compute_chunks olds' vs base tn view_numel
  end.

(** [at::detail::computeStride]: the strides of the view of a tensor with
    sizes [oldshape] and strides [oldstride] under the sizes [newshape],
    if the view exists. *)
Definition computeStride (oldshape oldstride newshape : list Z)
  : option (list Z) :=
  match oldshape with
  | [] => Some (map (fun _ => 1) newshape)
  | _ :: _ =>
      if numel oldshape =? 0 then
        if shape_eqb oldshape newshape then Some oldstride
        else Some (contiguous_strides newshape)
      else
        option_map (@rev Z)
                   (compute_chunks (rev (combine oldshape oldstride))
                                   (rev newshape) (last oldstride 1) 1 1)
  end.

(** [x.view(req)] for a tensor with the given strides. *)
Definition view_strided {F} (strides : list Z) (x : tensor F) (req : list Z)
  : result (tensor F) :=
  s <- infer_size (numel (shape x)) req ;;
  match computeStride (shape x) strides s with
  | Some _ => Ok (mkT s (fun idx => data x (unravel (shape x) (ravel s idx))))
  | None => Raise RuntimeError
  end.

(** Lines 41-60 for an input with the given strides: as
    [ReferenceEncoder_forward], with the [view] of line 42 applied to the
    input in its own layout. *)
Definition ReferenceEncoder_forward_strided {F} `{Numeric F}
           (strides : list Z) (inputs : tensor F)
           (input_lengths : option (list Z))
  : M (ReferenceEncoder F) (tensor F) :=
  (called "ReferenceEncoder.forward"%string ;;;
   self <- get ;;
   n <- lift (size inputs 0) ;;
   out <- lift (view_strided strides inputs [n; 1; -1; n_mel_channels self]) ;;
   out <- zoom bns set_bns (conv_stack (convs self) out) ;;
   out <- lift (transpose out 1 2) ;;
   N <- lift (size out 0) ;;
   T <- lift (size out 1) ;;
   out <- lift (view out [N; T; -1]) ;;
   packed <- match input_lengths with
             | None => ret (Padded out)
             | Some lengths =>
                 k <- lift (py_len (ReferenceEncoder_class F) self) ;;
                 let lengths' := map (fun l => ceil_div l (2 ^ k)) lengths in
                 lift (pack_padded_sequence out lengths')
             end ;;
   h_n <- lift (GRU_forward (gru self) packed) ;;
   ret (squeeze0 h_n))%M.
Lemma ceil_div_exact a b : 0 < b -> (b | a) -> ceil_div a b = a / b.
Proof.
  intros Hb [q ->]. unfold ceil_div.
  rewrite <- Z.mul_opp_l, !Z.div_mul by lia. lia.
Qed.

Lemma ceil_div_spec a b :
  0 < b -> b * (ceil_div a b - 1) < a <= b * ceil_div a b.
Proof.
  intros Hb. unfold ceil_div.
  pose proof (Z.div_mod (- a) b ltac:(lia)).
  pose proof (Z.mod_pos_bound (- a) b Hb). nia.
Qed.

Lemma halve_stage_ceil L : halve_stage L = ceil_div L 2.
Proof.
  unfold halve_stage, ceil_div.
  pose proof (Z.div_mod (L - 3 + 2) 2 ltac:(lia)).
  pose proof (Z.mod_pos_bound (L - 3 + 2) 2 ltac:(lia)).
  pose proof (Z.div_mod (- L) 2 ltac:(lia)).
  pose proof (Z.mod_pos_bound (- L) 2 ltac:(lia)).
  lia.
Qed.

Lemma ceil_div_ceil_div a b c :
  0 < b -> 0 < c -> ceil_div (ceil_div a b) c = ceil_div a (b * c).
Proof.
  intros Hb Hc. unfold ceil_div.
  rewrite Z.opp_involutive, Z.div_div by lia. reflexivity.
Qed.

Lemma calculate_channels_loop_321 n L :
  calculate_channels_loop n L 3 2 1 = Ok (Nat.iter n halve_stage L).
Proof.
  revert L. induction n as [|n IH]; intros L.
  - reflexivity.
  - cbn [calculate_channels_loop]. unfold floordiv. cbn [Z.eqb rbind].
    rewrite IH. f_equal.
    change (L - 3 + 2 * 1) with (L - 3 + 2).
    fold (halve_stage L). symmetry. apply Nat.iter_succ_r.
Qed.

Lemma iter_halve_stage_ceil n L :
  Nat.iter n halve_stage L = ceil_div L (2 ^ Z.of_nat n).
Proof.
  induction n as [|n IH].
  - unfold ceil_div. change (2 ^ Z.of_nat 0) with 1.
    rewrite Z.div_1_r. simpl Nat.iter. lia.
  - rewrite Nat.iter_succ, IH, halve_stage_ceil.
    rewrite ceil_div_ceil_div by (try apply Z.pow_pos_nonneg; lia).
    f_equal. rewrite Nat2Z.inj_succ, Z.pow_succ_r by lia. lia.
Qed.

(** ** Laws of the state-and-exception monad *)

Section MonadLemmas.
Context {S : Type}.

Lemma preserves_ret {A X} (obs : S -> X) (a : A) : preserves obs (ret a).
Proof. intros s l. reflexivity. Qed.

Lemma preserves_lift {A X} (obs : S -> X) (r : result A) :
  preserves obs (lift r).
Proof. intros s l. reflexivity. Qed.

Lemma preserves_get {X} (obs : S -> X) : preserves obs get.
Proof. intros s l. reflexivity. Qed.

Lemma preserves_called {X} (obs : S -> X) name : preserves obs (called name).
Proof. intros s l. reflexivity. Qed.

Lemma preserves_bind {A B X} (obs : S -> X) (m : M S A) (k : A -> M S B) :
  preserves obs m -> (forall a, preserves obs (k a)) ->
  preserves obs (bind m k).
Proof.
  intros Hm Hk s l. unfold bind.
  specialize (Hm s l). destruct (m s l) as [[[a|e] s1] l1]; cbn in Hm.
  - rewrite Hk. exact Hm.
  - exact Hm.
Qed.

Lemma preserves_zoom {T A X Y} (obs : S -> X) (obsT : T -> Y)
      (proj : S -> T) (upd : T -> S -> S) (m : M T A) :
  preserves obsT m ->
  (forall s t, obsT t = obsT (proj s) -> obs (upd t s) = obs s) ->
  preserves obs (zoom proj upd m).
Proof.
  intros Hm Hupd s l. unfold zoom.
  specialize (Hm (proj s) l). destruct (m (proj s) l) as [[r t'] l'].
  cbn in *. apply Hupd. exact Hm.
Qed.

Lemma logs_only_ret {A} allowed (a : A) : logs_only (S:=S) allowed (ret a).
Proof.
  intros s l. exists []. split; [symmetry; apply app_nil_r | easy].
Qed.

Lemma logs_only_lift {A} allowed (r : result A) :
  logs_only (S:=S) allowed (lift r).
Proof.
  intros s l. exists []. split; [symmetry; apply app_nil_r | easy].
Qed.

Lemma logs_only_get allowed : logs_only (S:=S) allowed get.
Proof.
  intros s l. exists []. split; [symmetry; apply app_nil_r | easy].
Qed.

Lemma logs_only_called allowed name :
  In name allowed -> logs_only (S:=S) allowed (called name).
Proof.
  intros Hin s l. exists [name]. split; [reflexivity|].
  intros x [<-|[]]. exact Hin.
Qed.

Lemma logs_only_bind {A B} allowed (m : M S A) (k : A -> M S B) :
  logs_only allowed m -> (forall a, logs_only allowed (k a)) ->
  logs_only allowed (bind m k).
Proof.
  intros Hm Hk s l. unfold bind.
  destruct (Hm s l) as (k1 & E1 & I1).
  destruct (m s l) as [[[a|e] s1] l1]; cbn in E1; subst l1.
  - destruct (Hk a s1 (l ++ k1)) as (k2 & E2 & I2).
    exists (k1 ++ k2). rewrite E2, app_assoc. split; [reflexivity|].
    apply incl_app; assumption.
  - exists k1. split; [reflexivity | assumption].
Qed.

Lemma logs_only_zoom {T A} allowed (proj : S -> T) (upd : T -> S -> S)
      (m : M T A) :
  logs_only allowed m -> logs_only allowed (zoom proj upd m).
Proof.
  intros Hm s l. unfold zoom.
  destruct (Hm (proj s) l) as (k & E & I).
  destruct (m (proj s) l) as [[r t'] l']. exists k. split; assumption.
Qed.

Lemma always_raises_bind_l {A B} (m : M S A) (k : A -> M S B) :
  always_raises m -> always_raises (bind m k).
Proof.
  intros Hm s l. unfold bind. destruct (Hm s l) as (e & E).
  destruct (m s l) as [[[a|e'] s1] l1]; cbn in E; [discriminate|].
  exists e'. reflexivity.
Qed.

Lemma always_raises_bind_r {A B} (m : M S A) (k : A -> M S B) :
  (forall a, always_raises (k a)) -> always_raises (bind m k).
Proof.
  intros Hk s l. unfold bind.
  destruct (m s l) as [[[a|e'] s1] l1].
  - apply Hk.
  - exists e'. reflexivity.
Qed.

Lemma mapM_lift {A B} (f : A -> result B) (xs : list A) (s : S) (l : log) :
  mapM (fun a => lift (f a)) xs s l = (mapR f xs, s, l).
Proof.
  induction xs as [|a xs IH]; cbn [mapM mapR].
  - reflexivity.
  - unfold bind, lift at 1. destruct (f a) as [b|e]; [|reflexivity].
    rewrite IH. cbn [rbind]. destruct (mapR f xs); reflexivity.
Qed.

End MonadLemmas.

Lemma calls_to_app name l k :
  calls_to name (l ++ k) = (calls_to name l + calls_to name k)%nat.
Proof. apply count_occ_app. Qed.

Lemma calls_to_not_allowed name allowed k :
  incl k allowed -> ~ In name allowed -> calls_to name k = 0%nat.
Proof.
  intros Hincl Hnot. apply count_occ_not_In. intros Hin.
  apply Hnot, Hincl, Hin.
Qed.

(** ** calculate_channels *)

(** C10: for every integer [L >= 1] and [n >= 0],
    [calculate_channels(L, 3, 2, 1, n)] returns (it is a total function) and
    its value is the ceiling of [L / 2^n]: the least [c] with
    [L <= 2^n * c]; it is also the result of [n] ceiling-halvings of [L]. *)
Theorem calculate_channels_ceil (L n : Z) :
  1 <= L -> 0 <= n ->
  calculate_channels L 3 2 1 n = Ok (ceil_div L (2 ^ n))
  /\ 2 ^ n * (ceil_div L (2 ^ n) - 1) < L <= 2 ^ n * ceil_div L (2 ^ n)
  /\ ceil_div L (2 ^ n) = Nat.iter (Z.to_nat n) (fun x => ceil_div x 2) L.
Proof.
  intros HL Hn.
  assert (Hpow : 0 < 2 ^ n) by (apply Z.pow_pos_nonneg; lia).
  unfold calculate_channels.
  rewrite calculate_channels_loop_321, iter_halve_stage_ceil.
  rewrite Z2Nat.id by lia.
  split; [reflexivity|]. split; [apply ceil_div_spec; exact Hpow|].
  rewrite <- (Z2Nat.id n) at 1 by lia.
  rewrite <- iter_halve_stage_ceil.
  generalize (Z.to_nat n) as k. intros k. induction k as [|k IH].
  - reflexivity.
  - rewrite !Nat.iter_succ, IH. apply halve_stage_ceil.
Qed.

Lemma calculate_channels_ceil_witness :
  calculate_channels 80 3 2 1 6 = Ok (ceil_div 80 (2 ^ 6))
  /\ 2 ^ 6 * (ceil_div 80 (2 ^ 6) - 1) < 80 <= 2 ^ 6 * ceil_div 80 (2 ^ 6)
  /\ ceil_div 80 (2 ^ 6) = Nat.iter (Z.to_nat 6) (fun x => ceil_div x 2) 80.
Proof. apply (calculate_channels_ceil 80 6); lia. Defined.

(** ** Frame properties of the forward pass *)

Section Frame.
Context {F : Type} `{Numeric F}.

Lemma BatchNorm2d_forward_parameters (x : tensor F) :
  preserves bn_parameters (BatchNorm2d_forward x).
Proof.
  intros b l. unfold BatchNorm2d_forward, bind, get, put, ret, lift.
  destruct (shape x) as [|n [|c [|h [|w [|? ?]]]]]; try reflexivity.
  destruct (bn_training b); cbn [andb negb final_state fst snd].
  - destruct (n * (h * w) =? 1); [reflexivity|].
    destruct (c =? bn_num_features b); reflexivity.
  - destruct (c =? bn_num_features b); reflexivity.
Qed.

Lemma conv_stack_parameters (cs : list (Conv2d F)) :
  forall out, preserves (flat_map bn_parameters) (conv_stack cs out).
Proof.
  induction cs as [|conv cs IH]; intros out bs l.
  - reflexivity.
  - cbn [conv_stack]. unfold bind at 1, get.
    destruct bs as [|bn bs']; [reflexivity|].
    unfold bind at 1, lift at 1.
    destruct (Conv2d_forward conv out) as [out1|e]; [|reflexivity].
    unfold bind, zoom. cbn [hd tl].
    pose proof (BatchNorm2d_forward_parameters out1 bn l) as Hbn.
    destruct (BatchNorm2d_forward out1 bn l) as [[[out2|e] bn'] l1];
      cbn [final_state fst snd hd tl] in Hbn |- *.
    + specialize (IH (relu out2) bs' l1).
      destruct (conv_stack cs (relu out2) bs' l1) as [[r bs2] l2].
      cbn [final_state fst snd hd] in IH |- *.
      change (flat_map bn_parameters (bn' :: bs2))
        with (bn_parameters bn' ++ flat_map bn_parameters bs2).
      rewrite IH, Hbn. reflexivity.
    + cbn [flat_map]. rewrite Hbn. reflexivity.
Qed.

Lemma ReferenceEncoder_forward_parameters inputs input_lengths :
  preserves ReferenceEncoder_parameters
            (ReferenceEncoder_forward inputs input_lengths).
Proof.
  unfold ReferenceEncoder_forward.
  apply preserves_bind; [apply preserves_called|intros _].
  apply preserves_bind; [apply preserves_get|intros self].
  apply preserves_bind; [apply preserves_lift|intros n].
  apply preserves_bind; [apply preserves_lift|intros out].
  apply preserves_bind.
  { apply preserves_zoom with (obsT := flat_map bn_parameters).
    - apply conv_stack_parameters.
    - intros s t Ht. unfold ReferenceEncoder_parameters, set_bns.
      cbn [convs bns gru]. rewrite Ht. reflexivity. }
  intros out1.
  apply preserves_bind; [apply preserves_lift|intros out2].
  apply preserves_bind; [apply preserves_lift|intros N].
  apply preserves_bind; [apply preserves_lift|intros T].
  apply preserves_bind; [apply preserves_lift|intros out3].
  apply preserves_bind.
  { destruct input_lengths as [lengths|]; [|apply preserves_ret].
    apply preserves_bind; [apply preserves_lift|intros k].
    apply preserves_lift. }
  intros packed.
  apply preserves_bind; [apply preserves_lift|intros h_n].
  apply preserves_ret.
Qed.

Lemma STL_forward_parameters inputs :
  preserves (fun s : STL F => s) (STL_forward inputs).
Proof.
  unfold STL_forward.
  repeat (apply preserves_bind;
          [first [apply preserves_called | apply preserves_get
                 | apply preserves_lift] | intros ?]).
  apply preserves_ret.
Qed.

(** C9: a forward pass leaves every learned parameter unchanged: whatever
    the input, the optional lengths and the outcome, the parameters of the
    model after [GST.forward] are those before the call; the style-token
    layer (token bank and the three projections) is left untouched
    altogether. *)
Theorem GST_forward_preserves_parameters
        (inputs : tensor F) (input_lengths : option (list Z)) (g : GST F) :
  GST_parameters (final_state (run (GST_forward inputs input_lengths) g))
  = GST_parameters g
  /\ stl (final_state (run (GST_forward inputs input_lengths) g)) = stl g.
Proof.
  assert (Hp : preserves (fun g : GST F => (GST_parameters g, stl g))
                         (GST_forward inputs input_lengths)).
  { unfold GST_forward.
    apply preserves_bind; [apply preserves_called|intros _].
    apply preserves_bind.
    { apply preserves_zoom with (obsT := ReferenceEncoder_parameters).
      - apply ReferenceEncoder_forward_parameters.
      - intros s t Ht. unfold GST_parameters, set_encoder.
        cbn [encoder stl]. rewrite Ht. reflexivity. }
    intros enc_out.
    apply preserves_bind; [|intros ?; apply preserves_ret].
    apply preserves_zoom with (obsT := fun s : STL F => s).
    - apply STL_forward_parameters.
    - intros s t ->. destruct s; reflexivity. }
  specialize (Hp g []). unfold run.
  split; [exact (f_equal fst Hp) | exact (f_equal snd Hp)].
Qed.

(** The buffers are not part of that frame: a batch-norm layer in training
    mode counts every batch it is called on. *)
Lemma BatchNorm2d_forward_counts (x : tensor F) (b : BatchNorm2d F) l
      n c h w :
  shape x = [n; c; h; w] -> bn_training b = true ->
  bn_num_batches_tracked (final_state (BatchNorm2d_forward x b l))
  = bn_num_batches_tracked b + 1.
Proof.
  intros Hx Ht. unfold BatchNorm2d_forward, bind, get, put, ret, lift.
  rewrite Hx, Ht. cbn [andb].
  destruct (n * (h * w) =? 1); [reflexivity|].
  destruct (c =? bn_num_features b); reflexivity.
Qed.

(** ** Calls with lengths *)

Lemma ReferenceEncoder_forward_lengths_always_raises inputs lengths :
  always_raises (ReferenceEncoder_forward (F:=F) inputs (Some lengths)).
Proof.
  unfold ReferenceEncoder_forward.
  do 9 (apply always_raises_bind_r; intros ?).
  apply always_raises_bind_l, always_raises_bind_l.
  intros s l. exists TypeError. reflexivity.
Qed.

(** When the same call without lengths returns, the call with lengths
    fails at [len(self)]. *)
Lemma ReferenceEncoder_forward_lengths_TypeError inputs lengths self out :
  outcome (run (ReferenceEncoder_forward inputs None) self) = Ok out ->
  outcome (run (ReferenceEncoder_forward inputs (Some lengths)) self)
  = Raise TypeError.
Proof.
  unfold run, ReferenceEncoder_forward, bind, called, get, lift, ret.
  destruct (size inputs 0) as [n|]; [|discriminate].
  destruct (view inputs _) as [o1|]; [|discriminate].
  destruct (zoom bns set_bns _ _ _) as [[[o2|] s1] l1]; [|discriminate].
  destruct (transpose o2 1 2) as [o3|]; [|discriminate].
  destruct (size o3 0) as [N|]; [|discriminate].
  destruct (size o3 1) as [T|]; [|discriminate].
  destruct (view o3 _) as [o4|]; [|discriminate].
  intros _. reflexivity.
Qed.

End Frame.

(** C3 (the code departs from it): on the scenario model, a batch
    [2 x 50 x 80] with lengths [50; 50] does not get its lengths divided
    and packed: the call raises [TypeError] at [len(self)], for every
    arithmetic; and no call with lengths ever returns a value. *)
Theorem ReferenceEncoder_forward_lengths_raise :
  (forall F (NF : Numeric F),
      GST_output_shape scenario_hparams (ones [2; 50; 80]) (Some [50; 50])
      = Raise TypeError
      /\ ReferenceEncoder_output_shape scenario_hparams (ones [2; 50; 80])
                                       (Some [50; 50])
         = Raise TypeError)
  /\ (forall F (NF : Numeric F) inputs lengths (self : ReferenceEncoder F),
         exists e,
           outcome (run (ReferenceEncoder_forward inputs (Some lengths)) self)
           = Raise e).
Proof.
  split.
  - intros F NF. split; vm_compute; reflexivity.
  - intros F NF inputs lengths self.
    apply ReferenceEncoder_forward_lengths_always_raises.
Qed.

(** ** Construction of the sequence encoder *)

Section Construction.
Context {F : Type} `{Numeric F}.

Lemma ReferenceEncoder_forward_logs inputs input_lengths :
  logs_only ["ReferenceEncoder.forward"%string]
            (ReferenceEncoder_forward (F:=F) inputs input_lengths).
Proof.
  assert (Hcs : forall cs out, logs_only ["ReferenceEncoder.forward"%string]
                                    (conv_stack (F:=F) cs out)).
  { induction cs as [|conv cs IH]; intros out; cbn [conv_stack].
    - apply logs_only_ret.
    - apply logs_only_bind; [apply logs_only_get|intros bs].
      destruct bs as [|bn bs']; [apply logs_only_ret|].
      apply logs_only_bind; [apply logs_only_lift|intros out1].
      apply logs_only_bind.
      + apply logs_only_zoom. intros b l.
        exists []. split; [|easy]. rewrite app_nil_r.
        unfold BatchNorm2d_forward, bind, get, put, ret, lift.
        destruct (shape out1) as [|n [|c [|h [|w [|? ?]]]]]; try reflexivity.
        destruct (bn_training b); cbn [andb negb];
          repeat match goal with
                 | |- context [if ?c then _ else _] => destruct c
                 end; reflexivity.
      + intros out2. apply logs_only_zoom, IH. }
  unfold ReferenceEncoder_forward.
  apply logs_only_bind; [apply logs_only_called; left; reflexivity|intros _].
  apply logs_only_bind; [apply logs_only_get|intros self].
  apply logs_only_bind; [apply logs_only_lift|intros n].
  apply logs_only_bind; [apply logs_only_lift|intros out].
  apply logs_only_bind; [apply logs_only_zoom, Hcs|intros out1].
  do 4 (apply logs_only_bind; [apply logs_only_lift|intros ?]).
  apply logs_only_bind.
  { destruct input_lengths as [lengths|]; [|apply logs_only_ret].
    apply logs_only_bind; [apply logs_only_lift|intros k].
    apply logs_only_lift. }
  intros packed.
  apply logs_only_bind; [apply logs_only_lift|intros h_n].
  apply logs_only_ret.
Qed.

Lemma ReferenceEncoder_forward_gru inputs input_lengths :
  preserves (fun e : ReferenceEncoder F => (gru e, convs e, n_mel_channels e))
            (ReferenceEncoder_forward inputs input_lengths).
Proof.
  unfold ReferenceEncoder_forward.
  apply preserves_bind; [apply preserves_called|intros _].
  apply preserves_bind; [apply preserves_get|intros self].
  apply preserves_bind; [apply preserves_lift|intros n].
  apply preserves_bind; [apply preserves_lift|intros out].
  apply preserves_bind.
  { apply preserves_zoom with (obsT := fun _ : list (BatchNorm2d F) => tt).
    - intros s l. reflexivity.
    - intros s t _. reflexivity. }
  intros out1.
  do 4 (apply preserves_bind; [apply preserves_lift|intros ?]).
  apply preserves_bind.
  { destruct input_lengths as [lengths|]; [|apply preserves_ret].
    apply preserves_bind; [apply preserves_lift|intros k].
    apply preserves_lift. }
  intros packed.
  apply preserves_bind; [apply preserves_lift|intros h_n].
  apply preserves_ret.
Qed.

Lemma ReferenceEncoder_init_inv (hp : hparams) (enc : ReferenceEncoder F) l :
  construct (ReferenceEncoder_init hp) = (Ok enc, l) ->
  exists cs bs channels_final g,
    mapR (fun i => Conv2d_init (nth i (1 :: hp_ref_enc_filters hp) 0)
                                (nth (S i) (1 :: hp_ref_enc_filters hp) 0) 3 2 1)
         (seq 0 (length (hp_ref_enc_filters hp))) = Ok cs
    /\ mapR (fun i => BatchNorm2d_init (nth i (hp_ref_enc_filters hp) 0))
            (seq 0 (length (hp_ref_enc_filters hp))) = Ok bs
    /\ py_last (hp_ref_enc_filters hp) = Ok channels_final
    /\ GRU_init (channels_final
                 * Nat.iter (length (hp_ref_enc_filters hp)) halve_stage
                            (hp_n_mel_channels hp))
                (hp_ref_enc_gru_size hp) = Ok g
    /\ enc = mkReferenceEncoder cs bs g (hp_n_mel_channels hp)
                                (hp_ref_enc_gru_size hp)
    /\ l = ["ReferenceEncoder.__init__"%string;
            "ReferenceEncoder.calculate_channels"%string].
Proof.
  unfold construct, ReferenceEncoder_init.
  unfold bind at 1, called at 1. cbn [app].
  unfold bind at 1. rewrite mapM_lift.
  destruct (mapR (fun i => Conv2d_init _ _ _ _ _) _) as [cs|] eqn:Ecs; [|cbn; intros [=]].
  unfold bind at 1. rewrite mapM_lift.
  destruct (mapR (fun i => BatchNorm2d_init _) _) as [bs|] eqn:Ebs; [|cbn; intros [=]].
  unfold bind at 1, called at 1. cbn [app].
  unfold bind at 1, lift at 1.
  unfold calculate_channels.
  rewrite calculate_channels_loop_321, Nat2Z.id.
  unfold bind at 1, lift at 1.
  destruct (py_last _) as [channels_final|] eqn:Elast; [|cbn; intros [=]].
  unfold bind at 1, lift at 1.
  destruct (GRU_init _ _) as [g|] eqn:Eg; [|cbn; intros [=]].
  unfold ret. intros [= <- <-].
  exists cs, bs, channels_final, g. repeat split; assumption || reflexivity.
Qed.

(** C6: the collapsed frequency size is computed by the one call to
    [calculate_channels] that [ReferenceEncoder.__init__] makes: it is the
    stage [L := floor((L - 3 + 2)/2) + 1] iterated K times from
    [n_mel_channels]; the GRU is built with input width (last filter count)
    x (that size); a forward call makes no call to [calculate_channels] and
    leaves the GRU, hence its width, as constructed. *)
Theorem ReferenceEncoder_init_gru_width
        (hp : hparams) (enc : ReferenceEncoder F) (l : log) :
  construct (ReferenceEncoder_init hp) = (Ok enc, l) ->
  (exists channels_final,
      py_last (hp_ref_enc_filters hp) = Ok channels_final
      /\ gru_input_size (gru enc)
         = channels_final
           * Nat.iter (length (hp_ref_enc_filters hp)) halve_stage
                      (hp_n_mel_channels hp))
  /\ calls_to "ReferenceEncoder.calculate_channels" l = 1%nat
  /\ (forall inputs input_lengths (self : ReferenceEncoder F),
         calls_to "ReferenceEncoder.calculate_channels"
                  (final_log (run (ReferenceEncoder_forward inputs
                                                            input_lengths)
                                  self)) = 0%nat
         /\ gru (final_state (run (ReferenceEncoder_forward inputs
                                                            input_lengths)
                                  self)) = gru self).
Proof.
  intros Hc.
  destruct (ReferenceEncoder_init_inv hp enc l Hc)
    as (cs & bs & channels_final & g & _ & _ & Hlast & Hg & -> & ->).
  split; [|split].
  - exists channels_final. split; [exact Hlast|].
    cbn [gru]. unfold GRU_init in Hg.
    destruct (channels_final * _ <=? 0); [discriminate|].
    destruct (hp_ref_enc_gru_size hp <=? 0); [discriminate|].
    cbn [rbind] in Hg.
    repeat match type of Hg with
           | context [alloc ?n ?s] => destruct (alloc n s); cbn [rbind] in Hg
           end; try discriminate.
    injection Hg as <-. reflexivity.
  - reflexivity.
  - intros inputs input_lengths self. split.
    + destruct (ReferenceEncoder_forward_logs inputs input_lengths self [])
        as (k & Ek & Hk).
      unfold run. rewrite Ek.
      apply (calls_to_not_allowed _ _ _ Hk).
      intros [E|[]]. discriminate E.
    + pose proof (ReferenceEncoder_forward_gru inputs input_lengths self [])
        as Hg'.
      unfold run. congruence.
Qed.

End Construction.

Lemma ReferenceEncoder_init_gru_width_witness :
  exists enc l,
    construct (ReferenceEncoder_init (F:=unit) scenario_hparams) = (Ok enc, l)
    /\ gru_input_size (gru enc) = 256
    /\ calls_to "ReferenceEncoder.calculate_channels" l = 1%nat.
Proof.
  eexists. eexists. split; [reflexivity|].
  match goal with
  | |- gru_input_size (gru ?enc) = _ /\ calls_to _ ?l = _ =>
      destruct (ReferenceEncoder_init_gru_width
                  scenario_hparams enc l eq_refl)
        as ((c & Hlast & Hw) & Hcalls & _)
  end.
  split; [|exact Hcalls].
  rewrite Hw. injection Hlast as <-. reflexivity.
Defined.

(** ** Ranges and sums *)

Lemma range_length n : length (range n) = Z.to_nat n.
Proof. unfold range. rewrite length_map, length_seq. reflexivity. Qed.

Lemma In_range i n : In i (range n) <-> 0 <= i < n.
Proof.
  unfold range. rewrite in_map_iff. split.
  - intros (k & <- & Hk). apply in_seq in Hk. lia.
  - intros Hi. exists (Z.to_nat i). split; [lia|]. apply in_seq. lia.
Qed.

Lemma nth_range i n d : 0 <= i < n -> nth (Z.to_nat i) (range n) d = i.
Proof.
  intros Hi. unfold range.
  rewrite (nth_indep _ d (Z.of_nat 0)) by (rewrite length_map, length_seq; lia).
  rewrite map_nth, seq_nth by lia. lia.
Qed.

Lemma nth_map_range {A} (f : Z -> A) i n d :
  0 <= i < n -> nth (Z.to_nat i) (map f (range n)) d = f i.
Proof.
  intros Hi.
  rewrite (nth_indep _ d (f 0)) by (rewrite length_map, range_length; lia).
  rewrite map_nth, nth_range by lia. reflexivity.
Qed.

Lemma range_pos_cons n : 0 < n -> exists l, range n = 0 :: l.
Proof.
  intros Hn. unfold range.
  destruct (Z.to_nat n) as [|k] eqn:E; [lia|].
  cbn [seq map]. eexists. reflexivity.
Qed.

Section Sums.
Context {F : Type} `{Numeric F}.

Lemma fsum_ext n (f g : Z -> F) :
  (forall c, 0 <= c < n -> f c = g c) -> fsum n f = fsum n g.
Proof.
  intros Hfg. unfold fsum.
  assert (Hin : forall c, In c (range n) -> f c = g c)
    by (intros c Hc; apply Hfg, In_range, Hc).
  revert Hin. generalize (range n) as l. generalize fzero as acc.
  intros acc l. revert acc. induction l as [|c l IH]; intros acc Hin.
  - reflexivity.
  - cbn [fold_left]. rewrite (Hin c) by (left; reflexivity).
    apply IH. intros c' Hc'. apply Hin. right. exact Hc'.
Qed.

End Sums.

(** ** Index-level behaviour of the tensor operations *)

Lemma shape_eqb_refl s : shape_eqb s s = true.
Proof.
  unfold shape_eqb. rewrite Nat.eqb_refl. cbn [andb].
  induction s as [|d s IH]; [reflexivity|].
  cbn [combine forallb fst snd]. rewrite Z.eqb_refl. exact IH.
Qed.

Lemma in_range_bcast d i : 0 <= i < d -> (if d =? 1 then 0 else i) = i.
Proof. intros Hi. destruct (Z.eqb_spec d 1); lia. Qed.

Section OpLemmas.
Context {F : Type} `{Numeric F}.

(** Splitting a dimension of size [heads * s] into chunks of [s]. *)
Lemma num_splits_exact heads s :
  0 < heads -> 0 < s -> Z.max ((heads * s + s - 1) / s) 1 = heads.
Proof.
  intros Hh Hs.
  replace (heads * s + s - 1) with (s - 1 + heads * s) by lia.
  rewrite Z.div_add, Z.div_small by lia. lia.
Qed.

Lemma split_dim2_exact (x : tensor F) a b heads s :
  shape x = [a; b; heads * s] -> 0 < heads -> 0 < s ->
  split x s 2
  = Ok (map (fun h => mkT [a; b; s]
                          (fun idx => data x (set_nth 2 (h * s + nth 2 idx 0)
                                                      idx)))
            (range heads)).
Proof.
  intros Hx Hh Hs. unfold split. rewrite Hx. cbn [nth_error].
  destruct (Z.ltb_spec s 0); [lia|].
  destruct (Z.eqb_spec s 0); [lia|]. cbn [andb].
  rewrite num_splits_exact by assumption.
  f_equal. apply map_ext. intros h. f_equal.
  cbn [set_nth]. destruct (h <? heads - 1); do 3 f_equal; lia.
Qed.

Lemma split_dim0_by1 (x : tensor F) heads n t s :
  shape x = [heads; n; t; s] -> 0 < heads ->
  split x 1 0
  = Ok (map (fun h => mkT [1; n; t; s]
                          (fun idx => data x (set_nth 0 (h * 1 + nth 0 idx 0)
                                                      idx)))
            (range heads)).
Proof.
  intros Hx Hh. unfold split. rewrite Hx. cbn [nth_error Z.ltb Z.eqb andb Z.compare].
  replace (Z.max ((heads + 1 - 1) / 1) 1) with heads
    by (rewrite Z.div_1_r; lia).
  f_equal. apply map_ext. intros h. f_equal.
  cbn [set_nth]. destruct (h <? heads - 1); f_equal; lia.
Qed.

Lemma stack0_map_range (g : Z -> tensor F) heads sh :
  0 < heads -> (forall h, shape (g h) = sh) ->
  exists t,
    stack0 (map g (range heads)) = Ok t
    /\ shape t = heads :: sh
    /\ forall h idx, 0 <= h < heads -> data t (h :: idx) = data (g h) idx.
Proof.
  intros Hh Hg. unfold stack0.
  destruct (range_pos_cons heads Hh) as (l & El).
  assert (Hlen : len (map g (range heads)) = heads)
    by (unfold len; rewrite length_map, range_length; lia).
  destruct (map g (range heads)) as [|t0 ts] eqn:E.
  { rewrite El in E. discriminate. }
  assert (Hall : forallb (fun t => shape_eqb (shape t) (shape t0)) (t0 :: ts)
                 = true).
  { apply forallb_forall. intros t Ht. rewrite <- E in Ht.
    apply in_map_iff in Ht. destruct Ht as (h & <- & _).
    assert (Ht0 : shape t0 = sh).
    { rewrite El in E. cbn [map] in E. injection E as <- _. apply Hg. }
    rewrite Hg, Ht0. apply shape_eqb_refl. }
  rewrite Hall. eexists. split; [reflexivity|]. cbn [shape data].
  split.
  - rewrite Hlen. f_equal. rewrite El in E. cbn [map] in E.
    injection E as <- _. apply Hg.
  - intros h idx Hhr. cbn [hd tl]. rewrite <- E.
    rewrite nth_map_range by assumption. reflexivity.
Qed.

Lemma split_heads_spec (x : tensor F) a b heads s :
  shape x = [a; b; heads * s] -> 0 < heads -> 0 < s ->
  exists t,
    split_heads x s = Ok t
    /\ shape t = [heads; a; b; s]
    /\ forall h n i c, 0 <= h < heads ->
                       data t [h; n; i; c] = data x [n; i; h * s + c].
Proof.
  intros Hx Hh Hs. unfold split_heads.
  rewrite (split_dim2_exact x a b heads s Hx Hh Hs). cbn [rbind].
  destruct (stack0_map_range
              (fun h => mkT [a; b; s]
                            (fun idx => data x (set_nth 2 (h * s + nth 2 idx 0)
                                                        idx)))
              heads [a; b; s] Hh (fun _ => eq_refl))
    as (t & Et & Hsh & Hd).
  exists t. split; [exact Et|]. split; [exact Hsh|].
  intros h n i c Hhr. rewrite Hd by assumption. reflexivity.
Qed.

Lemma transpose23_spec (x : tensor F) a b c d :
  shape x = [a; b; c; d] ->
  exists t,
    transpose x 2 3 = Ok t
    /\ shape t = [a; b; d; c]
    /\ forall h n i j, data t [h; n; i; j] = data x [h; n; j; i].
Proof.
  intros Hx. unfold transpose. rewrite Hx. cbn [length Nat.ltb Nat.leb andb].
  eexists. split; [reflexivity|]. split; reflexivity.
Qed.

Lemma matmul4_spec (x y : tensor F) heads n m k p :
  shape x = [heads; n; m; k] -> shape y = [heads; n; k; p] ->
  exists t,
    matmul x y = Ok t
    /\ shape t = [heads; n; m; p]
    /\ forall h b i j, 0 <= h < heads -> 0 <= b < n ->
         data t [h; b; i; j]
         = fsum k (fun c => fmul (data x [h; b; i; c]) (data y [h; b; c; j])).
Proof.
  intros Hx Hy. unfold matmul. rewrite Hx, Hy.
  cbn [length Nat.ltb Nat.leb orb Nat.sub firstn nth].
  rewrite Z.eqb_refl. unfold broadcast_shapes.
  cbn [rev app broadcast_rev rbind rmap]. rewrite !Z.eqb_refl.
  cbn [rbind rev app].
  eexists. split; [reflexivity|]. split; [reflexivity|].
  intros h b i j Hh Hb. cbn [data length Nat.sub firstn nth].
  unfold bcast_index. cbn [length Nat.sub skipn combine map fst snd app].
  rewrite !in_range_bcast by assumption. reflexivity.
Qed.

Lemma softmax3_spec (x : tensor F) a b c d :
  shape x = [a; b; c; d] ->
  exists t,
    softmax x 3 = Ok t
    /\ shape t = [a; b; c; d]
    /\ forall h n i j,
         data t [h; n; i; j]
         = nth (Z.to_nat j)
               (softmax_row (map (fun j' => data x [h; n; i; j']) (range d)))
               fzero.
Proof.
  intros Hx. unfold softmax. rewrite Hx. cbn [nth_error].
  eexists. split; [reflexivity|]. split; reflexivity.
Qed.


Lemma cat_locate_uniform (g : Z -> tensor F) s t0 (m : nat) :
  (forall h, nth 3 (shape (g h)) 0 = s) ->
  forall k j c, (j < m)%nat -> 0 <= c < s ->
    cat_locate (map g (map Z.of_nat (seq k m))) 3 (Z.of_nat j * s + c) t0
    = (g (Z.of_nat (k + j)), c).
Proof.
  intros Hg. induction m as [|m IH]; intros k j c Hj Hc; [lia|].
  cbn [seq map cat_locate]. rewrite Hg.
  destruct j as [|j].
  - replace (Z.of_nat 0 * s + c) with c by lia.
    destruct (Z.ltb_spec c s); [|lia]. rewrite Nat.add_0_r. reflexivity.
  - destruct (Z.ltb_spec (Z.of_nat (S j) * s + c) s); [nia|].
    replace (Z.of_nat (S j) * s + c - s) with (Z.of_nat j * s + c) by lia.
    rewrite IH by lia. do 2 f_equal. lia.
Qed.

Lemma sum_uniform (g : Z -> tensor F) s (l : list Z) :
  (forall h, nth 3 (shape (g h)) 0 = s) ->
  fold_right Z.add 0 (map (fun t => nth 3 (shape t) 0) (map g l))
  = Z.of_nat (length l) * s.
Proof.
  intros Hg. induction l as [|h l IH]; [reflexivity|].
  cbn [map fold_right length]. rewrite IH, Hg. lia.
Qed.

Lemma merge_heads_spec (out : tensor F) heads n t s :
  shape out = [heads; n; t; s] -> 0 < heads ->
  exists r,
    merge_heads out = Ok r
    /\ shape r = [n; t; heads * s]
    /\ forall h b i c, 0 <= h < heads -> 0 <= c < s ->
         data r [b; i; h * s + c] = data out [h; b; i; c].
Proof.
  intros Hout Hh. unfold merge_heads.
  rewrite (split_dim0_by1 out heads n t s Hout Hh). cbn [rbind].
  set (g := fun h => mkT [1; n; t; s]
                         (fun idx => data out (set_nth 0 (h * 1 + nth 0 idx 0)
                                                       idx))).
  assert (Hg : forall h, nth 3 (shape (g h)) 0 = s) by reflexivity.
  unfold cat.
  destruct (range_pos_cons heads Hh) as (l & El).
  destruct (map g (range heads)) as [|t0 ts] eqn:E.
  { rewrite El in E. discriminate. }
  assert (Ht0 : t0 = g 0).
  { rewrite El in E. cbn [map] in E. injection E as <- _. reflexivity. }
  assert (Hrank : Nat.ltb 3 (length (shape t0)) = true)
    by (rewrite Ht0; reflexivity).
  rewrite Hrank. cbn [negb].
  assert (Hall : forallb (fun x => shape_eqb (set_nth 3 0 (shape x))
                                             (set_nth 3 0 (shape t0)))
                         (t0 :: ts) = true).
  { apply forallb_forall. intros x Hx. rewrite <- E in Hx.
    apply in_map_iff in Hx. destruct Hx as (h & <- & _).
    rewrite Ht0. apply shape_eqb_refl. }
  rewrite Hall. cbn [rbind].
  rewrite <- E, (sum_uniform g s (range heads) Hg), range_length.
  rewrite Z2Nat.id by lia. rewrite Ht0.
  unfold squeeze0. cbn [shape g set_nth]. cbn [Z.eqb Pos.eqb].
  eexists. split; [reflexivity|]. split; [reflexivity|].
  intros h b i c Hhr Hc. cbn [data nth].
  unfold range.
  replace (h * s + c) with (Z.of_nat (Z.to_nat h) * s + c)
    by (rewrite Z2Nat.id by lia; reflexivity).
  rewrite (cat_locate_uniform g s (g 0) (Z.to_nat heads) Hg 0 (Z.to_nat h) c)
    by lia.
  cbn [g data set_nth nth Nat.add]. do 2 f_equal. lia.
Qed.

End OpLemmas.

Section Attention.
Context {F : Type} `{Numeric F}.

Lemma Linear_forward_spec (l : Linear F) (x : tensor F) a b :
  shape x = [a; b; lin_in_features l] ->
  exists t,
    Linear_forward l x = Ok t
    /\ shape t = [a; b; lin_out_features l]
    /\ forall n i j,
         data t [n; i; j]
         = fsum (lin_in_features l)
                (fun c => fmul (data x [n; i; c]) (data (lin_weight l) [j; c])).
Proof.
  intros Hx. unfold Linear_forward. rewrite Hx.
  cbn [rev app length Nat.sub]. rewrite Z.eqb_refl.
  eexists. split; [reflexivity|]. split; reflexivity.
Qed.

Lemma MultiHeadAttention_locals_spec (self : MultiHeadAttention F)
      (query key : tensor F) (query_dim s N T_q T_k : Z) :
  MultiHeadAttention_wf self query_dim s ->
  shape query = [N; T_q; query_dim] ->
  shape key = [N; T_k; key_dim self] ->
  exists loc,
    MultiHeadAttention_locals self query key = Ok loc
    /\ locals_spec self N T_q T_k s loc.
Proof.
  intros (Hqi & Hki & Hvi & Hqo & Hko & Hvo & Hh & Hs & HU) Hq Hk.
  unfold MultiHeadAttention_locals.
  rewrite <- Hqi in Hq.
  destruct (Linear_forward_spec (W_query self) query N T_q Hq)
    as (q3 & -> & Sq3 & _).
  assert (Hk' := Hk). rewrite <- Hki in Hk'.
  destruct (Linear_forward_spec (W_key self) key N T_k Hk')
    as (k3 & -> & Sk3 & _).
  rewrite <- Hvi in Hk.
  destruct (Linear_forward_spec (W_value self) key N T_k Hk)
    as (v3 & -> & Sv3 & _).
  cbn [rbind]. unfold floordiv.
  destruct (Z.eqb_spec (num_heads self) 0) as [|_]; [lia|].
  cbn [rbind].
  assert (Hdiv : num_units self / num_heads self = s).
  { rewrite HU, Z.mul_comm. apply Z.div_mul. lia. }
  rewrite Hdiv.
  rewrite Hqo, HU in Sq3. rewrite Hko, HU in Sk3. rewrite Hvo, HU in Sv3.
  destruct (split_heads_spec q3 N T_q _ s Sq3 Hh Hs) as (q4 & -> & Sq4 & Dq4).
  destruct (split_heads_spec k3 N T_k _ s Sk3 Hh Hs) as (k4 & -> & Sk4 & Dk4).
  destruct (split_heads_spec v3 N T_k _ s Sv3 Hh Hs) as (v4 & -> & Sv4 & Dv4).
  cbn [rbind]. unfold attention_scores.
  destruct (transpose23_spec k4 _ _ _ _ Sk4) as (kt & -> & Skt & Dkt).
  cbn [rbind].
  destruct (matmul4_spec q4 kt _ _ _ _ _ Sq4 Skt) as (raw & -> & Sraw & Draw).
  cbn [rbind].
  set (scaled := div_scalar raw (pow_half (key_dim self))).
  assert (Sscaled : shape scaled = [num_heads self; N; T_q; T_k])
    by exact Sraw.
  destruct (softmax3_spec scaled _ _ _ _ Sscaled) as (sc & -> & Ssc & Dsc).
  cbn [rbind].
  destruct (matmul4_spec sc v4 _ _ _ _ _ Ssc Sv4) as (o4 & -> & So4 & Do4).
  cbn [rbind].
  destruct (merge_heads_spec o4 _ _ _ _ So4 Hh) as (o & -> & So & Do).
  cbn [rbind].
  eexists. split; [reflexivity|].
  assert (Dscaled : forall h n i j, 0 <= h < num_heads self -> 0 <= n < N ->
            data scaled [h; n; i; j] = head_score self q3 k3 s h n i j).
  { intros h n i j Hhr Hn. unfold scaled, div_scalar, map_tensor, head_score.
    cbn [data]. rewrite Draw by assumption. f_equal.
    apply fsum_ext. intros c _. rewrite Dq4, Dkt, Dk4 by assumption.
    reflexivity. }
  assert (Dscores : forall h n i j, 0 <= h < num_heads self -> 0 <= n < N ->
            data sc [h; n; i; j] = head_weight self q3 k3 s T_k h n i j).
  { intros h n i j Hhr Hn. rewrite Dsc. unfold head_weight. do 2 f_equal.
    apply map_ext. intros j'. apply Dscaled; assumption. }
  unfold locals_spec.
  cbn [loc_split_size loc_querys loc_keys loc_values loc_querys4 loc_keys4
       loc_values4 loc_scaled loc_scores loc_out4 loc_out].
  rewrite <- HU in Sq3, Sk3, Sv3, So.
  repeat (split; [first [reflexivity | assumption]|]).
  split; [|exact Do].
  intros h n i c Hhr Hn. rewrite Do4 by assumption. unfold head_output.
  apply fsum_ext. intros j _. rewrite Dscores, Dv4 by assumption.
  reflexivity.
Qed.

End Attention.

Section StyleTokens.
Context {F : Type} `{Numeric F}.

Lemma alloc_inv name s (t : tensor F) :
  alloc name s = Ok t -> shape t = s /\ Forall (fun d => 0 <= d) s.
Proof.
  unfold alloc. destruct (forallb _ s) eqn:E; [|discriminate].
  intros [= <-]. split; [reflexivity|].
  apply Forall_forall. intros d Hd.
  rewrite forallb_forall in E. specialize (E d Hd). lia.
Qed.

Lemma alloc_ok name s :
  Forall (fun d => 0 <= d) s -> alloc (F:=F) name s = Ok (mkT s (param_init name)).
Proof.
  intros Hs. unfold alloc.
  replace (forallb (fun d => 0 <=? d) s) with true; [reflexivity|].
  symmetry. apply forallb_forall. intros d Hd.
  rewrite Forall_forall in Hs. specialize (Hs d Hd). lia.
Qed.

Lemma Linear_init_inv i o (l : Linear F) :
  Linear_init i o = Ok l ->
  lin_in_features l = i /\ lin_out_features l = o
  /\ shape (lin_weight l) = [o; i].
Proof.
  unfold Linear_init. destruct (alloc _ _) as [w|] eqn:E; [|discriminate].
  cbn [rbind]. intros [= <-]. cbn.
  repeat split. apply (alloc_inv _ _ _ E).
Qed.

Lemma STL_init_inv (hp : hparams) (st : STL F) l :
  construct (STL_init hp) = (Ok st, l) ->
  let m := attention st in
  let d := hp_token_embedding_size hp / hp_num_heads hp in
  hp_num_heads hp <> 0
  /\ shape (embed st) = [hp_token_num hp; d]
  /\ num_units m = hp_token_embedding_size hp
  /\ num_heads m = hp_num_heads hp
  /\ key_dim m = d
  /\ lin_in_features (W_query m) = hp_ref_enc_gru_size hp
  /\ lin_in_features (W_key m) = d
  /\ lin_in_features (W_value m) = d
  /\ lin_out_features (W_query m) = hp_token_embedding_size hp
  /\ lin_out_features (W_key m) = hp_token_embedding_size hp
  /\ lin_out_features (W_value m) = hp_token_embedding_size hp
  /\ l = ["STL.__init__"%string; "MultiHeadAttention.__init__"%string].
Proof.
  unfold construct, STL_init, MultiHeadAttention_init, floordiv.
  unfold bind, called, lift, ret. cbn [app].
  destruct (Z.eqb_spec (hp_num_heads hp) 0) as [|Hh]; [intros [=]|].
  destruct (alloc _ _) as [e0|] eqn:Ee; [|intros [=]].
  destruct (Linear_init (hp_ref_enc_gru_size hp)
                        (hp_token_embedding_size hp)) as [wq|] eqn:Eq;
    [|intros [=]].
  destruct (Linear_init (hp_token_embedding_size hp / hp_num_heads hp)
                        (hp_token_embedding_size hp)) as [wk|] eqn:Ek;
    [|intros [=]].
  intros [= <- <-]. cbn.
  apply alloc_inv in Ee. apply Linear_init_inv in Eq, Ek.
  intuition.
Qed.

Lemma expand_batch (x : tensor F) N a b :
  shape x = [1; a; b] -> 0 <= N ->
  expand x [N; -1; -1]
  = Ok (mkT [N; a; b] (fun idx => data x (bcast_index [1; a; b] idx))).
Proof.
  intros Hx HN. unfold expand. rewrite Hx.
  cbn [length Nat.ltb Nat.leb Nat.sub firstn skipn forallb].
  cbn [expand_dims]. change (-1 =? -1) with true. cbn [rbind].
  destruct (Z.eqb_spec N (-1)); [lia|].
  destruct (Z.eqb_spec N 1) as [->|_]; [reflexivity|].
  change (1 =? 1) with true. cbn [andb].
  destruct (Z.leb_spec 0 N); [reflexivity|lia].
Qed.

Lemma STL_forward_spec (st : STL F) (inputs : tensor F) (N D T_k s : Z) :
  MultiHeadAttention_wf (attention st) D s ->
  shape (embed st) = [T_k; key_dim (attention st)] ->
  shape inputs = [N; D] -> 0 <= N ->
  exists query keys loc,
    run (STL_forward inputs) st
    = (Ok (loc_out loc), st,
       ["STL.forward"%string; "MultiHeadAttention.forward"%string])
    /\ shape query = [N; 1; D]
    /\ shape keys = [N; T_k; key_dim (attention st)]
    /\ (forall n j c, data query [n; j; c] = data inputs [n; c])
    /\ (forall n j c, 0 <= j < T_k -> 0 <= c < key_dim (attention st) ->
          data keys [n; j; c] = ftanh (data (embed st) [j; c]))
    /\ MultiHeadAttention_locals (attention st) query keys = Ok loc
    /\ locals_spec (attention st) N 1 T_k s loc.
Proof.
  intros Hwf He Hin HN.
  set (query := mkT [N; 1; D] (fun idx => data inputs (remove_at 1 idx))).
  assert (Hq : unsqueeze inputs 1 = Ok query).
  { unfold unsqueeze. rewrite Hin. reflexivity. }
  set (keys0 := mkT [1; T_k; key_dim (attention st)]
                    (fun idx => data (tanh (embed st)) (remove_at 0 idx))).
  assert (Hk0 : unsqueeze (tanh (embed st)) 0 = Ok keys0).
  { unfold unsqueeze, tanh, map_tensor. cbn [shape]. rewrite He. reflexivity. }
  set (keys := mkT [N; T_k; key_dim (attention st)]
                   (fun idx => data keys0
                                    (bcast_index [1; T_k; key_dim (attention st)]
                                                 idx))).
  assert (Hk : expand keys0 [N; -1; -1] = Ok keys)
    by (apply expand_batch; [reflexivity|exact HN]).
  destruct (MultiHeadAttention_locals_spec (attention st) query keys D s N 1 T_k
              Hwf eq_refl eq_refl) as (loc & Hloc & Hspec).
  exists query, keys, loc.
  split.
  { unfold run, STL_forward, bind, called, get, lift, ret. cbn [app].
    unfold size. rewrite Hin. cbn [nth_error]. rewrite Hq, Hk0, Hk.
    unfold MultiHeadAttention_forward. rewrite Hloc. reflexivity. }
  split; [reflexivity|]. split; [reflexivity|].
  split; [reflexivity|]. split; [|split; assumption].
  intros n j c Hj Hc. unfold keys, keys0, bcast_index.
  cbn [data length Nat.sub skipn combine map fst snd remove_at tanh
       map_tensor].
  rewrite !in_range_bcast by assumption. reflexivity.
Qed.


Lemma STL_init_wf (hp : hparams) (st : STL F) l s :
  construct (STL_init hp) = (Ok st, l) ->
  hp_token_embedding_size hp = hp_num_heads hp * s ->
  0 < s -> 0 < hp_num_heads hp ->
  MultiHeadAttention_wf (attention st) (hp_ref_enc_gru_size hp) s
  /\ shape (embed st) = [hp_token_num hp; key_dim (attention st)]
  /\ num_units (attention st) = hp_token_embedding_size hp.
Proof.
  intros Hc HE Hs Hh.
  destruct (STL_init_inv hp st l Hc)
    as (_ & He & HU & Hn & Hkd & Hqi & Hki & Hvi & Hqo & Hko & Hvo & _).
  unfold MultiHeadAttention_wf.
  rewrite Hqi, Hki, Hvi, Hqo, Hko, Hvo, HU, Hn, Hkd, He.
  repeat split; assumption || reflexivity.
Qed.

End StyleTokens.

(** ** The attention block, index by index *)

(** C5: in [MultiHeadAttention.forward], for every head [h] the scores
    before softmax are the dot products of the head-[h] slices of the
    projected queries and keys divided by [key_dim ** 0.5], where [key_dim]
    is the attribute of the block, the width of the keys before projection
    (the input width of [W_key]), whatever [num_units / num_heads] is;
    softmax runs over the key positions; the result weights the head-[h]
    slices of the projected values.  The block that [STL] builds has
    [key_dim = token_embedding_size // num_heads], the width of its token
    bank. *)
Theorem attention_scores_scaled_by_key_dim :
  (forall F (NF : Numeric F) (self : MultiHeadAttention F)
          (query key : tensor F) (query_dim s N T_q T_k : Z),
      MultiHeadAttention_wf self query_dim s ->
      shape query = [N; T_q; query_dim] ->
      shape key = [N; T_k; key_dim self] ->
      exists loc,
        MultiHeadAttention_locals self query key = Ok loc
        /\ key_dim self = lin_in_features (W_key self)
        /\ (forall h n i j, 0 <= h < num_heads self -> 0 <= n < N ->
              data (loc_scaled loc) [h; n; i; j]
              = fdiv (fsum s (fun c =>
                        fmul (data (loc_querys loc) [n; i; h * s + c])
                             (data (loc_keys loc) [n; j; h * s + c])))
                     (pow_half (key_dim self)))
        /\ (forall h n i j, 0 <= h < num_heads self -> 0 <= n < N ->
              data (loc_scores loc) [h; n; i; j]
              = nth (Z.to_nat j)
                    (softmax_row
                       (map (fun j' => data (loc_scaled loc) [h; n; i; j'])
                            (range T_k)))
                    fzero)
        /\ (forall h n i c, 0 <= h < num_heads self -> 0 <= n < N ->
              data (loc_out4 loc) [h; n; i; c]
              = fsum T_k (fun j =>
                  fmul (data (loc_scores loc) [h; n; i; j])
                       (data (loc_values loc) [n; j; h * s + c]))))
  /\ (forall F (NF : Numeric F) (hp : hparams) (st : STL F) l,
         construct (STL_init hp) = (Ok st, l) ->
         key_dim (attention st)
         = hp_token_embedding_size hp / hp_num_heads hp
         /\ lin_in_features (W_key (attention st)) = key_dim (attention st)
         /\ shape (embed st) = [hp_token_num hp; key_dim (attention st)]).
Proof.
  split.
  - intros F NF self query key query_dim s N T_q T_k Hwf Hq Hk.
    destruct (MultiHeadAttention_locals_spec self query key query_dim s N T_q
                T_k Hwf Hq Hk) as (loc & Hloc & Hspec).
    destruct Hspec as (_ & _ & _ & _ & _ & _ & _ & _ & _ & _ & _ & _ & _
                       & Dv4 & Dscaled & Dscores & Dout4 & _).
    destruct Hwf as (_ & Hki & _).
    exists loc. split; [exact Hloc|]. split; [symmetry; exact Hki|].
    split; [|split].
    + intros h n i j Hh Hn. rewrite Dscaled by assumption. reflexivity.
    + intros h n i j Hh Hn. rewrite Dscores by assumption.
      unfold head_weight. do 2 f_equal. apply map_ext. intros j'.
      symmetry. apply Dscaled; assumption.
    + intros h n i c Hh Hn. rewrite Dout4 by assumption.
      unfold head_output. apply fsum_ext. intros j _.
      rewrite Dscores by assumption. reflexivity.
  - intros F NF hp st l Hc.
    destruct (STL_init_inv hp st l Hc)
      as (_ & He & _ & _ & Hkd & _ & Hki & _).
    rewrite Hkd, Hki, He. repeat split; reflexivity.
Qed.

Lemma example_block_wf : MultiHeadAttention_wf example_block 3 4.
Proof. unfold MultiHeadAttention_wf. cbn. repeat split; lia. Qed.

Lemma attention_scores_scaled_by_key_dim_witness :
  exists loc,
    MultiHeadAttention_locals example_block example_query example_key = Ok loc
    /\ (exists dot, data (loc_scaled loc) [1; 0; 0; 2] = SDiv dot (SPowHalf 5))
    /\ num_units example_block / num_heads example_block = 4.
Proof.
  destruct (proj1 attention_scores_scaled_by_key_dim sym symbolic
                  example_block example_query example_key 3 4 2 1 4
                  example_block_wf eq_refl eq_refl)
    as (loc & Hloc & _ & Hscaled & _).
  exists loc. split; [exact Hloc|]. split; [|reflexivity].
  eexists. apply Hscaled; cbn; lia.
Defined.

(** C7: [MultiHeadAttention.forward] cuts the projected feature axis into
    [num_heads] contiguous chunks of [num_units / num_heads] features,
    chunk [h] going to head [h]; the returned tensor has shape
    [N x T_q x num_units] and its features [h*s .. (h+1)*s) are the
    attention result of head [h], which is computed from the head-[h]
    chunks alone. *)
Theorem attention_heads_concatenated
        {F} `{Numeric F} (self : MultiHeadAttention F)
        (query key : tensor F) (query_dim s N T_q T_k : Z) :
  MultiHeadAttention_wf self query_dim s ->
  shape query = [N; T_q; query_dim] ->
  shape key = [N; T_k; key_dim self] ->
  exists loc,
    MultiHeadAttention_locals self query key = Ok loc
    /\ MultiHeadAttention_forward self query key = Ok (loc_out loc)
    /\ loc_split_size loc = s
    /\ s = num_units self / num_heads self
    /\ shape (loc_querys4 loc) = [num_heads self; N; T_q; s]
    /\ shape (loc_keys4 loc) = [num_heads self; N; T_k; s]
    /\ shape (loc_values4 loc) = [num_heads self; N; T_k; s]
    /\ (forall h n i c, 0 <= h < num_heads self ->
          data (loc_querys4 loc) [h; n; i; c]
          = data (loc_querys loc) [n; i; h * s + c]
          /\ data (loc_keys4 loc) [h; n; i; c]
             = data (loc_keys loc) [n; i; h * s + c]
          /\ data (loc_values4 loc) [h; n; i; c]
             = data (loc_values loc) [n; i; h * s + c])
    /\ shape (loc_out loc) = [N; T_q; num_units self]
    /\ (forall h n i c, 0 <= h < num_heads self -> 0 <= c < s ->
          data (loc_out loc) [n; i; h * s + c]
          = data (loc_out4 loc) [h; n; i; c])
    /\ (forall h n i c, 0 <= h < num_heads self -> 0 <= n < N ->
          data (loc_out4 loc) [h; n; i; c]
          = head_output self (loc_querys loc) (loc_keys loc)
                        (loc_values loc) s T_k h n i c).
Proof.
  intros Hwf Hq Hk.
  destruct (MultiHeadAttention_locals_spec self query key query_dim s N T_q
              T_k Hwf Hq Hk) as (loc & Hloc & Hspec).
  destruct Hspec as (Hs & _ & _ & _ & Sq4 & Sk4 & Sv4 & _ & _ & _ & So
                     & Dq4 & Dk4 & Dv4 & _ & _ & Dout4 & Dout).
  destruct Hwf as (_ & _ & _ & _ & _ & _ & Hh & Hspos & HU).
  exists loc. split; [exact Hloc|].
  split; [unfold MultiHeadAttention_forward; rewrite Hloc; reflexivity|].
  split; [exact Hs|].
  split; [rewrite HU, Z.mul_comm, Z.div_mul by lia; reflexivity|].
  repeat (split; [assumption|]).
  split; [|split; [exact So|split; assumption]].
  intros h n i c Hhr. rewrite Dq4, Dk4, Dv4 by assumption.
  repeat split; reflexivity.
Qed.

Lemma attention_heads_concatenated_witness :
  exists out,
    MultiHeadAttention_forward example_block example_query example_key = Ok out
    /\ shape out = [2; 1; 8].
Proof.
  destruct (attention_heads_concatenated
              example_block example_query example_key 3 4 2 1 4
              example_block_wf eq_refl eq_refl)
    as (loc & _ & Hfwd & _ & _ & _ & _ & _ & _ & So & _).
  exists (loc_out loc). split; [exact Hfwd | exact So].
Defined.

(** ** Shape of the style embedding *)

(** C1 (as amended): [STL.forward] returns the attention output as it is,
    the singleton query-time dimension still there: for a layer built from
    a configuration whose [num_heads] divides [token_embedding_size], and a
    batch of [N] query vectors, the result has shape
    [N x 1 x token_embedding_size] and the layer is unchanged; under the
    scenario configuration a batch [2 x 50 x 80] gives a top-level output
    of shape [2 x 1 x 256], whatever the arithmetic. *)
Theorem STL_forward_keeps_query_time_dimension :
  (forall F (NF : Numeric F) (hp : hparams) (st : STL F) l
          (inputs : tensor F) (N s : Z),
      construct (STL_init hp) = (Ok st, l) ->
      hp_token_embedding_size hp = hp_num_heads hp * s ->
      0 < s -> 0 < hp_num_heads hp ->
      shape inputs = [N; hp_ref_enc_gru_size hp] -> 0 <= N ->
      exists query keys out,
        run (STL_forward inputs) st
        = (Ok out, st,
           ["STL.forward"%string; "MultiHeadAttention.forward"%string])
        /\ shape query = [N; 1; hp_ref_enc_gru_size hp]
        /\ MultiHeadAttention_forward (attention st) query keys = Ok out
        /\ shape out = [N; 1; hp_token_embedding_size hp])
  /\ (forall F (NF : Numeric F),
         GST_output_shape scenario_hparams (ones [2; 50; 80]) None
         = Ok [2; 1; 256]).
Proof.
  split.
  - intros F NF hp st l inputs N s Hc HE Hs Hh Hin HN.
    destruct (STL_init_wf hp st l s Hc HE Hs Hh) as (Hwf & He & HU).
    destruct (STL_forward_spec st inputs N _ _ s Hwf He Hin HN)
      as (query & keys & loc & Hrun & Sq & _ & _ & _ & Hloc & Hspec).
    exists query, keys, (loc_out loc).
    split; [exact Hrun|]. split; [exact Sq|].
    split; [unfold MultiHeadAttention_forward; rewrite Hloc; reflexivity|].
    destruct Hspec as (_ & _ & _ & _ & _ & _ & _ & _ & _ & _ & So & _).
    rewrite So, HU. reflexivity.
  - intros F NF. vm_compute. reflexivity.
Qed.

Lemma STL_forward_keeps_query_time_dimension_witness :
  exists st l out,
    construct (STL_init (F:=sym) scenario_hparams) = (Ok st, l)
    /\ outcome (run (STL_forward (sym_input [2; 128])) st) = Ok out
    /\ shape out = [2; 1; 256].
Proof.
  eexists. eexists.
  match goal with
  | |- exists out, ?c = (Ok ?st, ?l) /\ _ =>
      assert (Hc : c = (Ok st, l)) by reflexivity;
      destruct (proj1 STL_forward_keeps_query_time_dimension sym symbolic
                      scenario_hparams st l (sym_input [2; 128]) 2 32
                      Hc eq_refl eq_refl eq_refl eq_refl
                      ltac:(discriminate))
        as (query & keys & out & Hrun & _ & _ & So)
  end.
  exists out. split; [reflexivity|]. split; [|exact So].
  unfold outcome. rewrite Hrun. reflexivity.
Defined.

(** C1 as stated fails: under the scenario configuration the output for a
    batch of two examples has three dimensions, [2 x 1 x 256], not
    [2 x 256]. *)
Lemma GST_scenario_output_not_squeezed :
  GST_output_shape (F:=unit) scenario_hparams (ones [2; 50; 80]) None
  = Ok [2; 1; 256]
  /\ GST_output_shape (F:=unit) scenario_hparams (ones [2; 50; 80]) None
     <> Ok [2; 256].
Proof. split; [vm_compute; reflexivity | vm_compute; discriminate]. Qed.

(** ** Shapes through the sequence encoder *)

Section Encoder.
Context {F : Type} `{Numeric F}.

Lemma halve_stage_pos L : 1 <= L -> 1 <= halve_stage L.
Proof.
  intros HL. unfold halve_stage.
  assert (0 <= (L - 3 + 2) / 2) by (apply Z.div_pos; lia). lia.
Qed.

Lemma iter_halve_stage_pos n L : 1 <= L -> 1 <= Nat.iter n halve_stage L.
Proof.
  intros HL. induction n as [|n IH]; [exact HL|].
  rewrite Nat.iter_succ. apply halve_stage_pos, IH.
Qed.

Lemma view_mel (x : tensor F) N T m mel T' :
  shape x = [N; T; m] -> 1 <= N -> 1 <= mel -> T * m = T' * mel ->
  exists t, view x [N; 1; -1; mel] = Ok t /\ shape t = [N; 1; T'; mel].
Proof.
  intros Hx HN Hmel HT. unfold view, infer_size. rewrite Hx.
  cbn [infer_scan].
  destruct (Z.eqb_spec N (-1)); [lia|].
  destruct (Z.leb_spec 0 N); [|lia].
  change (1 =? -1) with false. change (0 <=? 1) with true.
  change (-1 =? -1) with true. cbv beta iota.
  destruct (Z.eqb_spec mel (-1)); [lia|].
  destruct (Z.leb_spec 0 mel); [|lia].
  cbn [rbind numel fold_right].
  assert (Hn : N * (T * (m * 1)) = T' * (1 * N * 1 * mel)) by nia.
  rewrite Hn, Z.mod_mul, Z.div_mul by nia.
  destruct (Z.ltb_spec 0 (1 * N * 1 * mel)); [|nia].
  rewrite Z.eqb_refl, orb_true_r.
  destruct (Z.eqb_spec (1 * N * 1 * mel) 0); [nia|].
  cbn [rbind set_nth]. eexists. split; reflexivity.
Qed.


Lemma view_flatten (x : tensor F) N T C L :
  shape x = [N; T; C; L] -> 1 <= N -> 1 <= T ->
  exists t, view x [N; T; -1] = Ok t /\ shape t = [N; T; C * L].
Proof.
  intros Hx HN HT. unfold view, infer_size. rewrite Hx.
  cbn [infer_scan].
  destruct (Z.eqb_spec N (-1)); [lia|].
  destruct (Z.leb_spec 0 N); [|lia].
  destruct (Z.eqb_spec T (-1)); [lia|].
  destruct (Z.leb_spec 0 T); [|lia].
  change (-1 =? -1) with true. cbv beta iota.
  cbn [rbind numel fold_right].
  assert (Hn : N * (T * (C * (L * 1))) = C * L * (1 * N * T)) by ring.
  rewrite Hn, Z.mod_mul, Z.div_mul by nia.
  destruct (Z.ltb_spec 0 (1 * N * T)); [|nia].
  rewrite Z.eqb_refl, orb_true_r.
  destruct (Z.eqb_spec (1 * N * T) 0); [nia|].
  cbn [rbind set_nth]. eexists. split; reflexivity.
Qed.

Lemma Conv2d_forward_shape (c : Conv2d F) (x : tensor F) cin cout N Ht Wd :
  conv_ok c cin cout -> 1 <= cout ->
  shape x = [N; cin; Ht; Wd] -> 1 <= Ht -> 1 <= Wd ->
  exists t, Conv2d_forward c x = Ok t
            /\ shape t = [N; cout; halve_stage Ht; halve_stage Wd].
Proof.
  intros (Hi & Ho & Hk & Hs & Hp) Hco Hx HH HW.
  unfold Conv2d_forward, conv_out_size. rewrite Hx, Hi, Ho, Hk, Hs, Hp.
  destruct (Z.ltb_spec cout 1); [lia|].
  rewrite Z.eqb_refl. cbn [negb]. change (2 <=? 0) with false. cbv iota.
  destruct (Z.ltb_spec (Ht + 2 * 1) 3); [lia|].
  destruct (Z.ltb_spec (Wd + 2 * 1) 3); [lia|].
  cbn [orb]. eexists. split; [reflexivity|]. cbn [shape]. unfold halve_stage.
  replace (Ht + 2 * 1 - 3) with (Ht - 3 + 2) by lia.
  replace (Wd + 2 * 1 - 3) with (Wd - 3 + 2) by lia.
  reflexivity.
Qed.



Lemma stack_ok_length cin (cs : list (Conv2d F)) bs cout :
  stack_ok cin cs bs cout -> length bs = length cs.
Proof. induction 1; cbn [length]; congruence. Qed.


End Encoder.

(** ** What the constructors establish *)

Section Init.
Context {F : Type} `{Numeric F}.

Lemma Conv2d_init_inv cin cout k s p (c : Conv2d F) :
  Conv2d_init cin cout k s p = Ok c ->
  conv_in_channels c = cin /\ conv_out_channels c = cout
  /\ conv_kernel_size c = k /\ conv_stride c = s /\ conv_padding c = p
  /\ 0 <= cout.
Proof.
  unfold Conv2d_init.
  destruct (alloc _ [cout; cin; k; k]) as [w|] eqn:Ew; [|discriminate].
  destruct (alloc _ [cout]) as [b|] eqn:Eb; [|discriminate].
  cbn [rbind]. intros [= <-]. cbn.
  apply alloc_inv in Eb. destruct Eb as (_ & Hb).
  apply Forall_inv in Hb. repeat split; assumption || reflexivity.
Qed.

Lemma Conv2d_init_ok cin cout k s p :
  0 <= cin -> 0 <= cout -> 0 <= k ->
  exists c : Conv2d F, Conv2d_init cin cout k s p = Ok c.
Proof.
  intros Hi Ho Hk. unfold Conv2d_init.
  rewrite !alloc_ok by (repeat constructor; assumption).
  eexists. reflexivity.
Qed.

Lemma BatchNorm2d_init_inv c (b : BatchNorm2d F) :
  BatchNorm2d_init c = Ok b -> bn_num_features b = c /\ bn_training b = true.
Proof.
  unfold BatchNorm2d_init. destruct (c <? 0); [discriminate|].
  intros [= <-]. split; reflexivity.
Qed.

Lemma BatchNorm2d_init_ok c :
  0 <= c -> exists b : BatchNorm2d F, BatchNorm2d_init c = Ok b.
Proof.
  intros Hc. unfold BatchNorm2d_init.
  destruct (Z.ltb_spec c 0); [lia|]. eexists. reflexivity.
Qed.

Lemma mapR_ok {A B} (f : A -> result B) (xs : list A) :
  (forall a, In a xs -> exists b, f a = Ok b) -> exists bs, mapR f xs = Ok bs.
Proof.
  induction xs as [|a xs IH]; intros Hf; cbn [mapR].
  - eexists. reflexivity.
  - destruct (Hf a (or_introl eq_refl)) as (b & ->).
    destruct IH as (bs & ->); [intros a' Ha'; apply Hf; right; exact Ha'|].
    eexists. reflexivity.
Qed.

Lemma mapR_length {A B} (f : A -> result B) (xs : list A) bs :
  mapR f xs = Ok bs -> length bs = length xs.
Proof.
  revert bs. induction xs as [|a xs IH]; intros bs; cbn [mapR].
  - intros [= <-]. reflexivity.
  - destruct (f a) as [b|]; [|discriminate]. cbn [rbind].
    destruct (mapR f xs) as [bs'|]; [|discriminate]. cbn [rbind].
    intros [= <-]. cbn [length]. f_equal. apply IH. reflexivity.
Qed.

Lemma init_stack_ok (filters : list Z) (m : nat) :
  forall k (cs : list (Conv2d F)) (bs : list (BatchNorm2d F)),
    mapR (fun i => Conv2d_init (nth i (1 :: filters) 0)
                               (nth (S i) (1 :: filters) 0) 3 2 1)
         (seq k m) = Ok cs ->
    mapR (fun i => BatchNorm2d_init (nth i filters 0)) (seq k m) = Ok bs ->
    stack_ok (nth k (1 :: filters) 0) cs bs (nth (k + m) (1 :: filters) 0).
Proof.
  induction m as [|m IH]; intros k cs bs; cbn [seq mapR].
  - intros [= <-] [= <-]. rewrite Nat.add_0_r. constructor.
  - destruct (Conv2d_init _ _ 3 2 1) as [c|] eqn:Ec; [|discriminate].
    cbn [rbind].
    destruct (mapR _ (seq (S k) m)) as [cs'|] eqn:Ecs; [|discriminate].
    cbn [rbind]. intros [= <-].
    destruct (BatchNorm2d_init _) as [b|] eqn:Eb; [|discriminate].
    cbn [rbind].
    destruct (mapR (fun i => BatchNorm2d_init _) (seq (S k) m))
      as [bs'|] eqn:Ebs; [|discriminate].
    cbn [rbind]. intros [= <-].
    apply Conv2d_init_inv in Ec.
    destruct Ec as (Hi & Ho & Hk & Hs & Hp & _).
    apply BatchNorm2d_init_inv in Eb. destruct Eb as (Hb & _).
    apply stack_cons with (cmid := nth (S k) (1 :: filters) 0).
    + repeat split; assumption.
    + exact Hb.
    + replace (k + S m)%nat with (S k + m)%nat by lia.
      apply (IH (S k)); assumption.
Qed.

Lemma py_last_nth (l : list Z) x :
  py_last l = Ok x -> x = nth (length l) (1 :: l) 0 /\ In x l.
Proof.
  unfold py_last. destruct (rev l) as [|y r] eqn:E; [discriminate|].
  intros [= ->].
  assert (Hl : l = rev r ++ [x]).
  { rewrite <- (rev_involutive l), E. reflexivity. }
  subst l. split.
  - rewrite length_app. cbn [length nth].
    replace (length (rev r) + 1)%nat with (S (length (rev r))) by lia.
    cbn [nth]. rewrite app_nth2 by lia. rewrite Nat.sub_diag. reflexivity.
  - apply in_or_app. right. left. reflexivity.
Qed.

Lemma py_last_ok (l : list Z) : l <> [] -> exists x, py_last l = Ok x.
Proof.
  intros Hl. unfold py_last. destruct (rev l) as [|y r] eqn:E.
  - exfalso. apply Hl. rewrite <- (rev_involutive l), E. reflexivity.
  - eexists. reflexivity.
Qed.

Lemma GRU_init_inv i h (g : GRU F) :
  GRU_init i h = Ok g ->
  gru_input_size g = i /\ gru_hidden_size g = h /\ 0 < h /\ 0 <= i.
Proof.
  unfold GRU_init. destruct (Z.leb_spec i 0); [discriminate|].
  destruct (Z.leb_spec h 0); [discriminate|].
  repeat match goal with
         | |- context [alloc ?n ?s] => destruct (alloc n s); cbn [rbind]
         end; try discriminate.
  intros [= <-]. cbn. repeat split; lia.
Qed.

Lemma GRU_init_ok i h :
  0 < i -> 0 < h -> exists g : GRU F, GRU_init i h = Ok g.
Proof.
  intros Hi Hh. unfold GRU_init. destruct (Z.leb_spec i 0); [lia|].
  destruct (Z.leb_spec h 0); [lia|].
  rewrite !alloc_ok by (repeat constructor; lia).
  eexists. reflexivity.
Qed.

Lemma ReferenceEncoder_init_wf (hp : hparams) (enc : ReferenceEncoder F) l :
  construct (ReferenceEncoder_init hp) = (Ok enc, l) ->
  1 <= hp_n_mel_channels hp ->
  ReferenceEncoder_wf enc
  /\ gru_hidden_size (gru enc) = hp_ref_enc_gru_size hp
  /\ n_mel_channels enc = hp_n_mel_channels hp.
Proof.
  intros Hc Hmel.
  destruct (ReferenceEncoder_init_inv hp enc l Hc)
    as (cs & bs & cf & g & Hcs & Hbs & Hlast & Hg & -> & _).
  apply GRU_init_inv in Hg. destruct Hg as (Hgi & Hgh & _ & _).
  destruct (py_last_nth _ _ Hlast) as (Hcf & Hin).
  cbn [gru n_mel_channels]. split; [|split; [exact Hgh|reflexivity]].
  exists cf. cbn [convs bns gru n_mel_channels].
  pose proof (init_stack_ok (hp_ref_enc_filters hp) _ 0 cs bs Hcs Hbs) as Hst.
  cbn [Nat.add] in Hst. rewrite <- Hcf in Hst. cbn [nth] in Hst.
  split; [exact Hst|].
  split.
  { (* the last filter count is a dimension of an allocated weight *)
    clear Hst Hbs.
    destruct (In_nth _ _ 0 Hin) as (i & Hi & Hnth).
    assert (Hsome : forall k m cs',
               mapR (fun i => Conv2d_init (F:=F)
                                (nth i (1 :: hp_ref_enc_filters hp) 0)
                                (nth (S i) (1 :: hp_ref_enc_filters hp) 0)
                                3 2 1) (seq k m) = Ok cs' ->
               forall j, (k <= j < k + m)%nat ->
                         0 <= nth (S j) (1 :: hp_ref_enc_filters hp) 0).
    { intros k m. revert k. induction m as [|m IH]; intros k cs' Hm j Hj;
        [lia|].
      cbn [seq mapR] in Hm.
      destruct (Conv2d_init _ _ 3 2 1) as [c|] eqn:Ec; [|discriminate].
      cbn [rbind] in Hm.
      destruct (mapR _ (seq (S k) m)) as [cs''|] eqn:Ecs; [|discriminate].
      destruct (Nat.eq_dec j k) as [->|Hne].
      - apply Conv2d_init_inv in Ec. intuition.
      - apply (IH (S k) cs'' Ecs). lia. }
    specialize (Hsome _ _ _ Hcs i ltac:(lia)). cbn [nth] in Hsome.
    rewrite Hnth in Hsome. exact Hsome. }
  split; [exact Hmel|].
  rewrite Hgi. rewrite (mapR_length _ _ _ Hcs), length_seq. reflexivity.
Qed.

Lemma mapR_Forall_in {A B} (f : A -> result B) (P : B -> Prop)
      (xs : list A) bs :
  (forall a b, In a xs -> f a = Ok b -> P b) ->
  mapR f xs = Ok bs -> Forall P bs.
Proof.
  revert bs. induction xs as [|a xs IH]; intros bs Hf; cbn [mapR].
  - intros [= <-]. constructor.
  - destruct (f a) as [b|] eqn:Eb; [|discriminate]. cbn [rbind].
    destruct (mapR f xs) as [bs'|]; [|discriminate]. cbn [rbind].
    intros [= <-]. constructor.
    + apply (Hf a); [left; reflexivity|exact Eb].
    + apply IH; [|reflexivity]. intros a' b' Ha'. apply Hf. right. exact Ha'.
Qed.

(** With positive filter counts every convolution the constructor builds
    has at least one output channel. *)
Lemma ReferenceEncoder_init_channels (hp : hparams)
      (enc : ReferenceEncoder F) l :
  construct (ReferenceEncoder_init hp) = (Ok enc, l) ->
  Forall (fun f => 1 <= f) (hp_ref_enc_filters hp) ->
  channels_positive (convs enc).
Proof.
  intros Hc Hpos.
  destruct (ReferenceEncoder_init_inv hp enc l Hc)
    as (cs & bs & cf & g & Hcs & _ & _ & _ & -> & _).
  cbn [convs]. unfold channels_positive.
  refine (mapR_Forall_in _ _ _ _ _ Hcs). intros i c Hi Hci.
  apply Conv2d_init_inv in Hci. destruct Hci as (_ & -> & _).
  apply in_seq in Hi. cbn [nth]. rewrite Forall_forall in Hpos.
  apply Hpos, nth_In. lia.
Qed.

End Init.

Section NoCheck.
Context {F : Type} `{Numeric F}.

Lemma nth_nonneg (l : list Z) i :
  Forall (fun f => 0 <= f) l -> 0 <= nth i l 0.
Proof.
  intros Hl. destruct (Nat.lt_ge_cases i (length l)) as [Hi|Hi].
  - rewrite Forall_forall in Hl. apply Hl, nth_In, Hi.
  - rewrite nth_overflow by exact Hi. lia.
Qed.

Lemma ReferenceEncoder_init_ok (hp : hparams) :
  hparams_sizes_ok hp ->
  exists enc : ReferenceEncoder F,
    forall l0,
      ReferenceEncoder_init hp tt l0
      = (Ok enc, tt, l0 ++ ["ReferenceEncoder.__init__"%string;
                            "ReferenceEncoder.calculate_channels"%string]).
Proof.
  intros (Hne & Hpos1 & Hmel & Hgru & _).
  assert (Hpos : Forall (fun f => 0 <= f) (hp_ref_enc_filters hp))
    by (apply (Forall_impl _ (fun f (Hf : 1 <= f) => Z.le_trans 0 1 f Z.le_0_1 Hf)), Hpos1).
  assert (Hpos' : Forall (fun f => 0 <= f) (1 :: hp_ref_enc_filters hp))
    by (constructor; [lia|exact Hpos]).
  destruct (mapR_ok
              (fun i => Conv2d_init (F:=F)
                          (nth i (1 :: hp_ref_enc_filters hp) 0)
                          (nth (S i) (1 :: hp_ref_enc_filters hp) 0) 3 2 1)
              (seq 0 (length (hp_ref_enc_filters hp)))) as (cs & Hcs).
  { intros i _. apply Conv2d_init_ok; try apply nth_nonneg; try assumption.
    lia. }
  destruct (mapR_ok
              (fun i => BatchNorm2d_init (F:=F)
                          (nth i (hp_ref_enc_filters hp) 0))
              (seq 0 (length (hp_ref_enc_filters hp)))) as (bs & Hbs).
  { intros i _. apply BatchNorm2d_init_ok, nth_nonneg, Hpos. }
  destruct (py_last_ok _ Hne) as (last & Hlast).
  destruct (py_last_nth _ _ Hlast) as (_ & Hin).
  assert (Hlast0 : 1 <= last) by (rewrite Forall_forall in Hpos1; auto).
  pose proof (iter_halve_stage_pos (length (hp_ref_enc_filters hp))
                                   (hp_n_mel_channels hp) Hmel) as Hit.
  destruct (GRU_init_ok (F:=F)
              (last * Nat.iter (length (hp_ref_enc_filters hp)) halve_stage
                               (hp_n_mel_channels hp))
              (hp_ref_enc_gru_size hp) ltac:(nia) Hgru) as (g & Hg).
  eexists. intros l0. unfold ReferenceEncoder_init.
  unfold bind at 1, called at 1.
  unfold bind at 1. rewrite mapM_lift, Hcs.
  unfold bind at 1. rewrite mapM_lift, Hbs.
  unfold bind at 1, called at 1.
  unfold bind at 1, lift at 1, calculate_channels.
  rewrite calculate_channels_loop_321, Nat2Z.id.
  unfold bind at 1, lift at 1. rewrite Hlast.
  unfold bind at 1, lift at 1. rewrite Hg.
  unfold ret. rewrite <- app_assoc. reflexivity.
Qed.

Lemma STL_init_ok (hp : hparams) :
  hparams_sizes_ok hp ->
  exists st : STL F,
    forall l0,
      STL_init hp tt l0
      = (Ok st, tt, l0 ++ ["STL.__init__"%string;
                           "MultiHeadAttention.__init__"%string]).
Proof.
  intros (_ & _ & _ & Hgru & Htok & HE & Hh).
  assert (Hd : 0 <= hp_token_embedding_size hp / hp_num_heads hp)
    by (apply Z.div_pos; lia).
  eexists. intros l0.
  unfold STL_init, MultiHeadAttention_init, floordiv, Linear_init.
  unfold bind, called, lift, ret.
  destruct (Z.eqb_spec (hp_num_heads hp) 0); [lia|].
  rewrite !alloc_ok by (repeat constructor; lia).
  cbn [rbind]. rewrite <- app_assoc. reflexivity.
Qed.







End NoCheck.

(** ** Construction checks no divisibility *)





(** ** The mel dimension is not validated *)




(** ** Examples of a batch are attended to independently *)

Section Rowwise.
Context {F : Type} `{Numeric F}.

Lemma MultiHeadAttention_locals_projections (self : MultiHeadAttention F)
      (query key : tensor F) (query_dim s N T_q T_k : Z) loc :
  MultiHeadAttention_wf self query_dim s ->
  shape query = [N; T_q; query_dim] ->
  shape key = [N; T_k; key_dim self] ->
  MultiHeadAttention_locals self query key = Ok loc ->
  (forall n i j,
      data (loc_querys loc) [n; i; j]
      = fsum query_dim (fun c => fmul (data query [n; i; c])
                                      (data (lin_weight (W_query self)) [j; c])))
  /\ (forall n i j,
         data (loc_keys loc) [n; i; j]
         = fsum (key_dim self)
                (fun c => fmul (data key [n; i; c])
                               (data (lin_weight (W_key self)) [j; c])))
  /\ (forall n i j,
         data (loc_values loc) [n; i; j]
         = fsum (key_dim self)
                (fun c => fmul (data key [n; i; c])
                               (data (lin_weight (W_value self)) [j; c]))).
Proof.
  intros (Hqi & Hki & Hvi & _) Hq Hk.
  unfold MultiHeadAttention_locals.
  rewrite <- Hqi in Hq.
  destruct (Linear_forward_spec (W_query self) query N T_q Hq)
    as (q3 & -> & _ & Dq3).
  assert (Hk' := Hk). rewrite <- Hki in Hk'.
  destruct (Linear_forward_spec (W_key self) key N T_k Hk')
    as (k3 & -> & _ & Dk3).
  rewrite <- Hvi in Hk.
  destruct (Linear_forward_spec (W_value self) key N T_k Hk)
    as (v3 & -> & _ & Dv3).
  cbn [rbind].
  repeat match goal with
         | |- rbind ?r _ = _ -> _ => destruct r; cbn [rbind]
         end; try discriminate.
  intros [= <-]. cbn [loc_querys loc_keys loc_values].
  repeat split; intros;
    [rewrite Dq3, Hqi | rewrite Dk3, Hki | rewrite Dv3, Hvi]; reflexivity.
Qed.


(** The attention output of one example is computed from that example's
    query and key rows alone: two calls that agree on one row of their
    inputs agree on that row of their outputs. *)
Lemma MultiHeadAttention_forward_rowwise (self : MultiHeadAttention F)
      (query key query' key' : tensor F)
      (query_dim s N N' T_q T_k n n' : Z) :
  MultiHeadAttention_wf self query_dim s ->
  shape query = [N; T_q; query_dim] -> shape key = [N; T_k; key_dim self] ->
  shape query' = [N'; T_q; query_dim] ->
  shape key' = [N'; T_k; key_dim self] ->
  0 <= n < N -> 0 <= n' < N' ->
  (forall i c, 0 <= c < query_dim ->
               data query [n; i; c] = data query' [n'; i; c]) ->
  (forall j c, 0 <= j < T_k -> 0 <= c < key_dim self ->
               data key [n; j; c] = data key' [n'; j; c]) ->
  exists out out',
    MultiHeadAttention_forward self query key = Ok out
    /\ MultiHeadAttention_forward self query' key' = Ok out'
    /\ forall i f, 0 <= f < num_units self ->
                   data out [n; i; f] = data out' [n'; i; f].
Proof.
  intros Hwf Hq Hk Hq' Hk' Hn Hn' Eq Ek.
  destruct (MultiHeadAttention_locals_spec self query key query_dim s N T_q
              T_k Hwf Hq Hk) as (loc & Hloc & Hspec).
  destruct (MultiHeadAttention_locals_spec self query' key' query_dim s N' T_q
              T_k Hwf Hq' Hk') as (loc' & Hloc' & Hspec').
  destruct (MultiHeadAttention_locals_projections
              self query key query_dim s N T_q T_k loc Hwf Hq Hk Hloc)
    as (Pq & Pk & Pv).
  destruct (MultiHeadAttention_locals_projections
              self query' key' query_dim s N' T_q T_k loc' Hwf Hq' Hk' Hloc')
    as (Pq' & Pk' & Pv').
  exists (loc_out loc), (loc_out loc').
  unfold MultiHeadAttention_forward. rewrite Hloc, Hloc'.
  split; [reflexivity|]. split; [reflexivity|].
  destruct Hspec as (_ & _ & _ & _ & _ & _ & _ & _ & _ & _ & _ & _ & _ & _
                     & _ & _ & Do4 & Do).
  destruct Hspec' as (_ & _ & _ & _ & _ & _ & _ & _ & _ & _ & _ & _ & _ & _
                      & _ & _ & Do4' & Do').
  destruct Hwf as (_ & _ & _ & _ & _ & _ & Hh & Hs & HU).
  assert (Rq : forall i j, data (loc_querys loc) [n; i; j]
                           = data (loc_querys loc') [n'; i; j]).
  { intros i j. rewrite Pq, Pq'. apply fsum_ext. intros c0 Hc0.
    rewrite Eq by assumption. reflexivity. }
  assert (Rk : forall i j, 0 <= i < T_k ->
                           data (loc_keys loc) [n; i; j]
                           = data (loc_keys loc') [n'; i; j]).
  { intros i j Hi. rewrite Pk, Pk'. apply fsum_ext. intros c0 Hc0.
    rewrite Ek by assumption. reflexivity. }
  assert (Rv : forall i j, 0 <= i < T_k ->
                           data (loc_values loc) [n; i; j]
                           = data (loc_values loc') [n'; i; j]).
  { intros i j Hi. rewrite Pv, Pv'. apply fsum_ext. intros c0 Hc0.
    rewrite Ek by assumption. reflexivity. }
  intros i f Hf.
  pose proof (Z.div_mod f s ltac:(lia)) as Hdm.
  pose proof (Z.mod_pos_bound f s Hs) as Hr.
  assert (Hhr : 0 <= f / s < num_heads self).
  { split; [apply Z.div_pos; lia|].
    apply Z.div_lt_upper_bound; [lia|]. rewrite Z.mul_comm, <- HU. lia. }
  remember (f / s) as h eqn:Eh. remember (f mod s) as c eqn:Ec.
  assert (Ef : f = h * s + c) by lia. rewrite Ef.
  rewrite Do, Do', Do4, Do4' by assumption.
  unfold head_output. apply fsum_ext. intros j Hj.
  rewrite Rv by assumption. f_equal.
  unfold head_weight. do 2 f_equal. apply map_ext_in. intros j' Hj'.
  apply In_range in Hj'.
  unfold head_score. f_equal. apply fsum_ext. intros c0 _.
  rewrite Rq, Rk by assumption. reflexivity.
Qed.

(** The style-token layer treats the examples of a batch independently:
    the output row of an example depends on its query vector only, so
    permuting the query batch permutes the output rows identically. *)
Lemma STL_forward_rowwise (st : STL F) (x x' : tensor F)
      (N N' D T_k s n n' : Z) :
  MultiHeadAttention_wf (attention st) D s ->
  shape (embed st) = [T_k; key_dim (attention st)] ->
  shape x = [N; D] -> shape x' = [N'; D] ->
  0 <= n < N -> 0 <= n' < N' ->
  (forall c, 0 <= c < D -> data x [n; c] = data x' [n'; c]) ->
  exists out out',
    outcome (run (STL_forward x) st) = Ok out
    /\ outcome (run (STL_forward x') st) = Ok out'
    /\ forall f, 0 <= f < num_units (attention st) ->
                 data out [n; 0; f] = data out' [n'; 0; f].
Proof.
  intros Hwf He Hx Hx' Hn Hn' Ex.
  destruct (STL_forward_spec st x N D T_k s Hwf He Hx ltac:(lia))
    as (q & k & loc & Hrun & Sq & Sk & Dq & Dk & Hloc & _).
  destruct (STL_forward_spec st x' N' D T_k s Hwf He Hx' ltac:(lia))
    as (q' & k' & loc' & Hrun' & Sq' & Sk' & Dq' & Dk' & Hloc' & _).
  unfold outcome. rewrite Hrun, Hrun'. cbn [fst].
  exists (loc_out loc), (loc_out loc').
  split; [reflexivity|]. split; [reflexivity|].
  destruct (MultiHeadAttention_forward_rowwise
              (attention st) q k q' k' D s N N' 1 T_k n n'
              Hwf Sq Sk Sq' Sk' Hn Hn')
    as (out & out' & Ho & Ho' & Hrow).
  - intros i c Hc. rewrite Dq, Dq'. apply Ex, Hc.
  - intros j c Hj Hc. rewrite Dk, Dk' by assumption. reflexivity.
  - unfold MultiHeadAttention_forward in Ho, Ho'.
    rewrite Hloc in Ho. rewrite Hloc' in Ho'. cbn in Ho, Ho'.
    injection Ho as <-. injection Ho' as <-. intros f Hf. apply Hrow, Hf.
Qed.

End Rowwise.

(** ** Further checks on the scenario model *)

(** The running statistics are buffers, outside the frame of the learned
    parameters: one forward pass in training mode makes every batch-norm
    layer count one batch. *)
Lemma GST_forward_updates_buffers :
  rmap (fun g =>
          (map bn_num_batches_tracked (bns (encoder g)),
           map bn_num_batches_tracked
               (bns (encoder (final_state
                                (run (GST_forward (ones [2; 50; 80]) None)
                                     g))))))
       (fst (construct (GST_init (F:=unit) scenario_hparams)))
  = Ok ([0; 0; 0; 0; 0; 0], [1; 1; 1; 1; 1; 1]).
Proof. vm_compute. reflexivity. Qed.

(** [len] of the module list of convolutions is the number of stages: it
    is [len(self)] that has no meaning. *)
Lemma py_len_convs {F} `{Numeric F} (hp : hparams) (enc : ReferenceEncoder F)
      l :
  construct (ReferenceEncoder_init hp) = (Ok enc, l) ->
  py_len (ModuleList_class (Conv2d F)) (convs enc)
  = Ok (len (hp_ref_enc_filters hp))
  /\ py_len (ReferenceEncoder_class F) enc = Raise TypeError.
Proof.
  intros Hc.
  destruct (ReferenceEncoder_init_inv hp enc l Hc)
    as (cs & bs & cf & g & Hcs & _ & _ & _ & -> & _).
  split; [|reflexivity].
  unfold py_len, ModuleList_class, len. cbn [cls_len convs].
  rewrite (mapR_length _ _ _ Hcs), length_seq. reflexivity.
Qed.

(** ** Further properties of the constructors and of [calculate_channels] *)

Lemma calculate_channels_loop_app n m L k s p :
  calculate_channels_loop (n + m) L k s p
  = (c <- calculate_channels_loop n L k s p ;;
     calculate_channels_loop m c k s p).
Proof.
  revert L. induction n as [|n IH]; intros L;
    cbn [Nat.add calculate_channels_loop rbind].
  - reflexivity.
  - destruct (floordiv (L - k + 2 * p) s) as [q|e]; cbn [rbind];
      [apply IH|reflexivity].
Qed.

(** X1: how [calculate_channels] depends on the number of stages: with
    [n_convs <= 0] the loop body never runs and [L] is returned as it is,
    whatever the other arguments; with a zero stride and at least one
    stage the floor division raises [ZeroDivisionError]; and running
    [n + m] stages is running [n] stages and then [m] more on the
    result. *)
Theorem calculate_channels_loop_count :
  (forall L k s p n, n <= 0 -> calculate_channels L k s p n = Ok L)
  /\ (forall L k p n, 1 <= n ->
        calculate_channels L k 0 p n = Raise ZeroDivisionError)
  /\ (forall L k s p n m, 0 <= n -> 0 <= m ->
        calculate_channels L k s p (n + m)
        = (c <- calculate_channels L k s p n ;;
           calculate_channels c k s p m)).
Proof.
  split; [|split].
  - intros L k s p n Hn. unfold calculate_channels.
    replace (Z.to_nat n) with 0%nat by lia. reflexivity.
  - intros L k p n Hn. unfold calculate_channels.
    destruct (Z.to_nat n) as [|n'] eqn:E; [lia|]. reflexivity.
  - intros L k s p n m Hn Hm. unfold calculate_channels.
    rewrite Z2Nat.inj_add by lia. apply calculate_channels_loop_app.
Qed.

Lemma calculate_channels_loop_count_witness :
  calculate_channels 80 3 2 1 (-1) = Ok 80
  /\ calculate_channels 80 3 0 1 2 = Raise ZeroDivisionError
  /\ calculate_channels 80 3 2 1 (2 + 4)
     = (c <- calculate_channels 80 3 2 1 2 ;; calculate_channels c 3 2 1 4).
Proof.
  destruct calculate_channels_loop_count as (H0 & Hz & Happ).
  split; [apply H0; lia|]. split; [apply Hz; lia|]. apply Happ; lia.
Defined.

(** X2: with the kernel, stride and padding the constructor passes
    (3, 2, 1), [calculate_channels] returns a size between 1 and [L] for
    every [L >= 1]: the frequency axis never collapses to zero, and it is
    exactly 1 as soon as [L <= 2 ^ n_convs]. *)
Theorem calculate_channels_bounds (L n : Z) :
  1 <= L -> 0 <= n ->
  exists c,
    calculate_channels L 3 2 1 n = Ok c
    /\ 1 <= c <= L
    /\ (L <= 2 ^ n -> c = 1).
Proof.
  intros HL Hn.
  assert (Hpow : 0 < 2 ^ n) by (apply Z.pow_pos_nonneg; lia).
  exists (ceil_div L (2 ^ n)). unfold calculate_channels.
  rewrite calculate_channels_loop_321, iter_halve_stage_ceil, Z2Nat.id by lia.
  split; [reflexivity|].
  pose proof (ceil_div_spec L (2 ^ n) Hpow) as Hc.
  split; [nia|]. intros Hle. nia.
Qed.

Lemma calculate_channels_bounds_witness :
  exists c, calculate_channels 80 3 2 1 7 = Ok c /\ 1 <= c <= 80
            /\ (80 <= 2 ^ 7 -> c = 1).
Proof. apply (calculate_channels_bounds 80 7); lia. Defined.

(** ** Constructors that fail *)

(** X3: an empty [ref_enc_filters] makes construction fail with
    [IndexError], at [hp.ref_enc_filters[-1]]: the (empty) layer lists are
    built and [calculate_channels] is called first, and in [GST.__init__]
    the style-token layer is never reached. *)
Theorem GST_init_empty_filters :
  forall F (NF : Numeric F) (hp : hparams),
    hp_ref_enc_filters hp = [] ->
    construct (ReferenceEncoder_init (F:=F) hp)
    = (Raise IndexError,
       ["ReferenceEncoder.__init__"%string;
        "ReferenceEncoder.calculate_channels"%string])
    /\ construct (GST_init (F:=F) hp)
       = (Raise IndexError,
          ["GST.__init__"%string; "ReferenceEncoder.__init__"%string;
           "ReferenceEncoder.calculate_channels"%string]).
Proof.
  intros F NF hp Hf.
  unfold construct, GST_init, ReferenceEncoder_init. rewrite Hf.
  split; reflexivity.
Qed.

Lemma GST_init_empty_filters_witness :
  construct (GST_init (F:=sym) (mkHparams [] 80 128 10 256 8))
  = (Raise IndexError,
     ["GST.__init__"%string; "ReferenceEncoder.__init__"%string;
      "ReferenceEncoder.calculate_channels"%string]).
Proof.
  apply (GST_init_empty_filters sym symbolic (mkHparams [] 80 128 10 256 8)
                                eq_refl).
Defined.

(** X4: [num_heads = 0] makes [STL.__init__] fail with
    [ZeroDivisionError], at [token_embedding_size // num_heads] and before
    the attention block is built; in [GST.__init__], for a non-empty list
    of positive filter counts, at least one mel channel and a positive GRU
    size, this happens after the reference encoder has been constructed. *)
Theorem GST_init_zero_heads :
  forall F (NF : Numeric F) (hp : hparams),
    hp_num_heads hp = 0 ->
    construct (STL_init (F:=F) hp)
    = (Raise ZeroDivisionError, ["STL.__init__"%string])
    /\ (hp_ref_enc_filters hp <> [] ->
        Forall (fun f => 1 <= f) (hp_ref_enc_filters hp) ->
        1 <= hp_n_mel_channels hp -> 0 < hp_ref_enc_gru_size hp ->
        construct (GST_init (F:=F) hp)
        = (Raise ZeroDivisionError,
           ["GST.__init__"%string; "ReferenceEncoder.__init__"%string;
            "ReferenceEncoder.calculate_channels"%string;
            "STL.__init__"%string])).
Proof.
  intros F NF hp Hh. split.
  - unfold construct, STL_init, floordiv, bind, called, lift. rewrite Hh.
    reflexivity.
  - intros Hne Hpos Hmel Hgru.
    set (hp' := mkHparams (hp_ref_enc_filters hp) (hp_n_mel_channels hp)
                          (hp_ref_enc_gru_size hp) 0 0 1).
    assert (Hok : hparams_sizes_ok hp').
    { unfold hparams_sizes_ok, hp'. cbn. repeat split; assumption || lia. }
    destruct (ReferenceEncoder_init_ok (F:=F) hp' Hok) as (enc & He).
    change (ReferenceEncoder_init hp') with (ReferenceEncoder_init (F:=F) hp)
      in He.
    unfold construct, GST_init.
    unfold bind at 1, called at 1.
    unfold bind at 1. rewrite He.
    unfold STL_init, floordiv, bind, called, lift. rewrite Hh. reflexivity.
Qed.

Lemma GST_init_zero_heads_witness :
  construct (GST_init (F:=sym) (mkHparams [32; 64] 80 128 10 256 0))
  = (Raise ZeroDivisionError,
     ["GST.__init__"%string; "ReferenceEncoder.__init__"%string;
      "ReferenceEncoder.calculate_channels"%string; "STL.__init__"%string]).
Proof.
  apply (proj2 (GST_init_zero_heads sym symbolic
                  (mkHparams [32; 64] 80 128 10 256 0) eq_refl)).
  - discriminate.
  - repeat constructor; discriminate.
  - discriminate.
  - reflexivity.
Defined.

(** ** Further properties of the attention block and the style-token layer *)

Section MoreAttention.
Context {F : Type} `{Numeric F}.

Lemma Linear_forward_mismatch (l : Linear F) (x : tensor F) a b d :
  shape x = [a; b; d] -> d <> lin_in_features l ->
  Linear_forward l x = Raise RuntimeError.
Proof.
  intros Hx Hd. unfold Linear_forward. rewrite Hx. cbn [rev app].
  destruct (Z.eqb_spec d (lin_in_features l)); [contradiction|reflexivity].
Qed.

(** X5: [MultiHeadAttention.forward] does not validate the feature widths
    of its arguments itself: a query whose last dimension is not the input
    width of [W_query], or a key whose last dimension is not that of
    [W_key] and [W_value], is rejected by the projection with
    [RuntimeError]. *)
Theorem MultiHeadAttention_forward_width_mismatch
        (self : MultiHeadAttention F) (query key : tensor F)
        (N T_q T_k d_q d_k : Z) :
  shape query = [N; T_q; d_q] -> shape key = [N; T_k; d_k] ->
  d_q <> lin_in_features (W_query self)
  \/ d_k <> lin_in_features (W_key self)
  \/ d_k <> lin_in_features (W_value self) ->
  MultiHeadAttention_forward self query key = Raise RuntimeError.
Proof.
  intros Hq Hk Hbad.
  unfold MultiHeadAttention_forward, MultiHeadAttention_locals.
  destruct (Z.eq_dec d_q (lin_in_features (W_query self))) as [Eq|Nq].
  - subst d_q. destruct (Linear_forward_spec _ query N T_q Hq) as (q3 & -> & _).
    cbn [rbind].
    destruct (Z.eq_dec d_k (lin_in_features (W_key self))) as [Ek|Nk].
    + rewrite Ek in Hk.
      destruct (Linear_forward_spec _ key N T_k Hk) as (k3 & -> & _).
      cbn [rbind]. rewrite <- Ek in Hk.
      rewrite (Linear_forward_mismatch (W_value self) key N T_k d_k Hk);
        [reflexivity|]. intuition congruence.
    + rewrite (Linear_forward_mismatch (W_key self) key N T_k d_k Hk Nk).
      reflexivity.
  - rewrite (Linear_forward_mismatch (W_query self) query N T_q d_q Hq Nq).
    reflexivity.
Qed.

Lemma MultiHeadAttention_locals_heads (self : MultiHeadAttention F) m q k :
  m <> 0 -> num_heads self <> 0 ->
  num_units self / m = num_units self / num_heads self ->
  MultiHeadAttention_locals (with_num_heads m self) q k
  = MultiHeadAttention_locals self q k.
Proof.
  intros Hm Hh Hdiv. unfold MultiHeadAttention_locals, with_num_heads, floordiv.
  cbn [W_query W_key W_value num_units num_heads key_dim].
  destruct (Z.eqb_spec m 0); [contradiction|].
  destruct (Z.eqb_spec (num_heads self) 0); [contradiction|].
  rewrite Hdiv. reflexivity.
Qed.

(** The pipeline of a block whose chunk width [s = num_units // num_heads]
    divides [num_units] is that of a block with [num_units / s] heads. *)
Lemma MultiHeadAttention_locals_chunks
      (self : MultiHeadAttention F) (query key : tensor F)
      (query_dim s m N T_q T_k : Z) :
  lin_in_features (W_query self) = query_dim ->
  lin_in_features (W_key self) = key_dim self ->
  lin_in_features (W_value self) = key_dim self ->
  lin_out_features (W_query self) = num_units self ->
  lin_out_features (W_key self) = num_units self ->
  lin_out_features (W_value self) = num_units self ->
  0 < num_heads self ->
  s = num_units self / num_heads self -> 0 < s ->
  num_units self = m * s ->
  shape query = [N; T_q; query_dim] -> shape key = [N; T_k; key_dim self] ->
  num_heads self <= m
  /\ exists loc,
      MultiHeadAttention_locals self query key = Ok loc
      /\ locals_spec (with_num_heads m self) N T_q T_k s loc.
Proof.
  intros Hqi Hki Hvi Hqo Hko Hvo Hh Hs Hspos HU Hq Hk.
  pose proof (Z.mul_div_le (num_units self) (num_heads self) Hh) as Hle.
  rewrite <- Hs in Hle.
  assert (Hm : 0 < m) by nia.
  assert (Hdiv : num_units self / m = s).
  { rewrite HU, Z.mul_comm. apply Z.div_mul. lia. }
  assert (Hwf : MultiHeadAttention_wf (with_num_heads m self) query_dim s).
  { unfold MultiHeadAttention_wf, with_num_heads. cbn.
    repeat split; assumption. }
  split; [nia|].
  destruct (MultiHeadAttention_locals_spec (with_num_heads m self) query key
              query_dim s N T_q T_k Hwf Hq Hk) as (loc & Hloc & Hspec).
  rewrite MultiHeadAttention_locals_heads in Hloc
    by (try lia; rewrite Hdiv; exact Hs).
  exists loc. split; assumption.
Qed.

(** X6: the number of heads [MultiHeadAttention.forward] really uses is
    [num_units / split_size] with [split_size = num_units // num_heads],
    the number of chunks [torch.split] returns: when the chunk width
    divides [num_units] the call succeeds with that many heads, never
    fewer than [num_heads], and exactly [num_heads] of them precisely when
    [num_heads] divides [num_units]. *)
Theorem attention_effective_heads
        (self : MultiHeadAttention F) (query key : tensor F)
        (query_dim s m N T_q T_k : Z) :
  lin_in_features (W_query self) = query_dim ->
  lin_in_features (W_key self) = key_dim self ->
  lin_in_features (W_value self) = key_dim self ->
  lin_out_features (W_query self) = num_units self ->
  lin_out_features (W_key self) = num_units self ->
  lin_out_features (W_value self) = num_units self ->
  0 < num_heads self ->
  s = num_units self / num_heads self -> 0 < s ->
  num_units self = m * s ->
  shape query = [N; T_q; query_dim] -> shape key = [N; T_k; key_dim self] ->
  exists loc,
    MultiHeadAttention_locals self query key = Ok loc
    /\ shape (loc_querys4 loc) = [m; N; T_q; s]
    /\ shape (loc_scores loc) = [m; N; T_q; T_k]
    /\ shape (loc_out loc) = [N; T_q; num_units self]
    /\ num_heads self <= m
    /\ (num_heads self = m <-> (num_heads self | num_units self)).
Proof.
  intros Hqi Hki Hvi Hqo Hko Hvo Hh Hs Hspos HU Hq Hk.
  destruct (MultiHeadAttention_locals_chunks self query key query_dim s m
              N T_q T_k Hqi Hki Hvi Hqo Hko Hvo Hh Hs Hspos HU Hq Hk)
    as (Hle & loc & Hloc & Hspec).
  destruct Hspec as (_ & _ & _ & _ & Sq4 & _ & _ & _ & Ssc & _ & So & _).
  cbn [with_num_heads num_heads num_units] in Sq4, Ssc, So.
  exists loc. repeat split; try assumption.
  - intros E. exists s. rewrite HU, E. ring.
  - intros (q & Eq).
    assert (s = q) by (rewrite Hs, Eq; apply Z.div_mul; lia). nia.
Qed.


(** X8: [MultiHeadAttention.forward] treats the examples of a batch
    independently and alike: regrouping the examples of the query batch and
    of the key batch in the same way regroups the rows of the output in
    that way, and changes nothing else. *)
Theorem attention_batch_reindex
        (self : MultiHeadAttention F) (query key : tensor F)
        (query_dim s N T_q T_k : Z) (sigma : Z -> Z) :
  MultiHeadAttention_wf self query_dim s ->
  shape query = [N; T_q; query_dim] -> shape key = [N; T_k; key_dim self] ->
  (forall n, 0 <= n < N -> 0 <= sigma n < N) ->
  exists out out',
    MultiHeadAttention_forward self query key = Ok out
    /\ MultiHeadAttention_forward self (reindex_batch sigma query)
                                  (reindex_batch sigma key) = Ok out'
    /\ shape out' = shape out
    /\ forall n i f, 0 <= n < N -> 0 <= f < num_units self ->
                     data out' [n; i; f] = data out [sigma n; i; f].
Proof.
  intros Hwf Hq Hk Hsig.
  assert (Hq' : shape (reindex_batch sigma query) = [N; T_q; query_dim])
    by exact Hq.
  assert (Hk' : shape (reindex_batch sigma key) = [N; T_k; key_dim self])
    by exact Hk.
  destruct (MultiHeadAttention_locals_spec self query key query_dim s N T_q
              T_k Hwf Hq Hk) as (loc & Hloc & Hspec).
  destruct (MultiHeadAttention_locals_spec self _ _ query_dim s N T_q
              T_k Hwf Hq' Hk') as (loc' & Hloc' & Hspec').
  assert (Ho : MultiHeadAttention_forward self query key = Ok (loc_out loc))
    by (unfold MultiHeadAttention_forward; rewrite Hloc; reflexivity).
  assert (Ho' : MultiHeadAttention_forward self (reindex_batch sigma query)
                  (reindex_batch sigma key) = Ok (loc_out loc'))
    by (unfold MultiHeadAttention_forward; rewrite Hloc'; reflexivity).
  exists (loc_out loc), (loc_out loc').
  split; [exact Ho|]. split; [exact Ho'|]. split.
  - destruct Hspec as (_ & _ & _ & _ & _ & _ & _ & _ & _ & _ & So & _).
    destruct Hspec' as (_ & _ & _ & _ & _ & _ & _ & _ & _ & _ & So' & _).
    rewrite So, So'. reflexivity.
  - intros n i f Hn Hf.
    destruct (MultiHeadAttention_forward_rowwise
                self query key (reindex_batch sigma query)
                (reindex_batch sigma key) query_dim s N N T_q T_k
                (sigma n) n Hwf Hq Hk Hq' Hk' (Hsig n Hn) Hn)
      as (o & o' & E & E' & Hrow).
    + intros; reflexivity.
    + intros; reflexivity.
    + rewrite Ho in E. rewrite Ho' in E'.
      injection E as <-. injection E' as <-.
      symmetry. apply Hrow, Hf.
Qed.

(** X9: [STL.forward] computes the style embedding of each example from
    that example's query vector and the token bank alone: regrouping the
    examples of the input batch regroups the output rows in the same way;
    in particular two examples with the same query vector get the same
    embedding. *)
Theorem style_tokens_batch_reindex
        (st : STL F) (x : tensor F) (N D T_k s : Z) (sigma : Z -> Z) :
  MultiHeadAttention_wf (attention st) D s ->
  shape (embed st) = [T_k; key_dim (attention st)] ->
  shape x = [N; D] -> 0 <= N ->
  (forall n, 0 <= n < N -> 0 <= sigma n < N) ->
  exists out out',
    outcome (run (STL_forward x) st) = Ok out
    /\ outcome (run (STL_forward (reindex_batch sigma x)) st) = Ok out'
    /\ (forall n f, 0 <= n < N -> 0 <= f < num_units (attention st) ->
                    data out' [n; 0; f] = data out [sigma n; 0; f])
    /\ (forall n n' f, 0 <= n < N -> 0 <= n' < N ->
                       0 <= f < num_units (attention st) ->
                       (forall c, 0 <= c < D ->
                                  data x [n; c] = data x [n'; c]) ->
                       data out [n; 0; f] = data out [n'; 0; f]).
Proof.
  intros Hwf He Hx HN Hsig.
  assert (Hx' : shape (reindex_batch sigma x) = [N; D]) by exact Hx.
  destruct (STL_forward_spec st x N D T_k s Hwf He Hx HN)
    as (q & k & loc & Hrun & _).
  destruct (STL_forward_spec st _ N D T_k s Hwf He Hx' HN)
    as (q' & k' & loc' & Hrun' & _).
  exists (loc_out loc), (loc_out loc').
  unfold outcome. rewrite Hrun, Hrun'. cbn [fst].
  split; [reflexivity|]. split; [reflexivity|]. split.
  - intros n f Hn Hf.
    destruct (STL_forward_rowwise st x (reindex_batch sigma x) N N D T_k s
                (sigma n) n Hwf He Hx Hx' (Hsig n Hn) Hn)
      as (o & o' & E & E' & Hrow).
    + intros; reflexivity.
    + unfold outcome in E, E'. rewrite Hrun in E. rewrite Hrun' in E'.
      cbn [fst] in E, E'. injection E as <-. injection E' as <-.
      symmetry. apply Hrow, Hf.
  - intros n n' f Hn Hn' Hf Heq.
    destruct (STL_forward_rowwise st x x N N D T_k s n n' Hwf He Hx Hx
                Hn Hn' Heq) as (o & o' & E & E' & Hrow).
    unfold outcome in E, E'. rewrite Hrun in E, E'.
    cbn [fst] in E, E'. injection E as <-. injection E' as <-.
    apply Hrow, Hf.
Qed.

End MoreAttention.

Lemma MultiHeadAttention_forward_width_mismatch_witness :
  MultiHeadAttention_forward example_block (sym_input [2; 1; 4]) example_key
  = Raise RuntimeError.
Proof.
  apply (MultiHeadAttention_forward_width_mismatch
           example_block (sym_input [2; 1; 4]) example_key 2 1 4 4 5
           eq_refl eq_refl).
  left. discriminate.
Defined.

Lemma attention_effective_heads_witness :
  exists loc,
    MultiHeadAttention_locals example_block_6_4 example_query example_key
    = Ok loc
    /\ shape (loc_querys4 loc) = [6; 2; 1; 1]
    /\ shape (loc_out loc) = [2; 1; 6].
Proof.
  destruct (attention_effective_heads
              example_block_6_4 example_query example_key 3 1 6 2 1 4
              eq_refl eq_refl eq_refl eq_refl eq_refl eq_refl eq_refl
              eq_refl eq_refl eq_refl eq_refl eq_refl)
    as (loc & Hloc & Sq & _ & So & _).
  exists loc. repeat split; assumption.
Defined.


Lemma attention_batch_reindex_witness :
  exists out out',
    MultiHeadAttention_forward example_block example_query example_key = Ok out
    /\ MultiHeadAttention_forward example_block
         (reindex_batch (fun n => 1 - n) example_query)
         (reindex_batch (fun n => 1 - n) example_key) = Ok out'
    /\ data out' [0; 0; 5] = data out [1; 0; 5].
Proof.
  destruct (attention_batch_reindex example_block example_query example_key
              3 4 2 1 4 (fun n => 1 - n) example_block_wf eq_refl eq_refl)
    as (out & out' & Ho & Ho' & _ & Hrow).
  - intros n Hn. lia.
  - exists out, out'. split; [exact Ho|]. split; [exact Ho'|].
    apply (Hrow 0 0 5); cbn; lia.
Defined.

Lemma style_tokens_batch_reindex_witness :
  exists out out',
    outcome (run (STL_forward (sym_input [2; 3])) example_stl) = Ok out
    /\ outcome (run (STL_forward (reindex_batch (fun n => 1 - n)
                                                (sym_input [2; 3])))
                    example_stl) = Ok out'
    /\ data out' [0; 0; 5] = data out [1; 0; 5].
Proof.
  destruct (style_tokens_batch_reindex example_stl (sym_input [2; 3])
              2 3 4 4 (fun n => 1 - n) example_block_wf eq_refl eq_refl)
    as (out & out' & Ho & Ho' & Hrow & _).
  - lia.
  - intros n Hn. lia.
  - exists out, out'. split; [exact Ho|]. split; [exact Ho'|].
    apply (Hrow 0 5); cbn; lia.
Defined.

(** ** The feature pipeline of the reference encoder *)

Section EncoderMore.
Context {F : Type} `{Numeric F}.

Lemma halve_stage_le L : 1 <= L -> halve_stage L <= L.
Proof.
  intros HL. unfold halve_stage.
  pose proof (Z.div_mod (L - 3 + 2) 2 ltac:(lia)).
  pose proof (Z.mod_pos_bound (L - 3 + 2) 2 ltac:(lia)). lia.
Qed.

Lemma iter_halve_stage_le n L : 1 <= L -> Nat.iter n halve_stage L <= L.
Proof.
  intros HL. induction n as [|n IH]; [simpl; lia|].
  rewrite Nat.iter_succ.
  pose proof (iter_halve_stage_pos n L HL).
  pose proof (halve_stage_le _ H0). lia.
Qed.

Lemma BatchNorm2d_forward_spec (b : BatchNorm2d F) (x : tensor F) l N c Ht Wd :
  bn_num_features b = c -> shape x = [N; c; Ht; Wd] ->
  N * (Ht * Wd) <> 1 ->
  exists t b', BatchNorm2d_forward x b l = (Ok t, b', l)
               /\ shape t = [N; c; Ht; Wd]
               /\ bn_num_features b' = c
               /\ bn_training b' = bn_training b
               /\ bn_num_batches_tracked b' = counted b.
Proof.
  intros Hc Hx Hne.
  unfold BatchNorm2d_forward, bind, get, put, ret, lift, counted.
  rewrite Hx, Hc.
  destruct (Z.eqb_spec (N * (Ht * Wd)) 1); [contradiction|].
  rewrite Z.eqb_refl, andb_false_r. cbn [negb].
  destruct (bn_training b) eqn:Et; eexists; eexists;
    (split; [reflexivity|]); cbn; repeat split; try reflexivity;
    try exact Hc; try exact Et.
Qed.

Lemma conv_stack_spec cin cs bs cout :
  stack_ok cin cs bs cout -> channels_positive cs ->
  forall (x : tensor F) l N Ht Wd,
    shape x = [N; cin; Ht; Wd] -> 1 <= N -> 1 <= Ht -> 1 <= Wd ->
    2 <= N * (Nat.iter (length cs) halve_stage Ht
              * Nat.iter (length cs) halve_stage Wd) ->
    exists t bs',
      conv_stack cs x bs l = (Ok t, bs', l)
      /\ shape t = [N; cout; Nat.iter (length cs) halve_stage Ht;
                    Nat.iter (length cs) halve_stage Wd]
      /\ stack_ok cin cs bs' cout
      /\ map bn_training bs' = map bn_training bs
      /\ map bn_num_batches_tracked bs' = map counted bs.
Proof.
  induction 1 as [c|cin cmid cout conv bn cs bs Hconv Hbn Hst IH];
    intros Hpos x l N Ht Wd Hx HN HH HW Hbig.
  - exists x, []. repeat split; [exact Hx|constructor].
  - pose proof (Forall_inv Hpos) as Hco. cbv beta in Hco.
    pose proof (Forall_inv_tail Hpos) as Hpos'.
    assert (Hcm : 1 <= cmid)
      by (destruct Hconv as (_ & <- & _); exact Hco).
    specialize (IH Hpos').
    cbn [conv_stack]. unfold bind at 1, get.
    destruct (Conv2d_forward_shape conv x cin cmid N Ht Wd Hconv Hcm Hx HH HW)
      as (t1 & E1 & S1).
    unfold bind at 1, lift at 1. rewrite E1.
    pose proof (halve_stage_pos Ht HH) as HH'.
    pose proof (halve_stage_pos Wd HW) as HW'.
    cbn [length] in Hbig. rewrite !Nat.iter_succ_r in Hbig.
    pose proof (iter_halve_stage_le (length cs) _ HH') as LH.
    pose proof (iter_halve_stage_le (length cs) _ HW') as LW.
    pose proof (iter_halve_stage_pos (length cs) _ HH') as PH.
    pose proof (iter_halve_stage_pos (length cs) _ HW') as PW.
    assert (Hne : N * (halve_stage Ht * halve_stage Wd) <> 1).
    { assert (Nat.iter (length cs) halve_stage (halve_stage Ht)
              * Nat.iter (length cs) halve_stage (halve_stage Wd)
              <= halve_stage Ht * halve_stage Wd)
        by (apply Z.mul_le_mono_nonneg; lia).
      assert (N * (Nat.iter (length cs) halve_stage (halve_stage Ht)
                   * Nat.iter (length cs) halve_stage (halve_stage Wd))
              <= N * (halve_stage Ht * halve_stage Wd))
        by (apply Z.mul_le_mono_nonneg_l; lia).
      lia. }
    destruct (BatchNorm2d_forward_spec bn t1 l N cmid _ _ Hbn S1 Hne)
      as (t2 & bn' & E2 & S2 & Hbn' & Ht' & Hc').
    unfold bind, zoom. cbn [hd tl]. rewrite E2. cbn [hd tl].
    destruct (IH (relu t2) l N _ _ S2 HN HH' HW' Hbig)
      as (t3 & bs' & E3 & S3 & Hst' & Htr & Hcn).
    rewrite E3. exists t3, (bn' :: bs').
    split; [reflexivity|]. split.
    + rewrite S3. cbn [length]. rewrite !Nat.iter_succ_r. reflexivity.
    + split; [econstructor; eassumption|].
      cbn [map]. rewrite Ht', Htr, Hc', Hcn. split; reflexivity.
Qed.

Lemma view_data (x : tensor F) req t :
  view x req = Ok t ->
  forall idx, data t idx = data x (unravel (shape x) (ravel (shape t) idx)).
Proof.
  unfold view. destruct (infer_size _ _) as [s|]; cbn [rbind]; [|discriminate].
  intros [= <-]. reflexivity.
Qed.

Lemma div_mod_block n D r :
  0 <= r < D -> (n * D + r) / D = n /\ (n * D + r) mod D = r.
Proof.
  intros Hr. split.
  - symmetry. apply Z.div_unique with (r := r); [left; exact Hr|ring].
  - symmetry. apply Z.mod_unique with (q := n); [left; exact Hr|ring].
Qed.

Lemma view_mel_data (x t : tensor F) N T m mel T' :
  shape x = [N; T; m] -> shape t = [N; 1; T'; mel] ->
  view x [N; 1; -1; mel] = Ok t ->
  T * m = T' * mel -> 0 < m ->
  forall n t' f, 0 <= t' < T' -> 0 <= f < mel ->
    data t [n; 0; t'; f]
    = data x [n; (t' * mel + f) / m; (t' * mel + f) mod m].
Proof.
  intros Hx Ht Hv HT Hm n t' f Ht' Hf.
  rewrite (view_data x _ t Hv), Hx, Ht.
  cbn [ravel unravel numel fold_right].
  set (r := t' * mel + f).
  assert (Hr : 0 <= r < T' * mel) by (unfold r; nia).
  replace (n * (1 * (T' * (mel * 1)))
           + (0 * (T' * (mel * 1)) + (t' * (mel * 1) + (f * 1 + 0))))
    with (n * (T' * mel) + r) by (unfold r; ring).
  replace (T * (m * 1)) with (T' * mel) by lia.
  destruct (div_mod_block n (T' * mel) r Hr) as (-> & ->).
  rewrite Z.mul_1_r, Z.div_1_r. reflexivity.
Qed.

Lemma view_flatten_data (x t : tensor F) N T C L :
  shape x = [N; T; C; L] -> shape t = [N; T; C * L] ->
  view x [N; T; -1] = Ok t ->
  forall n i c l, 0 <= i < T -> 0 <= c < C -> 0 <= l < L ->
    data t [n; i; c * L + l] = data x [n; i; c; l].
Proof.
  intros Hx Ht Hv n i c l Hi Hc Hl.
  rewrite (view_data x _ t Hv), Hx, Ht.
  cbn [ravel unravel numel fold_right].
  assert (H2 : 0 <= c * L + l < C * L) by nia.
  assert (H1 : 0 <= i * (C * L) + (c * L + l) < T * (C * L)) by nia.
  replace (n * (T * (C * L * 1)) + (i * (C * L * 1) + ((c * L + l) * 1 + 0)))
    with (n * (T * (C * L)) + (i * (C * L) + (c * L + l))) by ring.
  replace (T * (C * (L * 1))) with (T * (C * L)) by ring.
  replace (C * (L * 1)) with (C * L) by ring.
  destruct (div_mod_block n (T * (C * L)) _ H1) as (-> & ->).
  destruct (div_mod_block i (C * L) _ H2) as (-> & ->).
  rewrite Z.mul_1_r.
  destruct (div_mod_block c L l Hl) as (-> & ->).
  rewrite Z.div_1_r. reflexivity.
Qed.

Lemma ReferenceEncoder_forward_features inputs lens (e : ReferenceEncoder F) l :
  ReferenceEncoder_forward inputs lens e l
  = match ReferenceEncoder_features inputs e l with
    | (Ok x, e', l') =>
        (match lens with
         | None => rmap squeeze0 (GRU_forward (gru e) (Padded x))
         | Some _ => Raise TypeError
         end, e', l')
    | (Raise ex, e', l') => (Raise ex, e', l')
    end.
Proof.
  unfold ReferenceEncoder_forward, ReferenceEncoder_features.
  unfold bind, called, get, lift, ret.
  destruct (size inputs 0) as [n|]; [|reflexivity].
  destruct (view inputs _) as [o1|]; [|reflexivity].
  destruct (zoom bns set_bns _ _ _) as [[[o2|] s1] l1]; [|reflexivity].
  destruct (transpose o2 1 2) as [o3|]; [|reflexivity].
  destruct (size o3 0) as [N|]; [|reflexivity].
  destruct (size o3 1) as [T|]; [|reflexivity].
  destruct (view o3 _) as [o4|]; [|reflexivity].
  destruct lens as [lengths|]; [reflexivity|].
  destruct (GRU_forward (gru e) (Padded o4)); reflexivity.
Qed.


Lemma ReferenceEncoder_features_spec (e : ReferenceEncoder F)
      (inputs : tensor F) N T m T' l0 :
  ReferenceEncoder_wf e -> channels_positive (convs e) ->
  shape inputs = [N; T; m] -> 1 <= N ->
  T * m = T' * n_mel_channels e -> 1 <= T' ->
  2 <= N * (Nat.iter (length (convs e)) halve_stage T'
            * Nat.iter (length (convs e)) halve_stage (n_mel_channels e)) ->
  exists cf x0 y bs' feat,
    gru_input_size (gru e)
    = cf * Nat.iter (length (convs e)) halve_stage (n_mel_channels e)
    /\ view inputs [N; 1; -1; n_mel_channels e] = Ok x0
    /\ shape x0 = [N; 1; T'; n_mel_channels e]
    /\ conv_stack (convs e) x0 (bns e)
                  (l0 ++ ["ReferenceEncoder.forward"%string])
       = (Ok y, bs', l0 ++ ["ReferenceEncoder.forward"%string])
    /\ shape y = [N; cf; Nat.iter (length (convs e)) halve_stage T';
                  Nat.iter (length (convs e)) halve_stage (n_mel_channels e)]
    /\ stack_ok 1 (convs e) bs' cf
    /\ map bn_training bs' = map bn_training (bns e)
    /\ map bn_num_batches_tracked bs' = map counted (bns e)
    /\ ReferenceEncoder_features inputs e l0
       = (Ok feat, set_bns bs' e, l0 ++ ["ReferenceEncoder.forward"%string])
    /\ shape feat = [N; Nat.iter (length (convs e)) halve_stage T';
                     gru_input_size (gru e)]
    /\ (forall n t c l,
           0 <= t < Nat.iter (length (convs e)) halve_stage T' ->
           0 <= c < cf ->
           0 <= l < Nat.iter (length (convs e)) halve_stage
                             (n_mel_channels e) ->
           data feat
                [n; t;
                 c * Nat.iter (length (convs e)) halve_stage (n_mel_channels e)
                 + l]
           = data y [n; c; t; l]).
Proof.
  intros (cf & Hst & Hcf & Hmel & Hgru) Hpos Hin HN HT HT' Hbig.
  destruct (view_mel inputs N T m _ T' Hin HN Hmel HT) as (x0 & E0 & S0).
  destruct (conv_stack_spec 1 _ _ cf Hst Hpos x0
              (l0 ++ ["ReferenceEncoder.forward"%string]) N T' _ S0 HN HT'
              Hmel Hbig)
    as (y & bs' & E1 & S1 & Hst' & Htr & Hcn).
  set (K := length (convs e)) in *.
  pose proof (iter_halve_stage_pos K T' HT') as HTf.
  set (yt := mkT [N; Nat.iter K halve_stage T'; cf;
                  Nat.iter K halve_stage (n_mel_channels e)]
                 (fun idx => data y (swap_at 1 2 idx))).
  assert (Etr : transpose y 1 2 = Ok yt).
  { unfold transpose. rewrite S1. reflexivity. }
  destruct (view_flatten yt N _ cf (Nat.iter K halve_stage (n_mel_channels e))
                         eq_refl HN HTf) as (feat & E3 & S3).
  exists cf, x0, y, bs', feat.
  split; [exact Hgru|]. split; [exact E0|]. split; [exact S0|].
  split; [exact E1|]. split; [exact S1|]. split; [exact Hst'|].
  split; [exact Htr|]. split; [exact Hcn|]. split; [|split].
  - unfold ReferenceEncoder_features.
    unfold bind at 1, called.
    unfold bind at 1, get.
    unfold bind at 1, lift at 1, size. rewrite Hin. cbn [nth_error].
    unfold bind at 1, lift at 1. rewrite E0.
    unfold bind at 1, zoom. rewrite E1.
    unfold bind at 1, lift at 1. rewrite Etr.
    unfold bind at 1, lift at 1, size. cbn [yt shape nth_error].
    unfold bind at 1, lift at 1. cbn [nth_error].
    unfold lift. fold yt. rewrite E3. reflexivity.
  - rewrite S3, Hgru. reflexivity.
  - intros n t c l Ht Hc Hl.
    rewrite (view_flatten_data yt feat N _ cf _ eq_refl S3 E3 n t c l Ht Hc Hl).
    reflexivity.
Qed.

End EncoderMore.

(** ** Further properties of [ReferenceEncoder.forward] *)

Section EncoderExtras.
Context {F : Type} `{Numeric F}.

Lemma mapR_Forall {A B} (f : A -> result B) (P : B -> Prop) (xs : list A) bs :
  (forall a b, f a = Ok b -> P b) -> mapR f xs = Ok bs -> Forall P bs.
Proof.
  intros Hf. revert bs. induction xs as [|a xs IH]; intros bs; cbn [mapR].
  - intros [= <-]. constructor.
  - destruct (f a) as [b|] eqn:Eb; [|discriminate]. cbn [rbind].
    destruct (mapR f xs) as [bs'|]; [|discriminate]. cbn [rbind].
    intros [= <-]. constructor; [apply (Hf a), Eb|apply IH; reflexivity].
Qed.

Lemma ReferenceEncoder_init_facts (hp : hparams) (enc : ReferenceEncoder F) l :
  construct (ReferenceEncoder_init hp) = (Ok enc, l) ->
  1 <= hp_n_mel_channels hp ->
  ReferenceEncoder_wf enc
  /\ gru_hidden_size (gru enc) = hp_ref_enc_gru_size hp
  /\ n_mel_channels enc = hp_n_mel_channels hp
  /\ length (convs enc) = length (hp_ref_enc_filters hp)
  /\ hp_ref_enc_filters hp <> []
  /\ Forall (fun b => bn_training b = true) (bns enc)
  /\ Forall (fun b => bn_num_batches_tracked b = 0) (bns enc).
Proof.
  intros Hc Hmel.
  destruct (ReferenceEncoder_init_wf hp enc l Hc Hmel) as (Hwf & Hgh & Hnm).
  destruct (ReferenceEncoder_init_inv hp enc l Hc)
    as (cs & bs & cf & g & Hcs & Hbs & Hlast & Hg & -> & _).
  cbn [convs bns].
  split; [exact Hwf|]. split; [exact Hgh|]. split; [exact Hnm|].
  split; [rewrite (mapR_length _ _ _ Hcs); apply length_seq|].
  split.
  { intros E. rewrite E in Hlast. discriminate. }
  split.
  - refine (mapR_Forall _ _ _ _ _ Hbs). intros a b.
    unfold BatchNorm2d_init.
    destruct (_ <? 0); [discriminate|]. intros [= <-]. reflexivity.
  - refine (mapR_Forall _ _ _ _ _ Hbs). intros a b.
    unfold BatchNorm2d_init.
    destruct (_ <? 0); [discriminate|]. intros [= <-]. reflexivity.
Qed.

Lemma ceil_div_floor a b :
  0 < b ->
  a / b <= ceil_div a b
  /\ (a mod b <> 0 -> ceil_div a b = a / b + 1)
  /\ (a mod b = 0 -> ceil_div a b = a / b).
Proof.
  intros Hb. pose proof (ceil_div_spec a b Hb).
  pose proof (Z.div_mod a b ltac:(lia)).
  pose proof (Z.mod_pos_bound a b Hb).
  repeat split; intros; nia.
Qed.

Lemma GRU_forward_padded (g : GRU F) (feat : tensor F) N Tf :
  shape feat = [N; Tf; gru_input_size g] -> 1 <= Tf ->
  exists h, rmap squeeze0 (GRU_forward g (Padded feat)) = Ok h
            /\ shape h = [N; gru_hidden_size g].
Proof.
  intros Hs HT. unfold GRU_forward. rewrite Hs, Z.eqb_refl. cbn [negb].
  destruct (Z.leb_spec Tf 0); [lia|].
  cbn [rmap rbind]. unfold squeeze0. cbn [shape].
  change (1 =? 1) with true. cbv iota.
  eexists. split; reflexivity.
Qed.

(** X10: the sequence [ReferenceEncoder.forward] hands to the GRU.  For an
    encoder built from [hp] and a batch [N x T x n_mel_channels] (N >= 2,
    T >= 1) lines 41-50 produce a tensor of shape
    [N x ceil(T / 2^K) x gru.input_size], [K] the number of filters, and
    the call without lengths returns the GRU's final state on it.  The
    time axis is the ceiling of [T / 2^K]: it is one more than the floor
    [T // 2^K] whenever [2^K] does not divide [T]. *)
Theorem ReferenceEncoder_gru_sequence_shape
        (hp : hparams) (enc : ReferenceEncoder F) l
        (inputs : tensor F) (N T : Z) :
  construct (ReferenceEncoder_init hp) = (Ok enc, l) ->
  Forall (fun f => 1 <= f) (hp_ref_enc_filters hp) ->
  1 <= hp_n_mel_channels hp ->
  shape inputs = [N; T; hp_n_mel_channels hp] -> 2 <= N -> 1 <= T ->
  exists feat enc',
    run (ReferenceEncoder_features inputs) enc
    = (Ok feat, enc', ["ReferenceEncoder.forward"%string])
    /\ shape feat = [N; ceil_div T (2 ^ len (hp_ref_enc_filters hp));
                     gru_input_size (gru enc)]
    /\ run (ReferenceEncoder_forward inputs None) enc
       = (rmap squeeze0 (GRU_forward (gru enc) (Padded feat)), enc',
          ["ReferenceEncoder.forward"%string])
    /\ T / 2 ^ len (hp_ref_enc_filters hp)
       <= ceil_div T (2 ^ len (hp_ref_enc_filters hp))
    /\ (T mod 2 ^ len (hp_ref_enc_filters hp) <> 0 ->
        ceil_div T (2 ^ len (hp_ref_enc_filters hp))
        = T / 2 ^ len (hp_ref_enc_filters hp) + 1).
Proof.
  intros Hc Hpos Hmel Hin HN HT.
  destruct (ReferenceEncoder_init_facts hp enc l Hc Hmel)
    as (Hwf & _ & Hnm & HK & _).
  pose proof (ReferenceEncoder_init_channels hp enc l Hc Hpos) as Hch.
  rewrite <- Hnm in Hin, Hmel.
  pose proof (iter_halve_stage_pos (length (convs enc)) T HT) as PT.
  pose proof (iter_halve_stage_pos (length (convs enc)) _ Hmel) as PM.
  destruct (ReferenceEncoder_features_spec enc inputs N T _ T [] Hwf Hch Hin
              ltac:(lia) eq_refl HT ltac:(nia))
    as (cf & x0 & y & bs' & feat & _ & _ & _ & _ & _ & _ & _ & _ & Hf & Sf & _).
  exists feat, (set_bns bs' enc).
  assert (Hpow : 0 < 2 ^ len (hp_ref_enc_filters hp))
    by (apply Z.pow_pos_nonneg; unfold len; lia).
  split; [exact Hf|]. split.
  { rewrite Sf, iter_halve_stage_ceil, HK. reflexivity. }
  split.
  { unfold run. rewrite ReferenceEncoder_forward_features. unfold run in Hf.
    rewrite Hf. reflexivity. }
  destruct (ceil_div_floor T _ Hpow) as (Hle & Hne & _).
  split; assumption.
Qed.

(** X11: data layout of the two reshapes of [ReferenceEncoder.forward].
    The [view] of line 42 reads the input in row-major order: entry
    [(n, 0, t, f)] of the image is the input entry at flat position
    [t * n_mel_channels + f] of example [n], which is entry [(n, t, f)]
    when the input has [n_mel_channels] features.  The transpose and
    [view] of lines 48-50 put channel [c], frequency [f] of the
    convolution output at feature [c * L + f] of time step [t], [L] the
    collapsed frequency size. *)
Theorem ReferenceEncoder_features_layout
        (hp : hparams) (enc : ReferenceEncoder F) l
        (inputs : tensor F) (N T m T' : Z) :
  construct (ReferenceEncoder_init hp) = (Ok enc, l) ->
  Forall (fun f => 1 <= f) (hp_ref_enc_filters hp) ->
  1 <= hp_n_mel_channels hp ->
  shape inputs = [N; T; m] -> 2 <= N -> 0 < m ->
  T * m = T' * hp_n_mel_channels hp -> 1 <= T' ->
  exists x0 y bs' feat C,
    view inputs [N; 1; -1; hp_n_mel_channels hp] = Ok x0
    /\ (forall n t f, 0 <= t < T' -> 0 <= f < hp_n_mel_channels hp ->
          data x0 [n; 0; t; f]
          = data inputs [n; (t * hp_n_mel_channels hp + f) / m;
                         (t * hp_n_mel_channels hp + f) mod m])
    /\ (m = hp_n_mel_channels hp ->
        forall n t f, 0 <= t < T -> 0 <= f < m ->
          data x0 [n; 0; t; f] = data inputs [n; t; f])
    /\ conv_stack (convs enc) x0 (bns enc) ["ReferenceEncoder.forward"%string]
       = (Ok y, bs', ["ReferenceEncoder.forward"%string])
    /\ shape y = [N; C; ceil_div T' (2 ^ len (hp_ref_enc_filters hp));
                  ceil_div (hp_n_mel_channels hp)
                           (2 ^ len (hp_ref_enc_filters hp))]
    /\ run (ReferenceEncoder_features inputs) enc
       = (Ok feat, set_bns bs' enc, ["ReferenceEncoder.forward"%string])
    /\ (forall n t c f,
           0 <= t < ceil_div T' (2 ^ len (hp_ref_enc_filters hp)) ->
           0 <= c < C ->
           0 <= f < ceil_div (hp_n_mel_channels hp)
                             (2 ^ len (hp_ref_enc_filters hp)) ->
           data feat
                [n; t;
                 c * ceil_div (hp_n_mel_channels hp)
                              (2 ^ len (hp_ref_enc_filters hp)) + f]
           = data y [n; c; t; f]).
Proof.
  intros Hc Hpos Hmel Hin HN Hm HT HT'.
  destruct (ReferenceEncoder_init_facts hp enc l Hc Hmel)
    as (Hwf & _ & Hnm & HK & _).
  pose proof (ReferenceEncoder_init_channels hp enc l Hc Hpos) as Hch.
  rewrite <- Hnm in HT, Hmel |- *.
  pose proof (iter_halve_stage_pos (length (convs enc)) T' HT') as PT.
  pose proof (iter_halve_stage_pos (length (convs enc)) _ Hmel) as PM.
  destruct (ReferenceEncoder_features_spec enc inputs N T m T' [] Hwf Hch Hin
              ltac:(lia) HT HT' ltac:(nia))
    as (cf & x0 & y & bs' & feat & _ & E0 & S0 & E1 & S1 & _ & _ & _
        & Hf & _ & Hd).
  unfold len. rewrite <- HK, <- !iter_halve_stage_ceil.
  exists x0, y, bs', feat, cf.
  split; [exact E0|]. split.
  { intros n t f Ht Hf'.
    apply (view_mel_data inputs x0 N T m _ T' Hin S0 E0 HT Hm n t f Ht Hf'). }
  split.
  { intros Em n t f Ht Hf'.
    assert (HTT : T' = T) by (rewrite <- Em in HT; nia).
    rewrite (view_mel_data inputs x0 N T m _ T' Hin S0 E0 HT Hm n t f)
      by lia.
    rewrite <- Em.
    destruct (div_mod_block t m f Hf') as (-> & ->). reflexivity. }
  split; [exact E1|]. split; [exact S1|]. split; [exact Hf|exact Hd].
Qed.

(** X12: [input_lengths] is looked at only after the convolutions have
    run (line 52).  A call with lengths leaves the encoder in the same
    state and makes the same calls as the call without; if lines 41-50
    fail both calls raise that same exception; if they succeed the call
    with lengths raises [TypeError]. *)
Theorem ReferenceEncoder_forward_lengths_read_late
        (inputs : tensor F) (lengths : list Z) (e : ReferenceEncoder F) :
  final_state (run (ReferenceEncoder_forward inputs (Some lengths)) e)
  = final_state (run (ReferenceEncoder_forward inputs None) e)
  /\ final_log (run (ReferenceEncoder_forward inputs (Some lengths)) e)
     = final_log (run (ReferenceEncoder_forward inputs None) e)
  /\ (forall err,
         outcome (run (ReferenceEncoder_features inputs) e) = Raise err ->
         outcome (run (ReferenceEncoder_forward inputs (Some lengths)) e)
         = Raise err
         /\ outcome (run (ReferenceEncoder_forward inputs None) e) = Raise err)
  /\ (forall feat,
         outcome (run (ReferenceEncoder_features inputs) e) = Ok feat ->
         outcome (run (ReferenceEncoder_forward inputs (Some lengths)) e)
         = Raise TypeError).
Proof.
  unfold run. rewrite !ReferenceEncoder_forward_features.
  destruct (ReferenceEncoder_features inputs e []) as [[[feat|err] e'] l'];
    cbn [outcome final_state final_log fst snd].
  - split; [reflexivity|]. split; [reflexivity|].
    split; [intros err [=]|reflexivity].
  - split; [reflexivity|]. split; [reflexivity|].
    split; [intros err' [= <-]; split; reflexivity|intros feat [=]].
Qed.

Lemma map_counted_training (bs : list (BatchNorm2d F)) :
  Forall (fun b => bn_training b = true) bs ->
  map counted bs = map (fun b => bn_num_batches_tracked b + 1) bs.
Proof.
  intros Hall. apply map_ext_in. intros b Hb.
  rewrite Forall_forall in Hall. unfold counted. rewrite (Hall b Hb).
  reflexivity.
Qed.

(** X13: a call with lengths fails after its side effects.  On a
    well-formed encoder in training mode and a batch
    [N x T x n_mel_channels] (N >= 2, T >= 1) the call raises [TypeError],
    and by then every batch-norm layer has counted one more batch: the
    encoder is no longer the object it was before the call. *)
Theorem ReferenceEncoder_forward_lengths_side_effects
        (e : ReferenceEncoder F) (inputs : tensor F) (lengths : list Z)
        (N T : Z) :
  ReferenceEncoder_wf e -> channels_positive (convs e) ->
  Forall (fun b => bn_training b = true) (bns e) ->
  shape inputs = [N; T; n_mel_channels e] -> 2 <= N -> 1 <= T ->
  exists e',
    run (ReferenceEncoder_forward inputs (Some lengths)) e
    = (Raise TypeError, e', ["ReferenceEncoder.forward"%string])
    /\ map bn_num_batches_tracked (bns e')
       = map (fun b => bn_num_batches_tracked b + 1) (bns e)
    /\ (bns e <> [] -> e' <> e)
    /\ convs e' = convs e /\ gru e' = gru e.
Proof.
  intros Hwf Hch Htr Hin HN HT.
  assert (Hmel : 1 <= n_mel_channels e)
    by (destruct Hwf as (? & ? & ? & ? & ?); assumption).
  pose proof (iter_halve_stage_pos (length (convs e)) T HT) as PT.
  pose proof (iter_halve_stage_pos (length (convs e)) _ Hmel) as PM.
  destruct (ReferenceEncoder_features_spec e inputs N T _ T [] Hwf Hch Hin
              ltac:(lia) eq_refl HT ltac:(nia))
    as (cf & x0 & y & bs' & feat & _ & _ & _ & _ & _ & _ & _ & Hcn & Hf & _).
  exists (set_bns bs' e). unfold run.
  rewrite ReferenceEncoder_forward_features, Hf.
  split; [reflexivity|]. cbn [set_bns bns convs gru].
  rewrite Hcn, (map_counted_training _ Htr).
  split; [reflexivity|]. split; [|split; reflexivity].
  intros Hne Heq. apply (f_equal bns) in Heq. cbn [set_bns bns] in Heq.
  rewrite Heq in Hcn. rewrite (map_counted_training _ Htr) in Hcn.
  destruct (bns e) as [|b bs]; [contradiction|].
  cbn [map] in Hcn. injection Hcn as Hb _. lia.
Qed.

End EncoderExtras.

(** ** Further properties of the whole model *)

Section ModelExtras.
Context {F : Type} `{Numeric F}.

Lemma BatchNorm2d_forward_eval (x : tensor F) (b : BatchNorm2d F) l :
  bn_training b = false ->
  exists r, BatchNorm2d_forward x b l = (r, b, l).
Proof.
  intros Ht. unfold BatchNorm2d_forward, bind, get, put, ret, lift.
  destruct (shape x) as [|n [|c [|h [|w [|? ?]]]]];
    try (eexists; reflexivity).
  rewrite Ht. cbn [andb].
  destruct (negb (c =? bn_num_features b)); eexists; reflexivity.
Qed.

Lemma conv_stack_eval (cs : list (Conv2d F)) :
  forall x bs l,
    Forall (fun b => bn_training b = false) bs ->
    exists r, conv_stack cs x bs l = (r, bs, l).
Proof.
  induction cs as [|conv cs IH]; intros x bs l Hall.
  - eexists; reflexivity.
  - cbn [conv_stack]. unfold bind at 1, get.
    destruct bs as [|bn bs']; [eexists; reflexivity|].
    inversion Hall as [|? ? Hbn Hrest]; subst.
    unfold bind at 1, lift at 1.
    destruct (Conv2d_forward conv x) as [x1|]; [|eexists; reflexivity].
    unfold bind, zoom. cbn [hd tl].
    destruct (BatchNorm2d_forward_eval x1 bn l Hbn) as ([x2|] & ->);
      cbn [hd tl]; [|eexists; reflexivity].
    destruct (IH (relu x2) bs' l Hrest) as (r & ->).
    eexists; reflexivity.
Qed.

Lemma ReferenceEncoder_forward_eval (e : ReferenceEncoder F) inputs lens l :
  Forall (fun b => bn_training b = false) (bns e) ->
  final_state (ReferenceEncoder_forward inputs lens e l) = e.
Proof.
  intros Hall. rewrite ReferenceEncoder_forward_features.
  assert (Hf : final_state (ReferenceEncoder_features inputs e l) = e).
  { unfold ReferenceEncoder_features, bind, called, get, lift, ret.
    destruct (size inputs 0) as [n|]; [|reflexivity].
    destruct (view inputs _) as [o1|]; [|reflexivity].
    unfold zoom.
    destruct (conv_stack_eval (convs e) o1 (bns e)
                (l ++ ["ReferenceEncoder.forward"%string]) Hall) as (r & ->).
    assert (Eset : set_bns (bns e) e = e) by (destruct e; reflexivity).
    rewrite Eset.
    destruct r as [o2|]; [|reflexivity].
    destruct (transpose o2 1 2) as [o3|]; [|reflexivity].
    destruct (size o3 0) as [N|]; [|reflexivity].
    destruct (size o3 1) as [T|]; [|reflexivity].
    destruct (view o3 _) as [o4|]; reflexivity. }
  destruct (ReferenceEncoder_features inputs e l) as [[[feat|] e'] l'];
    exact Hf.
Qed.

Lemma STL_forward_state (st : STL F) x l :
  final_state (STL_forward x st l) = st.
Proof. apply (STL_forward_parameters x st l). Qed.

(** X14: in evaluation mode a forward pass is read-only.  When no
    batch-norm layer of the encoder is in training mode, [GST.forward]
    (and [ReferenceEncoder.forward]) leaves the whole model object as it
    was, buffers included, whatever the input, the lengths and the
    outcome. *)
Theorem GST_forward_eval_read_only
        (g : GST F) (inputs : tensor F) (input_lengths : option (list Z)) :
  Forall (fun b => bn_training b = false) (bns (encoder g)) ->
  final_state (run (GST_forward inputs input_lengths) g) = g
  /\ final_state (run (ReferenceEncoder_forward inputs input_lengths)
                      (encoder g))
     = encoder g.
Proof.
  intros Hall. split.
  - unfold run, GST_forward. unfold bind at 1, called. cbn [app].
    unfold bind at 1, zoom at 1.
    pose proof (ReferenceEncoder_forward_eval (encoder g) inputs input_lengths
                  ["GST.forward"%string] Hall) as He.
    destruct (ReferenceEncoder_forward inputs input_lengths (encoder g) _)
      as [[[x|] e'] l1]; cbn [final_state fst snd] in He; subst e'.
    + assert (Eg : set_encoder (encoder g) g = g) by (destruct g; reflexivity).
      rewrite Eg. unfold bind, zoom.
      pose proof (STL_forward_state (stl g) x l1) as Hs.
      destruct (STL_forward x (stl g) l1) as [[[y|] s'] l2];
        cbn [final_state fst snd] in Hs |- *; subst s';
        destruct g; reflexivity.
    + destruct g; reflexivity.
  - apply ReferenceEncoder_forward_eval, Hall.
Qed.

Lemma GST_eval_bns (g : GST F) :
  Forall (fun b => bn_training b = false) (bns (encoder (GST_eval g))).
Proof.
  unfold GST_eval, ReferenceEncoder_eval. cbn [encoder bns].
  apply Forall_forall. intros b Hb. apply in_map_iff in Hb.
  destruct Hb as (b0 & <- & _). reflexivity.
Qed.

Lemma STL_forward_any_log (st : STL F) x l0 :
  STL_forward x st l0
  = (outcome (run (STL_forward x) st), final_state (run (STL_forward x) st),
     l0 ++ final_log (run (STL_forward x) st)).
Proof.
  unfold run, STL_forward, bind, called, get, lift, ret.
  destruct (size x 0) as [N|];
    [|cbn [outcome final_state final_log fst snd app]; reflexivity].
  destruct (unsqueeze x 1) as [q|];
    [|cbn [outcome final_state final_log fst snd app]; reflexivity].
  destruct (unsqueeze (tanh (embed st)) 0) as [k0|];
    [|cbn [outcome final_state final_log fst snd app]; reflexivity].
  destruct (expand k0 _) as [k|];
    [|cbn [outcome final_state final_log fst snd app]; reflexivity].
  destruct (MultiHeadAttention_forward (attention st) q k);
    cbn [outcome final_state final_log fst snd app];
    rewrite <- app_assoc; reflexivity.
Qed.

Lemma GST_init_inv (hp : hparams) (g : GST F) l :
  hparams_sizes_ok hp ->
  construct (GST_init hp) = (Ok g, l) ->
  (exists l1, construct (ReferenceEncoder_init hp) = (Ok (encoder g), l1))
  /\ (exists l2, construct (STL_init hp) = (Ok (stl g), l2)).
Proof.
  intros Hok.
  destruct (ReferenceEncoder_init_ok hp Hok) as (enc & He).
  destruct (STL_init_ok hp Hok) as (st & Hs).
  unfold construct at 1, GST_init.
  unfold bind at 1, called at 1.
  unfold bind at 1. rewrite He.
  unfold bind at 1. rewrite Hs. unfold ret. intros [= <- _].
  cbn [encoder stl]. split; eexists; unfold construct.
  - rewrite He. reflexivity.
  - rewrite Hs. reflexivity.
Qed.

(** X15: the end-to-end shape of [GST.forward].  For a model built from a
    configuration with admissible sizes whose [num_heads] divides
    [token_embedding_size], a batch [N x T x n_mel_channels] (N, T >= 1)
    gives an output of shape [N x 1 x token_embedding_size]; the methods
    are entered in the order [GST.forward], [ReferenceEncoder.forward],
    [STL.forward], [MultiHeadAttention.forward], and the style-token layer
    is unchanged.  A batch of one example is accepted as long as the
    feature map after the last convolution has more than one value per
    channel. *)
Theorem GST_forward_shape
        (hp : hparams) (g : GST F) l (inputs : tensor F) (N T s : Z) :
  construct (GST_init hp) = (Ok g, l) ->
  hparams_sizes_ok hp ->
  hp_token_embedding_size hp = hp_num_heads hp * s -> 0 < s ->
  shape inputs = [N; T; hp_n_mel_channels hp] -> 1 <= N -> 1 <= T ->
  2 <= N
  \/ 2 <= ceil_div T (2 ^ len (hp_ref_enc_filters hp))
          * ceil_div (hp_n_mel_channels hp) (2 ^ len (hp_ref_enc_filters hp)) ->
  exists out g',
    run (GST_forward inputs None) g
    = (Ok out, g',
       ["GST.forward"%string; "ReferenceEncoder.forward"%string;
        "STL.forward"%string; "MultiHeadAttention.forward"%string])
    /\ shape out = [N; 1; hp_token_embedding_size hp]
    /\ stl g' = stl g.
Proof.
  intros Hc Hok HE Hs Hin HN HT Hbig.
  destruct (GST_init_inv hp g l Hok Hc) as ((l1 & Hce) & (l2 & Hcs)).
  assert (Hmel : 1 <= hp_n_mel_channels hp)
    by (destruct Hok as (_ & _ & ? & _); assumption).
  assert (Hh : 0 < hp_num_heads hp)
    by (destruct Hok as (_ & _ & _ & _ & _ & _ & ?); assumption).
  destruct (ReferenceEncoder_init_facts hp (encoder g) l1 Hce Hmel)
    as (Hwf & Hgh & Hnm & HK & _).
  destruct (STL_init_wf hp (stl g) l2 s Hcs HE Hs Hh) as (Hswf & Hemb & HU).
  assert (Hch : channels_positive (convs (encoder g))).
  { apply (ReferenceEncoder_init_channels hp _ l1 Hce).
    destruct Hok as (_ & ? & _). assumption. }
  rewrite <- Hnm in Hin, Hmel, Hbig.
  unfold len in Hbig. rewrite <- HK, <- !iter_halve_stage_ceil in Hbig.
  pose proof (iter_halve_stage_pos (length (convs (encoder g))) T HT) as PT.
  pose proof (iter_halve_stage_pos (length (convs (encoder g))) _ Hmel) as PM.
  destruct (ReferenceEncoder_features_spec (encoder g) inputs N T _ T
              ["GST.forward"%string] Hwf Hch Hin HN eq_refl HT ltac:(nia))
    as (cf & x0 & y & bs' & feat & _ & _ & _ & _ & _ & _ & _ & _ & Hf & Sf & _).
  destruct (GRU_forward_padded (gru (encoder g)) feat N _ Sf PT)
    as (h & Eh & Sh).
  rewrite Hgh in Sh.
  destruct (STL_forward_spec (stl g) h N _ _ s Hswf Hemb Sh ltac:(lia))
    as (q & k & loc & Hrun & _ & _ & _ & _ & _ & Hspec).
  exists (loc_out loc), (mkGST (set_bns bs' (encoder g)) (stl g)).
  split; [|split; [|reflexivity]].
  - unfold run, GST_forward. unfold bind at 1, called. cbn [app].
    unfold bind at 1, zoom at 1.
    rewrite ReferenceEncoder_forward_features.
    cbn [app] in Hf. rewrite Hf, Eh.
    unfold bind, zoom, set_encoder, set_stl, ret. cbn [encoder stl].
    rewrite STL_forward_any_log, Hrun.
    cbn [outcome final_state final_log fst snd app]. reflexivity.
  - destruct Hspec as (_ & _ & _ & _ & _ & _ & _ & _ & _ & _ & So & _).
    rewrite So, HU. reflexivity.
Qed.

Lemma ceil_div_one a b : 1 <= a -> a <= b -> ceil_div a b = 1.
Proof.
  intros Ha Hb. pose proof (ceil_div_spec a b ltac:(lia)). nia.
Qed.

Lemma conv_stack_collapse cin cs bs cout :
  stack_ok cin cs bs cout -> channels_positive cs ->
  forall (x : tensor F) l Ht Wd,
    cs <> [] -> Forall (fun b => bn_training b = true) bs ->
    shape x = [1; cin; Ht; Wd] -> 1 <= Ht -> 1 <= Wd ->
    Nat.iter (length cs) halve_stage Ht = 1 ->
    Nat.iter (length cs) halve_stage Wd = 1 ->
    exists bs', conv_stack cs x bs l = (Raise ValueError, bs', l).
Proof.
  induction 1 as [c|cin cmid cout conv bn cs bs Hconv Hbn Hst IH];
    intros Hpos x l Ht Wd Hne Hall Hx HH HW EH EW.
  - contradiction.
  - pose proof (Forall_inv Hpos) as Hco. cbv beta in Hco.
    pose proof (Forall_inv_tail Hpos) as Hpos'.
    assert (Hcm : 1 <= cmid)
      by (destruct Hconv as (_ & <- & _); exact Hco).
    specialize (IH Hpos').
    pose proof (Forall_inv Hall) as Htr. cbv beta in Htr.
    pose proof (Forall_inv_tail Hall) as Hrest.
    cbn [conv_stack]. unfold bind at 1, get.
    destruct (Conv2d_forward_shape conv x cin _ 1 Ht Wd Hconv Hcm Hx HH HW)
      as (t1 & E1 & S1).
    unfold bind at 1, lift at 1. rewrite E1.
    pose proof (halve_stage_pos Ht HH) as HH'.
    pose proof (halve_stage_pos Wd HW) as HW'.
    cbn [length] in EH, EW. rewrite Nat.iter_succ_r in EH, EW.
    destruct (Z.eq_dec (1 * (halve_stage Ht * halve_stage Wd)) 1) as [E|E].
    + unfold bind at 1, zoom at 1. cbn [hd tl].
      unfold BatchNorm2d_forward, bind, get, put, ret, lift.
      rewrite S1, Htr. cbn [andb]. rewrite E. cbn [Z.eqb Pos.eqb].
      eexists. reflexivity.
    + destruct (BatchNorm2d_forward_spec bn t1 l 1 _ _ _ Hbn S1 E)
        as (t2 & bn' & E2 & S2 & _).
      unfold bind, zoom. cbn [hd tl]. rewrite E2. cbn [hd tl].
      assert (Hne' : cs <> []).
      { intros ->. cbn in EH, EW. rewrite EH, EW in E. lia. }
      destruct (IH (relu t2) l _ _ Hne' Hrest S2 HH' HW' EH EW) as (bs' & E3).
      rewrite E3. eexists. reflexivity.
Qed.

(** X16: a batch of a single example whose time and frequency axes both
    collapse to 1 ([T] and [n_mel_channels] at most [2^K]) cannot be
    processed by a freshly built encoder, which is in training mode: the
    call raises [ValueError], from batch normalisation, with or without
    lengths. *)
Theorem ReferenceEncoder_forward_single_example_collapse
        (hp : hparams) (enc : ReferenceEncoder F) l
        (inputs : tensor F) (input_lengths : option (list Z)) (T : Z) :
  construct (ReferenceEncoder_init hp) = (Ok enc, l) ->
  Forall (fun f => 1 <= f) (hp_ref_enc_filters hp) ->
  1 <= hp_n_mel_channels hp ->
  shape inputs = [1; T; hp_n_mel_channels hp] -> 1 <= T ->
  T <= 2 ^ len (hp_ref_enc_filters hp) ->
  hp_n_mel_channels hp <= 2 ^ len (hp_ref_enc_filters hp) ->
  exists enc',
    run (ReferenceEncoder_forward inputs input_lengths) enc
    = (Raise ValueError, enc', ["ReferenceEncoder.forward"%string]).
Proof.
  intros Hc Hpos Hmel Hin HT HT2 HM2.
  destruct (ReferenceEncoder_init_facts hp enc l Hc Hmel)
    as (Hwf & _ & Hnm & HK & Hne & Htr & _).
  pose proof (ReferenceEncoder_init_channels hp enc l Hc Hpos) as Hch.
  destruct Hwf as (cf & Hst & _).
  rewrite <- Hnm in Hin, Hmel, HM2.
  destruct (view_mel inputs 1 T _ _ T Hin ltac:(lia) Hmel eq_refl)
    as (x0 & E0 & S0).
  assert (Hcs : convs enc <> []).
  { intros E. rewrite E in HK. destruct (hp_ref_enc_filters hp);
      [contradiction|discriminate]. }
  unfold len in HT2, HM2. rewrite <- HK in HT2, HM2.
  destruct (conv_stack_collapse 1 _ _ cf Hst Hch x0
              ["ReferenceEncoder.forward"%string] T _ Hcs Htr S0 HT Hmel)
    as (bs' & E1).
  { rewrite iter_halve_stage_ceil. apply ceil_div_one; assumption. }
  { rewrite iter_halve_stage_ceil. apply ceil_div_one; assumption. }
  exists (set_bns bs' enc).
  unfold run. rewrite ReferenceEncoder_forward_features.
  unfold ReferenceEncoder_features.
  unfold bind at 1, called. cbn [app].
  unfold bind at 1, get.
  unfold bind at 1, lift at 1, size. rewrite Hin. cbn [nth_error].
  unfold bind at 1, lift at 1. rewrite E0.
  unfold bind at 1, zoom. rewrite E1. reflexivity.
Qed.

Lemma conv_stack_empty_time cin cs bs cout :
  stack_ok cin cs bs cout ->
  forall (x : tensor F) l N W,
    shape x = [N; cin; 0; W] ->
    conv_stack cs x bs l = (Ok x, bs, l)
    \/ conv_stack cs x bs l = (Raise RuntimeError, bs, l).
Proof.
  destruct 1 as [c|cin cmid cout conv bn cs bs Hconv Hbn Hrest];
    intros x l N W Hx.
  - left. reflexivity.
  - right. cbn [conv_stack]. unfold bind at 1, get.
    destruct Hconv as (Hi & Ho & Hk & Hs & Hp).
    unfold bind at 1, lift at 1, Conv2d_forward. rewrite Hx, Hi, Hk, Hs, Hp.
    rewrite Z.eqb_refl. destruct (conv_out_channels conv <? 1); reflexivity.
Qed.

(** X17: empty input.  A batch with no examples, or with examples of no
    time steps, makes [ReferenceEncoder.forward] raise [RuntimeError]
    (from the first [view], the first convolution or the second [view]),
    with or without lengths, and the encoder is left unchanged. *)
Theorem ReferenceEncoder_forward_empty_batch
        (e : ReferenceEncoder F) (inputs : tensor F)
        (input_lengths : option (list Z)) (N T : Z) :
  ReferenceEncoder_wf e ->
  shape inputs = [N; T; n_mel_channels e] -> 0 <= N -> 0 <= T ->
  N = 0 \/ T = 0 ->
  run (ReferenceEncoder_forward inputs input_lengths) e
  = (Raise RuntimeError, e, ["ReferenceEncoder.forward"%string]).
Proof.
  intros (cf & Hst & _ & Hmel & _) Hin HN HT Hz.
  unfold run. rewrite ReferenceEncoder_forward_features.
  unfold ReferenceEncoder_features.
  unfold bind at 1, called. cbn [app].
  unfold bind at 1, get.
  unfold bind at 1, lift at 1, size. rewrite Hin. cbn [nth_error].
  assert (Eset : set_bns (bns e) e = e) by (destruct e; reflexivity).
  destruct (Z.eq_dec N 0) as [->|HN0].
  - unfold bind at 1, lift at 1, view, infer_size. rewrite Hin.
    cbn [infer_scan Z.eqb Z.leb Z.compare].
    destruct (Z.eqb_spec (n_mel_channels e) (-1)); [lia|].
    destruct (Z.leb_spec 0 (n_mel_channels e)); [|lia].
    cbn [rbind numel fold_right Z.mul Z.eqb orb]. reflexivity.
  - assert (T = 0) as -> by lia.
    destruct (view_mel inputs N 0 _ _ 0 Hin ltac:(lia) Hmel eq_refl)
      as (x0 & E0 & S0).
    unfold bind at 1, lift at 1. rewrite E0.
    unfold bind at 1, zoom.
    destruct (conv_stack_empty_time 1 _ _ cf Hst x0
                ["ReferenceEncoder.forward"%string] N _ S0) as [E1|E1];
      rewrite E1, Eset; [|reflexivity].
    unfold bind at 1, lift at 1, transpose. rewrite S0.
    cbn [length Nat.ltb Nat.leb andb swap_at nth set_nth].
    unfold bind at 1, lift at 1, size. cbn [shape nth_error].
    unfold bind at 1, lift at 1. cbn [nth_error].
    unfold lift, view, infer_size. cbn [shape infer_scan].
    destruct (Z.eqb_spec N (-1)); [lia|].
    destruct (Z.leb_spec 0 N); [|lia].
    cbn [Z.eqb Z.leb Z.compare rbind].
    replace (numel [N; 0; 1; n_mel_channels e]) with 0
      by (cbn [numel fold_right]; lia).
    replace (1 * N * 0) with 0 by lia. reflexivity.
Qed.

End ModelExtras.

(** ** Examples on a small configuration *)

Lemma small_hparams_sizes_ok : hparams_sizes_ok small_hparams.
Proof.
  unfold hparams_sizes_ok, small_hparams. cbn.
  repeat split; try lia; try discriminate.
  repeat constructor; lia.
Qed.

Lemma ReferenceEncoder_gru_sequence_shape_witness :
  exists enc l feat enc',
    construct (ReferenceEncoder_init (F:=sym) small_hparams) = (Ok enc, l)
    /\ run (ReferenceEncoder_features (sym_input [2; 7; 5])) enc
       = (Ok feat, enc', ["ReferenceEncoder.forward"%string])
    /\ shape feat = [2; 2; 6]
    /\ 7 / 2 ^ 2 = 1.
Proof.
  eexists. eexists.
  match goal with
  | |- exists feat enc', ?c = (Ok ?enc, ?l) /\ _ =>
      assert (Hc : c = (Ok enc, l)) by reflexivity;
      destruct (ReferenceEncoder_gru_sequence_shape
                  small_hparams enc l (sym_input [2; 7; 5]) 2 7
                  Hc ltac:(repeat constructor; discriminate)
                  ltac:(discriminate) eq_refl ltac:(discriminate)
                  ltac:(discriminate))
        as (feat & enc' & Hrun & Sf & _)
  end.
  exists feat, enc'. split; [reflexivity|]. split; [exact Hrun|].
  split; [rewrite Sf; reflexivity|reflexivity].
Defined.

Lemma ReferenceEncoder_features_layout_witness :
  exists enc l x0,
    construct (ReferenceEncoder_init (F:=sym) small_hparams) = (Ok enc, l)
    /\ view (sym_input [2; 7; 5]) [2; 1; -1; 5] = Ok x0
    /\ data x0 [1; 0; 3; 2] = SInput [1; 3; 2].
Proof.
  eexists. eexists.
  match goal with
  | |- exists x0, ?c = (Ok ?enc, ?l) /\ _ =>
      assert (Hc : c = (Ok enc, l)) by reflexivity;
      destruct (ReferenceEncoder_features_layout
                  small_hparams enc l (sym_input [2; 7; 5]) 2 7 5 7
                  Hc ltac:(repeat constructor; discriminate)
                  ltac:(discriminate) eq_refl ltac:(discriminate)
                  eq_refl eq_refl ltac:(discriminate))
        as (x0 & y & bs' & feat & C & E0 & _ & Hd & _)
  end.
  exists x0. split; [reflexivity|]. split; [exact E0|].
  apply (Hd eq_refl 1 3 2); lia.
Defined.

Lemma ReferenceEncoder_forward_lengths_side_effects_witness :
  exists enc l e',
    construct (ReferenceEncoder_init (F:=sym) small_hparams) = (Ok enc, l)
    /\ run (ReferenceEncoder_forward (sym_input [2; 7; 5]) (Some [7; 7])) enc
       = (Raise TypeError, e', ["ReferenceEncoder.forward"%string])
    /\ map bn_num_batches_tracked (bns e')
       = map (fun b => bn_num_batches_tracked b + 1) (bns enc).
Proof.
  eexists. eexists.
  match goal with
  | |- exists e', ?c = (Ok ?enc, ?l) /\ _ =>
      assert (Hc : c = (Ok enc, l)) by reflexivity;
      destruct (ReferenceEncoder_init_facts small_hparams enc l Hc
                  ltac:(discriminate))
        as (Hwf & _ & _ & _ & _ & Htr & _);
      pose proof (ReferenceEncoder_init_channels
                    small_hparams enc l Hc
                    ltac:(repeat constructor; discriminate)) as Hch;
      destruct (ReferenceEncoder_forward_lengths_side_effects
                  enc (sym_input [2; 7; 5]) [7; 7] 2 7 Hwf Hch Htr eq_refl
                  ltac:(discriminate) ltac:(discriminate))
        as (e' & Hrun & Hcn & _)
  end.
  exists e'. split; [reflexivity|]. split; assumption.
Defined.

Lemma GST_forward_eval_read_only_witness :
  exists g l,
    construct (GST_init (F:=sym) small_hparams) = (Ok g, l)
    /\ final_state (run (GST_forward (sym_input [2; 7; 5]) None) (GST_eval g))
       = GST_eval g.
Proof.
  eexists. eexists. split; [reflexivity|].
  match goal with
  | |- final_state (run _ (GST_eval ?g)) = _ =>
      apply (proj1 (GST_forward_eval_read_only
                      (GST_eval g) (sym_input [2; 7; 5]) None
                      (GST_eval_bns g)))
  end.
Defined.

Lemma GST_forward_shape_witness :
  exists g l out g',
    construct (GST_init (F:=sym) small_hparams) = (Ok g, l)
    /\ run (GST_forward (sym_input [1; 7; 5]) None) g
       = (Ok out, g',
          ["GST.forward"%string; "ReferenceEncoder.forward"%string;
           "STL.forward"%string; "MultiHeadAttention.forward"%string])
    /\ shape out = [1; 1; 6].
Proof.
  eexists. eexists.
  match goal with
  | |- exists out g', ?c = (Ok ?g, ?l) /\ _ =>
      assert (Hc : c = (Ok g, l)) by reflexivity;
      destruct (GST_forward_shape
                  small_hparams g l (sym_input [1; 7; 5]) 1 7 3
                  Hc small_hparams_sizes_ok eq_refl eq_refl eq_refl
                  ltac:(discriminate) ltac:(discriminate)
                  ltac:(right; discriminate))
        as (out & g' & Hrun & So & _)
  end.
  exists out, g'. split; [reflexivity|]. split; assumption.
Defined.

Lemma ReferenceEncoder_forward_single_example_collapse_witness :
  exists enc l enc',
    construct (ReferenceEncoder_init (F:=sym) (mkHparams [2; 3] 4 4 3 6 2))
    = (Ok enc, l)
    /\ run (ReferenceEncoder_forward (sym_input [1; 3; 4]) None) enc
       = (Raise ValueError, enc', ["ReferenceEncoder.forward"%string]).
Proof.
  eexists. eexists.
  match goal with
  | |- exists enc', ?c = (Ok ?enc, ?l) /\ _ =>
      assert (Hc : c = (Ok enc, l)) by reflexivity;
      destruct (ReferenceEncoder_forward_single_example_collapse
                  (mkHparams [2; 3] 4 4 3 6 2) enc l (sym_input [1; 3; 4])
                  None 3 Hc ltac:(repeat constructor; discriminate)
                  ltac:(discriminate) eq_refl ltac:(discriminate)
                  ltac:(discriminate) ltac:(discriminate))
        as (enc' & Hrun)
  end.
  exists enc'. split; [reflexivity|exact Hrun].
Defined.

Lemma ReferenceEncoder_forward_empty_batch_witness :
  exists enc l,
    construct (ReferenceEncoder_init (F:=sym) small_hparams) = (Ok enc, l)
    /\ run (ReferenceEncoder_forward (sym_input [0; 7; 5]) None) enc
       = (Raise RuntimeError, enc, ["ReferenceEncoder.forward"%string]).
Proof.
  eexists. eexists.
  match goal with
  | |- ?c = (Ok ?enc, ?l) /\ _ =>
      assert (Hc : c = (Ok enc, l)) by reflexivity;
      destruct (ReferenceEncoder_init_facts small_hparams enc l Hc
                  ltac:(discriminate)) as (Hwf & _)
  end.
  split; [reflexivity|].
  apply (ReferenceEncoder_forward_empty_batch _ (sym_input [0; 7; 5]) None
           0 7 Hwf eq_refl); [discriminate|discriminate|left; reflexivity].
Defined.

(** ** Input width of the style-token layer; lengths at the top level *)

Section WidthsAndLengths.
Context {F : Type} `{Numeric F}.

Lemma MultiHeadAttention_forward_query_mismatch
      (self : MultiHeadAttention F) (query key : tensor F) a b d :
  shape query = [a; b; d] -> d <> lin_in_features (W_query self) ->
  MultiHeadAttention_forward self query key = Raise RuntimeError.
Proof.
  intros Hq Hd. unfold MultiHeadAttention_forward, MultiHeadAttention_locals.
  rewrite (Linear_forward_mismatch (W_query self) query a b d Hq Hd).
  reflexivity.
Qed.

(** X18: the width [STL.forward] accepts is [ref_enc_gru_size], the
    [query_dim] its constructor passes to the attention block, and not the
    [token_embedding_size // 2] of the class docstring: for a layer built
    from a configuration whose [num_heads] divides [token_embedding_size],
    a batch [N x D] is processed exactly when [D = ref_enc_gru_size]; any
    other width is rejected with [RuntimeError] by the query projection,
    the layer unchanged. *)
Theorem STL_forward_input_width
        (hp : hparams) (st : STL F) l (inputs : tensor F) (N D s : Z) :
  construct (STL_init hp) = (Ok st, l) ->
  hp_token_embedding_size hp = hp_num_heads hp * s ->
  0 < s -> 0 < hp_num_heads hp ->
  shape inputs = [N; D] -> 0 <= N ->
  ((exists out, outcome (run (STL_forward inputs) st) = Ok out)
   <-> D = hp_ref_enc_gru_size hp)
  /\ (D <> hp_ref_enc_gru_size hp ->
      run (STL_forward inputs) st
      = (Raise RuntimeError, st,
         ["STL.forward"%string; "MultiHeadAttention.forward"%string])).
Proof.
  intros Hc HE Hs Hh Hin HN.
  destruct (STL_init_wf hp st l s Hc HE Hs Hh) as (Hwf & He & HU).
  assert (Hbad : D <> hp_ref_enc_gru_size hp ->
                 run (STL_forward inputs) st
                 = (Raise RuntimeError, st,
                    ["STL.forward"%string;
                     "MultiHeadAttention.forward"%string])).
  { intros HD.
    set (query := mkT [N; 1; D] (fun idx => data inputs (remove_at 1 idx))).
    assert (Hq : unsqueeze inputs 1 = Ok query).
    { unfold unsqueeze. rewrite Hin. reflexivity. }
    set (keys0 := mkT [1; hp_token_num hp; key_dim (attention st)]
                      (fun idx => data (tanh (embed st)) (remove_at 0 idx))).
    assert (Hk0 : unsqueeze (tanh (embed st)) 0 = Ok keys0).
    { unfold unsqueeze, tanh, map_tensor. cbn [shape]. rewrite He.
      reflexivity. }
    pose proof (expand_batch keys0 N _ _ eq_refl HN) as Hk.
    unfold run, STL_forward, bind, called, get, lift, ret. cbn [app].
    unfold size. rewrite Hin. cbn [nth_error]. rewrite Hq, Hk0, Hk.
    rewrite (MultiHeadAttention_forward_query_mismatch
               (attention st) query _ N 1 D eq_refl); [reflexivity|].
    destruct Hwf as (Hqi & _). rewrite Hqi. exact HD. }
  split; [split|exact Hbad].
  - intros (out & Hout).
    destruct (Z.eq_dec D (hp_ref_enc_gru_size hp)) as [E|E]; [exact E|].
    rewrite (Hbad E) in Hout. discriminate.
  - intros ->.
    destruct (STL_forward_spec st inputs N _ _ s Hwf He Hin HN)
      as (q & k & loc & Hrun & _).
    exists (loc_out loc). rewrite Hrun. reflexivity.
Qed.

(** X19: [GST.forward] called with lengths never reaches the style-token
    layer: for every model, input and lengths the call raises, and neither
    [STL.forward] nor [MultiHeadAttention.forward] has been entered. *)
Theorem GST_forward_lengths_stops_before_stl
        (g : GST F) (inputs : tensor F) (lengths : list Z) :
  exists err,
    outcome (run (GST_forward inputs (Some lengths)) g) = Raise err
    /\ calls_to "STL.forward"
                (final_log (run (GST_forward inputs (Some lengths)) g))
       = 0%nat
    /\ calls_to "MultiHeadAttention.forward"
                (final_log (run (GST_forward inputs (Some lengths)) g))
       = 0%nat.
Proof.
  unfold run, GST_forward. unfold bind at 1 3 5, called. cbn [app].
  unfold bind, zoom.
  destruct (ReferenceEncoder_forward_lengths_always_raises
              inputs lengths (encoder g) ["GST.forward"%string])
    as (err & Herr).
  destruct (ReferenceEncoder_forward_logs
              inputs (Some lengths) (encoder g) ["GST.forward"%string])
    as (k & Hk & Hincl).
  destruct (ReferenceEncoder_forward inputs (Some lengths) (encoder g) _)
    as [[[x|err'] e'] l1]; cbn [outcome final_log fst snd] in Herr, Hk |- *;
    [discriminate|].
  exists err'. split; [reflexivity|]. subst l1.
  split; rewrite calls_to_app;
    rewrite (calls_to_not_allowed _ _ k Hincl); try reflexivity;
    intros [E|[]]; discriminate.
Qed.

End WidthsAndLengths.

Lemma STL_forward_input_width_witness :
  exists st l,
    construct (STL_init (F:=sym) small_hparams) = (Ok st, l)
    /\ run (STL_forward (sym_input [2; 3])) st
       = (Raise RuntimeError, st,
          ["STL.forward"%string; "MultiHeadAttention.forward"%string]).
Proof.
  eexists. eexists.
  match goal with
  | |- ?c = (Ok ?st, ?l) /\ _ =>
      assert (Hc : c = (Ok st, l)) by reflexivity;
      pose proof (proj2 (STL_forward_input_width
                           small_hparams st l (sym_input [2; 3]) 2 3 3
                           Hc eq_refl eq_refl eq_refl eq_refl
                           ltac:(discriminate))) as Hbad
  end.
  split; [reflexivity|]. apply Hbad. discriminate.
Defined.

(** ** [calculate_channels] in general; the head split as a round trip *)

Lemma calculate_channels_loop_mono n k s p :
  0 < s ->
  forall L L', L <= L' ->
    exists c c',
      calculate_channels_loop n L k s p = Ok c
      /\ calculate_channels_loop n L' k s p = Ok c'
      /\ c <= c'.
Proof.
  intros Hs. induction n as [|n IH]; intros L L' HL.
  - exists L, L'. split; [reflexivity|]. split; [reflexivity|exact HL].
  - cbn [calculate_channels_loop]. unfold floordiv.
    destruct (Z.eqb_spec s 0); [lia|]. cbn [rbind].
    apply IH.
    pose proof (Z.div_le_mono (L - k + 2 * p) (L' - k + 2 * p) s Hs).
    lia.
Qed.

Lemma calculate_channels_loop_stride_1 n L k p :
  calculate_channels_loop n L k 1 p
  = Ok (L + Z.of_nat n * (2 * p - k + 1)).
Proof.
  revert L. induction n as [|n IH]; intros L.
  - cbn [calculate_channels_loop]. f_equal. lia.
  - cbn [calculate_channels_loop]. unfold floordiv.
    cbn [Z.eqb rbind]. rewrite IH, Z.div_1_r. f_equal. lia.
Qed.

(** X20: [calculate_channels] for general arguments.  With a positive
    stride it always returns, and a larger input size never gives a
    smaller result; with stride 1 each stage adds [2 * pad - kernel_size
    + 1], so [n_convs] stages return [L + n_convs * (2 * pad -
    kernel_size + 1)] and a [same] padding ([kernel_size = 2 * pad + 1])
    returns [L]. *)
Theorem calculate_channels_monotone (L L' k s p n : Z) :
  0 < s -> L <= L' ->
  (exists c c',
      calculate_channels L k s p n = Ok c
      /\ calculate_channels L' k s p n = Ok c'
      /\ c <= c')
  /\ (0 <= n ->
      calculate_channels L k 1 p n = Ok (L + n * (2 * p - k + 1)))
  /\ (k = 2 * p + 1 -> calculate_channels L k 1 p n = Ok L).
Proof.
  intros Hs HL. unfold calculate_channels. split; [|split].
  - apply calculate_channels_loop_mono; assumption.
  - intros Hn. rewrite calculate_channels_loop_stride_1, Z2Nat.id by lia.
    reflexivity.
  - intros ->. rewrite calculate_channels_loop_stride_1. f_equal. lia.
Qed.

Lemma calculate_channels_monotone_witness :
  (exists c c',
      calculate_channels 80 3 2 1 6 = Ok c
      /\ calculate_channels 128 3 2 1 6 = Ok c'
      /\ c <= c')
  /\ calculate_channels 80 3 1 1 6 = Ok 80.
Proof.
  destruct (calculate_channels_monotone 80 128 3 2 1 6) as (Hm & _);
    [lia|lia|].
  split; [exact Hm|].
  apply (calculate_channels_monotone 80 80 3 1 1 6); lia.
Defined.

Section RoundTrip.
Context {F : Type} `{Numeric F}.

(** X21: splitting into heads and merging back is the identity.  For a
    tensor [a x b x (heads * s)], the [stack]/[split] of lines 114-116
    followed by the [cat]/[split]/[squeeze] of line 124 returns a tensor
    of the same shape with the same entries: feature [j] goes to head
    [j / s], position [j mod s], and comes back to [j]. *)
Theorem heads_split_merge_round_trip (x : tensor F) (a b heads s : Z) :
  shape x = [a; b; heads * s] -> 0 < heads -> 0 < s ->
  exists t r,
    split_heads x s = Ok t
    /\ shape t = [heads; a; b; s]
    /\ merge_heads t = Ok r
    /\ shape r = shape x
    /\ (forall n i j, 0 <= j < heads * s ->
          data t [j / s; n; i; j mod s] = data x [n; i; j]
          /\ data r [n; i; j] = data x [n; i; j]).
Proof.
  intros Hx Hh Hs.
  destruct (split_heads_spec x a b heads s Hx Hh Hs) as (t & Et & St & Dt).
  destruct (merge_heads_spec t heads a b s St Hh) as (r & Er & Sr & Dr).
  exists t, r. split; [exact Et|]. split; [exact St|].
  split; [exact Er|]. split; [rewrite Sr, Hx; reflexivity|].
  intros n i j Hj.
  pose proof (Z.div_mod j s ltac:(lia)) as Hdm.
  pose proof (Z.mod_pos_bound j s Hs) as Hmod.
  assert (Hq : 0 <= j / s < heads).
  { split; [apply Z.div_pos; lia|].
    apply Z.div_lt_upper_bound; [lia|]. rewrite Z.mul_comm. lia. }
  assert (Ej : j = j / s * s + j mod s) by lia.
  split.
  - rewrite (Dt (j / s) n i (j mod s) Hq), <- Ej. reflexivity.
  - rewrite Ej at 1.
    rewrite (Dr (j / s) n i (j mod s) Hq Hmod), (Dt (j / s) n i (j mod s) Hq).
    rewrite <- Ej. reflexivity.
Qed.

End RoundTrip.

Lemma heads_split_merge_round_trip_witness :
  exists t r,
    split_heads (sym_input [2; 3; 8]) 4 = Ok t
    /\ merge_heads t = Ok r
    /\ shape r = [2; 3; 8]
    /\ data r [1; 2; 6] = SInput [1; 2; 6].
Proof.
  destruct (heads_split_merge_round_trip (sym_input [2; 3; 8]) 2 3 2 4
              eq_refl eq_refl eq_refl)
    as (t & r & Et & _ & Er & Sr & Hd).
  exists t, r. split; [exact Et|]. split; [exact Er|].
  split; [exact Sr|]. apply (Hd 1 2 6). lia.
Defined.
